(** * EVM-RealTimeChat-Server: authentication, presence and room membership

  A shallow embedding of the two socket.io servers of the repository:

  - [AuthServer]: the server that authenticates every connection with a
    signed, single-use nonce challenge before it registers the socket in
    the presence map (nonce issuance, the [connection] handler, [dm:send],
    [disconnect]);
  - [RoomServer]: the server of [src/index.ts], which trusts the claimed
    address and additionally tracks chat-room membership ([join_chat],
    [leave_chat], the room sweep on [disconnect]).

  JavaScript [Map]s and [Set]s keyed by strings are finite maps and finite
  sets; a handler is a function from the server state and its inputs to the
  new state and the list of effects it performs on the transport, in program
  order.  Iterating a [Set] or a [Map] visits its elements in the order of
  [elements]/[map_to_list]; no statement below depends on that order. *)

From Stdlib Require Import String Ascii ZArith Bool PrimFloat.
From stdpp Require Import gmap strings list fin_maps.

Local Open Scope string_scope.
Local Open Scope list_scope.

Set Warnings "-clear-no-such-hyp,-register-all".

(** ** JavaScript values as the handlers see them *)

Module JS.

(** [!x] for an optional string: [undefined] and the empty string are
    falsy, every other string is truthy. *)
Definition truthy (x : option string) : bool :=
  match x with
  | None => false
  | Some s => negb (String.eqb s "")
  end.

Definition lower_ascii (c : ascii) : ascii :=
  let n := nat_of_ascii c in
  if (65 <=? n)%nat && (n <=? 90)%nat then ascii_of_nat (n + 32) else c.

(** [s.toLowerCase()] on the ASCII letters, which is all an address made of
    [0x] and hexadecimal digits contains: it is [String.prototype.toLowerCase]
    on the strings of ASCII characters, and so on every output of
    [ethers.getAddress].  The handlers of [Events] below take the function
    as a parameter instead, for the strings a client may send. *)
Fixpoint toLowerCase (s : string) : string :=
  match s with
  | EmptyString => EmptyString
  | String c s' => String (lower_ascii c) (toLowerCase s')
  end.

(** [a <= b] on strings: lexicographic on the code units. *)
Definition str_le (a b : string) : bool := String.leb a b.

End JS.

(** ** What a handler does to the transport *)

Module Wire.

(** The direct message built by [dm:send]: [{ from, to, body, ts }]. *)
Record DmMsg := { from : string; to : string; body : string; ts : Z }.

Inductive payload :=
| PAddress (address : string)              (* { address } *)
| PUsers (users : list (string * bool))    (* { users: [{ address, online }] } *)
| PMsg (msg : DmMsg).

Inductive effect :=
| SocketDisconnect (socket_id : string)                         (* socket.disconnect(true) *)
| SocketEmit (socket_id : string) (ev : string) (p : payload)   (* socket.emit(ev, p) *)
| BroadcastEmit (socket_id : string) (ev : string) (p : payload)(* socket.broadcast.emit(ev, p) *)
| IoToEmit (id : string) (ev : string) (p : payload)            (* io.to(id).emit(ev, p) *)
| IoEmit (ev : string) (p : payload)                            (* io.emit(ev, p) *)
| SocketJoin (socket_id : string) (chatId : string)             (* socket.join(chatId) *)
| SocketLeave (socket_id : string) (chatId : string)            (* socket.leave(chatId) *)
| ConsoleLog (tag : string) (args : list string).               (* console.log(tag, ...args) *)

(** Is the effect a [presence:online { address }] broadcast? *)
Definition is_online (address : string) (e : effect) : bool :=
  match e with
  | BroadcastEmit _ ev (PAddress a) =>
      bool_decide (ev = "presence:online") && bool_decide (a = address)
  | _ => false
  end.

(** Is the effect a [presence:offline { address }] sent to everyone? *)
Definition is_offline (address : string) (e : effect) : bool :=
  match e with
  | IoEmit ev (PAddress a) =>
      bool_decide (ev = "presence:offline") && bool_decide (a = address)
  | _ => false
  end.

(** How many effects of a run satisfy [p]. *)
Definition count (p : effect → bool) (es : list effect) : nat :=
  length (List.filter p es).

Definition online_count (address : string) := count (is_online address).
Definition offline_count (address : string) := count (is_offline address).

End Wire.
Import Wire.

(** ** The presence map: address -> active socket ids

  The register block of the [connection] handler and the [disconnect]
  handler's presence part are the same text in both servers. *)

Module Presence.

(** PRESENCE REGISTER: [addressToSockets.get], create the set when absent,
    [sockets.add(socket.id)], log and broadcast on the first connection. *)
Definition register (socket_id address : string)
    (addressToSockets : gmap string (gset string))
  : gmap string (gset string) * list effect :=
  let sockets := addressToSockets !! address in
  let isFirstConnection := bool_decide (sockets = None) in
  let '(sockets, addressToSockets) :=
    match sockets with
    | None => (∅, <[address := ∅]> addressToSockets)
    | Some sockets => (sockets, addressToSockets)
    end in
  let addressToSockets := <[address := {[socket_id]} ∪ sockets]> addressToSockets in
  (addressToSockets,
   if isFirstConnection
   then [ConsoleLog "USER ONLINE:" [address];
         BroadcastEmit socket_id "presence:online" (PAddress address)]
   else []).

(** The snapshot sent to the newly connected client. *)
Definition snapshot (addressToSockets : gmap string (gset string)) : payload :=
  PUsers ((λ address, (address, true)) <$> (map_to_list addressToSockets).*1).

(** DISCONNECT: drop the socket id; on an empty set drop the entry, log and
    tell everyone.  [None] is the early [return] on an unknown address. *)
Definition deregister (socket_id address : string)
    (addressToSockets : gmap string (gset string))
  : option (gmap string (gset string) * list effect) :=
  match addressToSockets !! address with
  | None => None
  | Some sockets =>
      let sockets := sockets ∖ {[socket_id]} in
      let addressToSockets := <[address := sockets]> addressToSockets in
      if decide (size sockets = 0)
      then Some (delete address addressToSockets,
                 [ConsoleLog "USER OFFLINE:" [address];
                  IoEmit "presence:offline" (PAddress address)])
      else Some (addressToSockets, [])
  end.

(** The live connections of an identity, and whether it is tracked. *)
Definition connections (address : string)
    (addressToSockets : gmap string (gset string)) : gset string :=
  default ∅ (addressToSockets !! address).

Definition online (address : string)
    (addressToSockets : gmap string (gset string)) : Prop :=
  is_Some (addressToSockets !! address).

(** No entry maps to an empty set. *)
Definition no_empty_entry (addressToSockets : gmap string (gset string)) : Prop :=
  ∀ address sockets, addressToSockets !! address = Some sockets → sockets ≠ ∅.

(** A call of one of the two blocks, for runs of the registry alone. *)
Inductive op :=
| Register (socket_id address : string)
| Deregister (socket_id address : string).

Definition subject (o : op) : string :=
  match o with
  | Register _ address => address
  | Deregister _ address => address
  end.

Definition about (address : string) (o : op) : bool :=
  bool_decide (subject o = address).

Definition apply (o : op) (addressToSockets : gmap string (gset string))
  : gmap string (gset string) * list effect :=
  match o with
  | Register socket_id address => register socket_id address addressToSockets
  | Deregister socket_id address =>
      default (addressToSockets, []) (deregister socket_id address addressToSockets)
  end.

Definition apply_opt (o : option op) (addressToSockets : gmap string (gset string))
  : gmap string (gset string) * list effect :=
  match o with
  | Some o => apply o addressToSockets
  | None => (addressToSockets, [])
  end.

Fixpoint run (ops : list op) (addressToSockets : gmap string (gset string))
  : gmap string (gset string) * list effect :=
  match ops with
  | [] => (addressToSockets, [])
  | o :: ops =>
      let '(addressToSockets, effects) := apply o addressToSockets in
      let '(addressToSockets, effects') := run ops addressToSockets in
      (addressToSockets, effects ++ effects')
  end.

Definition is_register (o : op) : bool :=
  match o with Register _ _ => true | Deregister _ _ => false end.

End Presence.

(** ** The authenticating server *)

Module AuthServer.

Definition SIWE_STATEMENT : string := "Sign in to EVM RealTimeChat".
Definition SIWE_VERSION : string := "1".

Definition TYPE_DATA_TYPES : list (string * list (string * string)) :=
  [("SignIn",
    [("domain", "string"); ("address", "address"); ("statement", "string");
     ("uri", "string"); ("version", "string"); ("chainId", "uint256");
     ("nonce", "string"); ("issuedAt", "string"); ("expirationTime", "string")])].

Module NonceChallenge.
Record t := {
  address : string;
  chainId : Z;
  domain : string;
  uri : string;
  issuedAt : string;
  expirationTime : string;
  consumed : bool
}.
(** [challenge.consumed = true] on the stored object. *)
Definition consume (c : t) : t :=
  {| address := address c; chainId := chainId c; domain := domain c;
     uri := uri c; issuedAt := issuedAt c;
     expirationTime := expirationTime c; consumed := true |}.
End NonceChallenge.

(** The domain separator passed to [verifyTypedData]. *)
Module TypedDomain.
Record t := { name : string; version : string; chainId : Z }.
End TypedDomain.

(** The [SignIn] message passed to [verifyTypedData]. *)
Module SignIn.
Record t := {
  domain : string;
  address : string;
  statement : string;
  uri : string;
  version : string;
  chainId : Z;
  nonce : string;
  issuedAt : string;
  expirationTime : string
}.
End SignIn.

(** [socket.handshake.auth], every field optional as in the handler's cast. *)
Module Auth.
Record domain_t := {
  name : option string;
  version : option string;
  domain_chainId : option Z
}.
Record message_t := {
  nonce : option string;
  chainId : option Z;
  issuedAt : option string;
  expirationTime : option string
}.
Record typedData_t := {
  domain : option domain_t;
  message : option message_t
}.
Record t := {
  address : option string;
  signature : option string;
  typedData : option typedData_t
}.
End Auth.

Record State := {
  nonceChallenges : gmap string NonceChallenge.t;
  addressToSockets : gmap string (gset string)
}.

Definition initial : State :=
  {| nonceChallenges := ∅; addressToSockets := ∅ |}.

(** How a [connection] handler ends: the socket is disconnected, or it is
    authenticated with [socket.data.address] set and its handlers installed. *)
Inductive outcome :=
| Closed
| Authenticated (address : string).

(** GET /auth/nonce past its validations: store the pending challenge under
    the nonce drawn by [randomBytes(16)]. *)
Definition issue (nonce address : string) (chainId : Z)
    (domain uri issuedAt expirationTime : string) (st : State) : State :=
  {| nonceChallenges :=
       <[nonce := {| NonceChallenge.address := address;
                     NonceChallenge.chainId := chainId;
                     NonceChallenge.domain := domain;
                     NonceChallenge.uri := uri;
                     NonceChallenge.issuedAt := issuedAt;
                     NonceChallenge.expirationTime := expirationTime;
                     NonceChallenge.consumed := false |}]>
         (nonceChallenges st);
     addressToSockets := addressToSockets st |}.

Section Handlers.

(** The two calls into ethers; [None] is a thrown exception. *)
Variable getAddress : string → option string.
Variable verifyTypedData :
  TypedDomain.t → list (string * list (string * string)) → SignIn.t →
  string → option string.

(** The message that is verified, rebuilt from the stored challenge. *)
Definition signIn_domain (challenge : NonceChallenge.t) : TypedDomain.t :=
  {| TypedDomain.name := "EVM RealTimeChat";
     TypedDomain.version := SIWE_VERSION;
     TypedDomain.chainId := NonceChallenge.chainId challenge |}.

Definition signIn_message (nonce : string) (challenge : NonceChallenge.t) : SignIn.t :=
  {| SignIn.domain := NonceChallenge.domain challenge;
     SignIn.address := NonceChallenge.address challenge;
     SignIn.statement := SIWE_STATEMENT;
     SignIn.uri := NonceChallenge.uri challenge;
     SignIn.version := SIWE_VERSION;
     SignIn.chainId := NonceChallenge.chainId challenge;
     SignIn.nonce := nonce;
     SignIn.issuedAt := NonceChallenge.issuedAt challenge;
     SignIn.expirationTime := NonceChallenge.expirationTime challenge |}.

(** [authPayload.typedData?.message?.nonce] *)
Definition auth_nonce (authPayload : Auth.t) : option string :=
  match Auth.typedData authPayload with
  | None => None
  | Some typedData =>
      match Auth.message typedData with
      | None => None
      | Some message => Auth.nonce message
      end
  end.

Definition close (socket_id : string) (st : State)
  : State * outcome * list effect :=
  (st, Closed, [SocketDisconnect socket_id]).

(** [io.on('connection', ...)]; [now] is [new Date().toISOString()]. *)
Definition connection (socket_id : string) (authPayload : Auth.t)
    (now : string) (st : State) : State * outcome * list effect :=
  let addressRaw := Auth.address authPayload in
  let signature := Auth.signature authPayload in
  let nonce := auth_nonce authPayload in
  if negb (JS.truthy addressRaw) || negb (JS.truthy signature)
     || negb (JS.truthy nonce)
  then close socket_id st
  else
  match addressRaw, signature, nonce with
  | Some addressRaw, Some signature, Some nonce =>
    match getAddress addressRaw with
    | None => close socket_id st
    | Some checksummed =>
      let address := JS.toLowerCase checksummed in
      match nonceChallenges st !! nonce with
      | None => close socket_id st
      | Some challenge =>
        if NonceChallenge.consumed challenge then close socket_id st
        else if JS.str_le (NonceChallenge.expirationTime challenge) now
        then close socket_id
               {| nonceChallenges := delete nonce (nonceChallenges st);
                  addressToSockets := addressToSockets st |}
        else if negb (String.eqb (NonceChallenge.address challenge) address)
        then close socket_id st
        else
        match verifyTypedData (signIn_domain challenge) TYPE_DATA_TYPES
                (signIn_message nonce challenge) signature with
        | None => close socket_id st
        | Some recovered =>
          let recoveredAddress := JS.toLowerCase recovered in
          if negb (String.eqb recoveredAddress address)
          then close socket_id st
          else
            let nonceChallenges :=
              <[nonce := NonceChallenge.consume challenge]> (nonceChallenges st) in
            let '(addressToSockets, online) :=
              Presence.register socket_id address (addressToSockets st) in
            ({| nonceChallenges := nonceChallenges;
                addressToSockets := addressToSockets |},
             Authenticated address,
             (online ++ [SocketEmit socket_id "presence:snapshot"
                           (Presence.snapshot addressToSockets)])%list)
        end
      end
    end
  | _, _, _ => close socket_id st
  end.

(** [socket.on('dm:send', ({ to, body }) => ...)] of a socket
    authenticated as [address]; [now] is [Date.now()].  The event is one of
    a well-typed client: [to] and [body] are strings of ASCII characters or
    absent.  [Events.auth_dm_send] is the handler on any event. *)
Definition dm_send (socket_id address : string) (to body : option string)
    (now : Z) (st : State) : list effect :=
  let from := address in
  if negb (JS.truthy to) || negb (JS.truthy body) then []
  else
  match to, body with
  | Some to, Some body =>
    let msg := PMsg {| Wire.from := from; Wire.to := to;
                       Wire.body := body; Wire.ts := now |} in
    let recipientSockets := addressToSockets st !! JS.toLowerCase to in
    (match recipientSockets with
     | Some recipientSockets =>
         (λ id, IoToEmit id "dm:message" msg) <$> elements recipientSockets
     | None => []
     end
     ++ [SocketEmit socket_id "dm:message" msg])%list
  | _, _ => []
  end.

(** [socket.on('disconnect', ...)] of a socket authenticated as [address]. *)
Definition disconnect (socket_id address : string) (st : State)
  : State * list effect :=
  match Presence.deregister socket_id address (addressToSockets st) with
  | None => (st, [])
  | Some (addressToSockets, effects) =>
      ({| nonceChallenges := nonceChallenges st;
          addressToSockets := addressToSockets |}, effects)
  end.

(** *** The server as a machine

    [installed] maps the id of every socket whose handlers are installed to
    the [address] those handlers captured; events of other sockets reach no
    handler. *)

Record System := {
  server : State;
  installed : gmap string string
}.

Definition boot : System := {| server := initial; installed := ∅ |}.

Inductive input :=
| NonceRequest (nonce address : string) (chainId : Z)
    (domain uri issuedAt expirationTime : string)
| Connect (socket_id : string) (authPayload : Auth.t) (now : string)
| DmSend (socket_id : string) (to body : option string) (now : Z)
| Disconnect (socket_id : string).

Definition step (sys : System) (i : input) : System * list effect :=
  match i with
  | NonceRequest nonce address chainId domain uri issuedAt expirationTime =>
      ({| server := issue nonce address chainId domain uri issuedAt
                      expirationTime (server sys);
          installed := installed sys |}, [])
  | Connect socket_id authPayload now =>
      let '(st, out, effects) := connection socket_id authPayload now (server sys) in
      ({| server := st;
          installed := match out with
                       | Authenticated address =>
                           <[socket_id := address]> (installed sys)
                       | Closed => installed sys
                       end |}, effects)
  | DmSend socket_id to body now =>
      match installed sys !! socket_id with
      | Some address => (sys, dm_send socket_id address to body now (server sys))
      | None => (sys, [])
      end
  | Disconnect socket_id =>
      match installed sys !! socket_id with
      | Some address =>
          let '(st, effects) := disconnect socket_id address (server sys) in
          ({| server := st; installed := delete socket_id (installed sys) |},
           effects)
      | None => (sys, [])
      end
  end.

Fixpoint run (sys : System) (inputs : list input) : System * list effect :=
  match inputs with
  | [] => (sys, [])
  | i :: inputs =>
      let '(sys, effects) := step sys i in
      let '(sys, effects') := run sys inputs in
      (sys, (effects ++ effects')%list)
  end.

(** Every nonce request in the run draws a nonce that is not in the store at
    that moment, as 16 fresh random bytes do. *)
Fixpoint fresh_nonces (sys : System) (inputs : list input) : bool :=
  match inputs with
  | [] => true
  | i :: inputs =>
      match i with
      | NonceRequest nonce _ _ _ _ _ _ =>
          bool_decide (nonceChallenges (server sys) !! nonce = None)
      | _ => true
      end && fresh_nonces (step sys i).1 inputs
  end.

(** The registry operation an input amounts to, if any. *)
Definition presence_op (sys : System) (i : input) : option Presence.op :=
  match i with
  | Connect socket_id authPayload now =>
      match connection socket_id authPayload now (server sys) with
      | (_, Authenticated address, _) => Some (Presence.Register socket_id address)
      | (_, Closed, _) => None
      end
  | Disconnect socket_id =>
      Presence.Deregister socket_id <$> installed sys !! socket_id
  | _ => None
  end.

Fixpoint presence_trace (sys : System) (inputs : list input) : list Presence.op :=
  match inputs with
  | [] => []
  | i :: inputs =>
      (option_list (presence_op sys i) ++ presence_trace (step sys i).1 inputs)%list
  end.

End Handlers.

End AuthServer.

(** ** The server of [src/index.ts]: presence and chat rooms *)

Module RoomServer.

Record State := {
  addressToSockets : gmap string (gset string);
  chatRoomMembers : gmap string (gset string)
}.

Definition initial : State :=
  {| addressToSockets := ∅; chatRoomMembers := ∅ |}.

Inductive outcome :=
| Closed
| Connected (address : string).

(** [io.on('connection', ...)]: the claimed address is taken as it is.  The
    handshake is one of a well-typed client: [auth.address] is a string of
    ASCII characters or absent.  [Events.room_connection] is the handler on
    any handshake. *)
Definition connection (socket_id : string) (addressRaw : option string)
    (st : State) : State * outcome * list effect :=
  if negb (JS.truthy addressRaw) then (st, Closed, [SocketDisconnect socket_id])
  else
  match addressRaw with
  | None => (st, Closed, [SocketDisconnect socket_id])
  | Some addressRaw =>
      let address := JS.toLowerCase addressRaw in
      let '(addressToSockets, online) :=
        Presence.register socket_id address (addressToSockets st) in
      ({| addressToSockets := addressToSockets;
          chatRoomMembers := chatRoomMembers st |},
       Connected address,
       (online
        ++ [SocketEmit socket_id "presence:snapshot" (Presence.snapshot addressToSockets);
            SocketEmit socket_id "presence:snapshot" (Presence.snapshot addressToSockets)])%list)
  end.

(** [socket.on('dm:send', ...)], on the event of a well-typed client;
    [Events.room_dm_send] is the handler on any event. *)
Definition dm_send (socket_id address : string) (to body : option string)
    (now : Z) (st : State) : list effect :=
  if negb (JS.truthy to) || negb (JS.truthy body) then []
  else
  match to, body with
  | Some to, Some body =>
    let from := address in
    let msg := PMsg {| Wire.from := from; Wire.to := to;
                       Wire.body := body; Wire.ts := now |} in
    let recipientSockets := addressToSockets st !! JS.toLowerCase to in
    (match recipientSockets with
     | Some recipientSockets =>
         (λ socketId, IoToEmit socketId "dm:receive" msg) <$> elements recipientSockets
     | None => []
     end
     ++ [SocketEmit socket_id "dm:sent" msg])%list
  | _, _ => []
  end.

(** [socket.on('join_chat', ...)] *)
Definition join_chat (socket_id address chatId : string) (st : State)
  : State * list effect :=
  let members := default ∅ (chatRoomMembers st !! chatId) in
  let before := size members in
  let members := {[address]} ∪ members in
  ({| addressToSockets := addressToSockets st;
      chatRoomMembers := <[chatId := members]> (chatRoomMembers st) |},
   (SocketJoin socket_id chatId ::
    if decide (before < 2 ∧ 2 ≤ size members)%nat
    then [ConsoleLog "CHAT ACTIVE:" (chatId :: elements members)]
    else [])%list).

(** [leaveChat(socket, chatId)], with [address = socket.data.address]. *)
Definition leaveChat (socket_id address chatId : string) (st : State)
  : State * list effect :=
  match chatRoomMembers st !! chatId with
  | None => (st, [SocketLeave socket_id chatId])
  | Some members =>
      let members := members ∖ {[address]} in
      if decide (size members < 2)
      then ({| addressToSockets := addressToSockets st;
               chatRoomMembers := delete chatId (chatRoomMembers st) |},
            [SocketLeave socket_id chatId; ConsoleLog "CHAT INACTIVE:" [chatId]])
      else ({| addressToSockets := addressToSockets st;
               chatRoomMembers := <[chatId := members]> (chatRoomMembers st) |},
            [SocketLeave socket_id chatId])
  end.

(** One turn of the loop over [chatRoomMembers] in the [disconnect] handler:
    what becomes of a room's entry, [None] when it is deleted. *)
Definition sweep_members (address : string) (members : gset string)
  : option (gset string) :=
  if decide (address ∈ members)
  then let members := members ∖ {[address]} in
       if decide (size members < 2) then None else Some members
  else Some members.

(** [socket.on('disconnect', ...)]: the presence part, with its early
    [return], then the loop over the rooms, logging each room it deletes. *)
Definition disconnect (socket_id address : string) (st : State)
  : State * list effect :=
  match Presence.deregister socket_id address (addressToSockets st) with
  | None => (st, [])
  | Some (addressToSockets, offline) =>
      let deleted :=
        filter (λ room, sweep_members address room.2 = None) (chatRoomMembers st) in
      ({| addressToSockets := addressToSockets;
          chatRoomMembers := omap (sweep_members address) (chatRoomMembers st) |},
       offline
       ++ ((λ chatId, ConsoleLog "CHAT INACTIVE:" [chatId])
             <$> (map_to_list deleted).*1))
  end.

Record System := {
  server : State;
  installed : gmap string string
}.

Definition boot : System := {| server := initial; installed := ∅ |}.

Inductive input :=
| Connect (socket_id : string) (addressRaw : option string)
| DmSend (socket_id : string) (to body : option string) (now : Z)
| JoinChat (socket_id chatId : string)
| LeaveChat (socket_id chatId : string)
| Disconnect (socket_id : string).

Definition step (sys : System) (i : input) : System * list effect :=
  match i with
  | Connect socket_id addressRaw =>
      let '(st, out, effects) := connection socket_id addressRaw (server sys) in
      ({| server := st;
          installed := match out with
                       | Connected address => <[socket_id := address]> (installed sys)
                       | Closed => installed sys
                       end |}, effects)
  | DmSend socket_id to body now =>
      match installed sys !! socket_id with
      | Some address => (sys, dm_send socket_id address to body now (server sys))
      | None => (sys, [])
      end
  | JoinChat socket_id chatId =>
      match installed sys !! socket_id with
      | Some address =>
          let '(st, effects) := join_chat socket_id address chatId (server sys) in
          ({| server := st; installed := installed sys |}, effects)
      | None => (sys, [])
      end
  | LeaveChat socket_id chatId =>
      match installed sys !! socket_id with
      | Some address =>
          let '(st, effects) := leaveChat socket_id address chatId (server sys) in
          ({| server := st; installed := installed sys |}, effects)
      | None => (sys, [])
      end
  | Disconnect socket_id =>
      match installed sys !! socket_id with
      | Some address =>
          let '(st, effects) := disconnect socket_id address (server sys) in
          ({| server := st; installed := delete socket_id (installed sys) |},
           effects)
      | None => (sys, [])
      end
  end.

Fixpoint run (sys : System) (inputs : list input) : System * list effect :=
  match inputs with
  | [] => (sys, [])
  | i :: inputs =>
      let '(sys, effects) := step sys i in
      let '(sys, effects') := run sys inputs in
      (sys, (effects ++ effects')%list)
  end.

(** Is the effect the room-active log line for [chatId]? *)
Definition is_chat_active (chatId : string) (e : effect) : bool :=
  match e with
  | ConsoleLog tag (c :: _) =>
      bool_decide (tag = "CHAT ACTIVE:") && bool_decide (c = chatId)
  | _ => false
  end.

Definition active_count (chatId : string) := Wire.count (is_chat_active chatId).

(** Successive [join_chat]s of one room by the given (socket, address) pairs. *)
Fixpoint joins (chatId : string) (who : list (string * string)) (st : State)
  : State * list effect :=
  match who with
  | [] => (st, [])
  | (socket_id, address) :: who =>
      let '(st, effects) := join_chat socket_id address chatId st in
      let '(st, effects') := joins chatId who st in
      (st, (effects ++ effects')%list)
  end.

End RoomServer.

(** ** Stand-ins for the two ethers calls, for running the handlers

    [getAddress] accepts what starts with [0x]; a signature is the nonce it
    was made over, a slash, and the signer, and [verifyTypedData] recovers
    the signer when the nonce is the message's and throws otherwise. *)

Module Fixture.

Definition getAddress (s : string) : option string :=
  if String.prefix "0x" s then Some s else None.

Fixpoint strip_prefix (p s : string) : option string :=
  match p, s with
  | EmptyString, _ => Some s
  | String a p', String b s' => if Ascii.eqb a b then strip_prefix p' s' else None
  | String _ _, EmptyString => None
  end.

Definition verifyTypedData (domain : AuthServer.TypedDomain.t)
    (types : list (string * list (string * string)))
    (message : AuthServer.SignIn.t) (signature : string) : option string :=
  strip_prefix (String.append (AuthServer.SignIn.nonce message) "/") signature.

Definition auth (address signature nonce : string) : AuthServer.Auth.t :=
  {| AuthServer.Auth.address := Some address;
     AuthServer.Auth.signature := Some signature;
     AuthServer.Auth.typedData :=
       Some {| AuthServer.Auth.domain := None;
               AuthServer.Auth.message :=
                 Some {| AuthServer.Auth.nonce := Some nonce;
                         AuthServer.Auth.chainId := None;
                         AuthServer.Auth.issuedAt := None;
                         AuthServer.Auth.expirationTime := None |} |} |}.

(** The same three values with every other typedData field set, and set to
    something the server never issued. *)
Definition auth_other (address signature nonce : string) : AuthServer.Auth.t :=
  {| AuthServer.Auth.address := Some address;
     AuthServer.Auth.signature := Some signature;
     AuthServer.Auth.typedData :=
       Some {| AuthServer.Auth.domain :=
                 Some {| AuthServer.Auth.name := Some "Another App";
                         AuthServer.Auth.version := Some "2";
                         AuthServer.Auth.domain_chainId := Some 5%Z |};
               AuthServer.Auth.message :=
                 Some {| AuthServer.Auth.nonce := Some nonce;
                         AuthServer.Auth.chainId := Some 5%Z;
                         AuthServer.Auth.issuedAt := Some "1970-01-01T00:00:00.000Z";
                         AuthServer.Auth.expirationTime :=
                           Some "9999-12-31T23:59:59.999Z" |} |} |}.

Definition connection := AuthServer.connection getAddress verifyTypedData.
Definition step := AuthServer.step getAddress verifyTypedData.
Definition run := AuthServer.run getAddress verifyTypedData.

(** A pending challenge for [0xa11ce] under nonce [n1]. *)
Definition issued : AuthServer.State :=
  AuthServer.issue "n1" "0xa11ce" 1 "localhost" "http://localhost:5173"
    "2026-01-01T00:00:00.000Z" "2026-01-01T00:05:00.000Z" AuthServer.initial.

Definition issued_sys : AuthServer.System :=
  {| AuthServer.server := issued; AuthServer.installed := ∅ |}.

(** The same server after [0xa11ce] has authenticated on socket [s1]. *)
Definition signed_in : AuthServer.System :=
  (step issued_sys
     (AuthServer.Connect "s1" (auth "0xA11CE" "n1/0xA11ce" "n1")
        "2026-01-01T00:01:00.000Z")).1.

(** The challenge stored under [n1]. *)
Definition pending : AuthServer.NonceChallenge.t :=
  {| AuthServer.NonceChallenge.address := "0xa11ce";
     AuthServer.NonceChallenge.chainId := 1;
     AuthServer.NonceChallenge.domain := "localhost";
     AuthServer.NonceChallenge.uri := "http://localhost:5173";
     AuthServer.NonceChallenge.issuedAt := "2026-01-01T00:00:00.000Z";
     AuthServer.NonceChallenge.expirationTime := "2026-01-01T00:05:00.000Z";
     AuthServer.NonceChallenge.consumed := false |}.

(** The handshake of [0xA11CE] with a signature of its own over [n1]. *)
Definition alice : AuthServer.Auth.t := auth "0xA11CE" "n1/0xA11ce" "n1".

(** The room server with [0xa] connected from two sockets and [0xb], [0xc]
    from one each, all three identities in the room [room]. *)
Definition two_devices : RoomServer.System :=
  (RoomServer.run RoomServer.boot
     [RoomServer.Connect "s1" (Some "0xA"); RoomServer.Connect "s2" (Some "0xa");
      RoomServer.Connect "s3" (Some "0xb"); RoomServer.Connect "s4" (Some "0xc");
      RoomServer.JoinChat "s1" "room"; RoomServer.JoinChat "s3" "room";
      RoomServer.JoinChat "s4" "room"]).1.

(** A room with the single member [0xa]. *)
Definition lone_room : RoomServer.State :=
  (RoomServer.join_chat "s1" "0xa" "room" RoomServer.initial).1.

(** Presence maps in which [0xb0b] has three sockets. *)
Definition three_sockets : gmap string (gset string) :=
  {[ "0xb0b" := {[ "s2"; "s3"; "s4" ]} ]}.

Definition auth_three : AuthServer.State :=
  {| AuthServer.nonceChallenges := ∅; AuthServer.addressToSockets := three_sockets |}.

Definition room_three : RoomServer.State :=
  {| RoomServer.addressToSockets := three_sockets;
     RoomServer.chatRoomMembers := ∅ |}.

End Fixture.

(** ** The nonce endpoint of the authenticating server

  The request listener passed to [createServer].  A request is what the
  listener reads of it: the method, the [host] and [origin] headers, and the
  path and the two search parameters of [requestUrl] as [URL] parsed them. *)

Module NonceEndpoint.

Definition ALLOWED_ORIGINS : list string :=
  ["http://localhost:5173"; "https://evm-realtimechat-server.onrender.com"].

Definition NONCE_TTL_MS : Z := 5 * 60 * 1000.

Record Request := {
  method : option string;       (* req.method *)
  host : option string;         (* req.headers.host *)
  origin : option string;       (* req.headers.origin *)
  pathname : string;            (* requestUrl.pathname *)
  address : option string;      (* requestUrl.searchParams.get('address') *)
  chainId : option string       (* requestUrl.searchParams.get('chainId') *)
}.

(** What is passed to [res.end]. *)
Inductive body :=
| Empty                                          (* res.end() *)
| Text (text : string)                           (* res.end('Not Found') *)
| Error (error : string)                         (* JSON.stringify({ error }) *)
| TypedData (domain : AuthServer.TypedDomain.t)  (* JSON.stringify({ typedData }) *)
    (types : list (string * list (string * string)))
    (primaryType : string) (message : AuthServer.SignIn.t).

Record Response := {
  statusCode : Z;
  headers : list (string * string);
  content : body
}.

Definition json : list (string * string) := [("Content-Type", "application/json")].

(** The headers set when [origin && ALLOWED_ORIGINS.includes(origin)]. *)
Definition cors (origin : option string) : list (string * string) :=
  match origin with
  | Some o =>
      if JS.truthy origin && bool_decide (o ∈ ALLOWED_ORIGINS)
      then [("Access-Control-Allow-Origin", o);
            ("Access-Control-Allow-Credentials", "true")]
      else []
  | None => []
  end.

Section Listener.

(** [ethers.getAddress]; [Number(s)] when [Number.isInteger] holds of it;
    [new Date(t).toISOString()]; the [hostname] and [origin] of [new URL(s)].
    [None] is a thrown exception, and of [toInteger] a number that is not an
    integer. *)
Variable getAddress : string → option string.
Variable toInteger : string → option Z.
Variable toISOString : Z → string.
Variable parseURL : string → option (string * string).

(** The listener; [now] is [Date.now()], [nonce] is
    [randomBytes(16).toString('hex')].  [None]: [new URL] threw and nothing
    caught it. *)
Definition handle (req : Request) (now : Z) (nonce : string)
    (st : AuthServer.State) : option (AuthServer.State * Response) :=
  let method := default "GET" (method req) in
  let host := default "localhost:10000" (host req) in
  let origin := origin req in
  let allowed := cors origin in
  if String.eqb method "OPTIONS"
  then Some (st, {| statusCode := 204;
                    headers := allowed
                      ++ [("Access-Control-Allow-Headers", "Content-Type");
                          ("Access-Control-Allow-Methods", "GET,OPTIONS")];
                    content := Empty |})
  else if String.eqb method "GET" && String.eqb (pathname req) "/auth/nonce"
  then
    let addressRaw := address req in
    let chainIdRaw := chainId req in
    if negb (JS.truthy addressRaw) || negb (JS.truthy chainIdRaw)
    then Some (st, {| statusCode := 400; headers := allowed ++ json;
                      content := Error "address and chainId are required" |})
    else
    match addressRaw, chainIdRaw with
    | Some addressRaw, Some chainIdRaw =>
      match toInteger chainIdRaw with
      | None => Some (st, {| statusCode := 400; headers := allowed ++ json;
                             content := Error "Invalid chainId" |})
      | Some chainId =>
        if (chainId <=? 0)%Z
        then Some (st, {| statusCode := 400; headers := allowed ++ json;
                          content := Error "Invalid chainId" |})
        else
        match getAddress addressRaw with
        | None => Some (st, {| statusCode := 400; headers := allowed ++ json;
                               content := Error "Invalid address" |})
        | Some checksummed =>
          let address := JS.toLowerCase checksummed in
          let issuedAt := toISOString now in
          let expirationTime := toISOString (now + NONCE_TTL_MS) in
          match parseURL (match origin with
                          | Some o => if JS.truthy origin then o
                                      else String.append "http://" host
                          | None => String.append "http://" host
                          end) with
          | None => None
          | Some (hostname, uri) =>
            let domain := hostname in
            Some (AuthServer.issue nonce address chainId domain uri issuedAt
                    expirationTime st,
                  {| statusCode := 200; headers := allowed ++ json;
                     content :=
                       TypedData
                         {| AuthServer.TypedDomain.name := "EVM RealTimeChat";
                            AuthServer.TypedDomain.version := AuthServer.SIWE_VERSION;
                            AuthServer.TypedDomain.chainId := chainId |}
                         AuthServer.TYPE_DATA_TYPES
                         "SignIn"
                         {| AuthServer.SignIn.domain := domain;
                            AuthServer.SignIn.address := address;
                            AuthServer.SignIn.statement := AuthServer.SIWE_STATEMENT;
                            AuthServer.SignIn.uri := uri;
                            AuthServer.SignIn.version := AuthServer.SIWE_VERSION;
                            AuthServer.SignIn.chainId := chainId;
                            AuthServer.SignIn.nonce := nonce;
                            AuthServer.SignIn.issuedAt := issuedAt;
                            AuthServer.SignIn.expirationTime := expirationTime |} |})
          end
        end
      end
    | _, _ => Some (st, {| statusCode := 400; headers := allowed ++ json;
                           content := Error "address and chainId are required" |})
    end
  else Some (st, {| statusCode := 404; headers := allowed;
                    content := Text "Not Found" |}).

End Listener.

End NonceEndpoint.

(** ** Sockets with handlers installed against the presence map *)

Module Sockets.

(** The sockets on which handlers are installed, after an operation. *)
Definition installed_after (o : option Presence.op) (installed : gmap string string)
  : gmap string string :=
  match o with
  | Some (Presence.Register socket_id address) => <[socket_id := address]> installed
  | Some (Presence.Deregister socket_id _) => delete socket_id installed
  | None => installed
  end.

(** Every socket with handlers is in the set of its address. *)
Definition registered (installed : gmap string string)
    (addressToSockets : gmap string (gset string)) : Prop :=
  ∀ socket_id address,
    installed !! socket_id = Some address →
    socket_id ∈ Presence.connections address addressToSockets.

(** Every socket in a set has handlers installed, for that address. *)
Definition no_ghost (installed : gmap string string)
    (addressToSockets : gmap string (gset string)) : Prop :=
  ∀ socket_id address,
    socket_id ∈ Presence.connections address addressToSockets →
    installed !! socket_id = Some address.

(** Every address that handlers captured is in lowercase. *)
Definition canonical (installed : gmap string string) : Prop :=
  ∀ socket_id address,
    installed !! socket_id = Some address → JS.toLowerCase address = address.

End Sockets.

(** ** What holds of the chat rooms *)

Module Rooms.

(** No room is kept without a member. *)
Definition populated (chatRoomMembers : gmap string (gset string)) : Prop :=
  ∀ chatId members, chatRoomMembers !! chatId = Some members → members ≠ ∅.

(** Every member of a room is an address the presence map tracks. *)
Definition members_online (chatRoomMembers addressToSockets : gmap string (gset string))
  : Prop :=
  ∀ chatId members address,
    chatRoomMembers !! chatId = Some members → address ∈ members →
    Presence.online address addressToSockets.

End Rooms.

(** ** Runs in which the transport hands out unused socket ids *)

Module AuthRuns.

Section Runs.

Variable getAddress : string → option string.
Variable verifyTypedData :
  AuthServer.TypedDomain.t → list (string * list (string * string)) →
  AuthServer.SignIn.t → string → option string.

(** Every connection of the run arrives on a socket id that has no handlers
    installed at that moment. *)
Fixpoint fresh_sockets (sys : AuthServer.System) (inputs : list AuthServer.input)
  : bool :=
  match inputs with
  | [] => true
  | i :: inputs =>
      match i with
      | AuthServer.Connect socket_id _ _ =>
          bool_decide (AuthServer.installed sys !! socket_id = None)
      | _ => true
      end
      && fresh_sockets (AuthServer.step getAddress verifyTypedData sys i).1 inputs
  end.

End Runs.

(** Does the input draw [nonce] for a new challenge? *)
Definition draws (nonce : string) (i : AuthServer.input) : bool :=
  match i with
  | AuthServer.NonceRequest n _ _ _ _ _ _ => bool_decide (n = nonce)
  | _ => false
  end.

End AuthRuns.

Module RoomRuns.

Fixpoint fresh_sockets (sys : RoomServer.System) (inputs : list RoomServer.input)
  : bool :=
  match inputs with
  | [] => true
  | i :: inputs =>
      match i with
      | RoomServer.Connect socket_id _ =>
          bool_decide (RoomServer.installed sys !! socket_id = None)
      | _ => true
      end
      && fresh_sockets (RoomServer.step sys i).1 inputs
  end.

(** The registry operation an input of the room server amounts to, if any. *)
Definition presence_op (sys : RoomServer.System) (i : RoomServer.input)
  : option Presence.op :=
  match i with
  | RoomServer.Connect socket_id addressRaw =>
      match RoomServer.connection socket_id addressRaw (RoomServer.server sys) with
      | (_, RoomServer.Connected address, _) =>
          Some (Presence.Register socket_id address)
      | (_, RoomServer.Closed, _) => None
      end
  | RoomServer.Disconnect socket_id =>
      Presence.Deregister socket_id <$> RoomServer.installed sys !! socket_id
  | _ => None
  end.

(** Is the effect the room-inactive log line for [chatId]? *)
Definition is_chat_inactive (chatId : string) (e : effect) : bool :=
  match e with
  | ConsoleLog tag [c] =>
      bool_decide (tag = "CHAT INACTIVE:") && bool_decide (c = chatId)
  | _ => false
  end.

Definition inactive_count (chatId : string) := Wire.count (is_chat_inactive chatId).

(** The addresses a snapshot payload lists. *)
Definition listed (p : payload) : list string :=
  match p with
  | PUsers users => users.*1
  | _ => []
  end.

End RoomRuns.

(** ** Stand-ins for the nonce endpoint's library calls, and a run of it *)

Module Scenario.

Fixpoint decimal (s : string) (acc : Z) : option Z :=
  match s with
  | EmptyString => Some acc
  | String c s' =>
      let n := nat_of_ascii c in
      if (48 <=? n)%nat && (n <=? 57)%nat
      then decimal s' (10 * acc + Z.of_nat (n - 48))
      else None
  end.

(** Decimal digits only. *)
Definition toInteger (s : string) : option Z :=
  match s with
  | EmptyString => None
  | _ => decimal s 0
  end.

(** The two instants the run below needs. *)
Definition toISOString (t : Z) : string :=
  if (t =? 1767225600000)%Z then "2026-01-01T00:00:00.000Z"
  else if (t =? 1767225900000)%Z then "2026-01-01T00:05:00.000Z"
  else "1970-01-01T00:00:00.000Z".

Definition parseURL (s : string) : option (string * string) :=
  if String.eqb s "http://localhost:5173"
  then Some ("localhost", "http://localhost:5173")
  else if String.eqb s "http://localhost:10000"
  then Some ("localhost", "http://localhost:10000")
  else None.

Definition handle :=
  NonceEndpoint.handle Fixture.getAddress toInteger toISOString parseURL.

(** GET /auth/nonce?address=0xA11CE&chainId=1 from the local front end. *)
Definition request : NonceEndpoint.Request :=
  {| NonceEndpoint.method := Some "GET";
     NonceEndpoint.host := Some "localhost:10000";
     NonceEndpoint.origin := Some "http://localhost:5173";
     NonceEndpoint.pathname := "/auth/nonce";
     NonceEndpoint.address := Some "0xA11CE";
     NonceEndpoint.chainId := Some "1" |}.

(** The same request from a page of another site. *)
Definition foreign_request : NonceEndpoint.Request :=
  {| NonceEndpoint.method := Some "GET";
     NonceEndpoint.host := Some "localhost:10000";
     NonceEndpoint.origin := Some "http://localhost:10000";
     NonceEndpoint.pathname := "/auth/nonce";
     NonceEndpoint.address := Some "0xA11CE";
     NonceEndpoint.chainId := Some "1" |}.

(** The answer to [request] at the first instant with the nonce [n1]. *)
Definition response : NonceEndpoint.Response :=
  {| NonceEndpoint.statusCode := 200;
     NonceEndpoint.headers :=
       [("Access-Control-Allow-Origin", "http://localhost:5173");
        ("Access-Control-Allow-Credentials", "true");
        ("Content-Type", "application/json")];
     NonceEndpoint.content :=
       NonceEndpoint.TypedData
         (AuthServer.signIn_domain Fixture.pending)
         AuthServer.TYPE_DATA_TYPES "SignIn"
         (AuthServer.signIn_message "n1" Fixture.pending) |}.

(** The same request with an origin that does not parse as a URL. *)
Definition garbled_request : NonceEndpoint.Request :=
  {| NonceEndpoint.method := Some "GET";
     NonceEndpoint.host := Some "localhost:10000";
     NonceEndpoint.origin := Some "not a url";
     NonceEndpoint.pathname := "/auth/nonce";
     NonceEndpoint.address := Some "0xA11CE";
     NonceEndpoint.chainId := Some "1" |}.

(** [0xa11ce] authenticates on two sockets of the authenticating server. *)
Definition two_sockets : list AuthServer.input :=
  [AuthServer.NonceRequest "n1" "0xa11ce" 1 "localhost" "http://localhost:5173"
     "2026-01-01T00:00:00.000Z" "2026-01-01T00:05:00.000Z";
   AuthServer.NonceRequest "n2" "0xa11ce" 1 "localhost" "http://localhost:5173"
     "2026-01-01T00:00:00.000Z" "2026-01-01T00:05:00.000Z";
   AuthServer.Connect "s1" Fixture.alice "2026-01-01T00:01:00.000Z";
   AuthServer.Connect "s2" (Fixture.auth "0xa11ce" "n2/0xA11CE" "n2")
     "2026-01-01T00:02:00.000Z"].

(** Two sockets of [0xa11ce] come and go on the authenticating server. *)
Definition auth_inputs : list AuthServer.input :=
  [AuthServer.NonceRequest "n1" "0xa11ce" 1 "localhost" "http://localhost:5173"
     "2026-01-01T00:00:00.000Z" "2026-01-01T00:05:00.000Z";
   AuthServer.NonceRequest "n2" "0xa11ce" 1 "localhost" "http://localhost:5173"
     "2026-01-01T00:00:00.000Z" "2026-01-01T00:05:00.000Z";
   AuthServer.Connect "s1" Fixture.alice "2026-01-01T00:01:00.000Z";
   AuthServer.Connect "s2" (Fixture.auth "0xa11ce" "n2/0xA11CE" "n2")
     "2026-01-01T00:02:00.000Z";
   AuthServer.Disconnect "s1"].

(** Two identities meet in a room of the room server; one has two sockets. *)
Definition room_inputs : list RoomServer.input :=
  [RoomServer.Connect "s1" (Some "0xA"); RoomServer.Connect "s2" (Some "0xa");
   RoomServer.Connect "s3" (Some "0xB");
   RoomServer.JoinChat "s1" "room"; RoomServer.JoinChat "s3" "room";
   RoomServer.JoinChat "s3" "lobby"].

Definition room_sys : RoomServer.System :=
  (RoomServer.run RoomServer.boot room_inputs).1.

End Scenario.

(** ** Events as they arrive: any value

  The handshake's [auth.address] and the argument of [dm:send] are whatever
  the client sent: nothing validates them.  The handlers above are these
  handlers on the values a well-typed client sends (strings, or nothing);
  here they are on every value socket.io can hand to a handler, with the
  [TypeError]s JavaScript raises on the others, and lowercasing is
  [String.prototype.toLowerCase] itself, a parameter.  A handler that throws
  has emitted nothing and written nothing; what the runtime does with the
  exception is not modelled. *)

Module Json.

Inductive value :=
| Undefined                                 (* absent *)
| Null
| Bool (b : bool)
| Num (n : float)
| Str (s : string)
| Arr (items : list value)
| Obj (fields : list (string * value))    (* own properties; of two of a name, the first *)
| Bin (bytes : list Byte.byte)              (* a Buffer, from a binary attachment *)
| Ack.                                      (* the acknowledgement function *)

(** [!!v]: [undefined], [null], [false], [0], [-0], [NaN] and the empty
    string are falsy, everything else is truthy. *)
Definition truthy (v : value) : bool :=
  match v with
  | Undefined | Null => false
  | Bool b => b
  | Num n => negb (PrimFloat.is_zero n || PrimFloat.is_nan n)
  | Str s => negb (String.eqb s "")
  | Arr _ | Obj _ | Bin _ | Ack => true
  end.

(** The own property [name] of a parsed object, [undefined] when it has none. *)
Fixpoint own (name : string) (fields : list (string * value)) : value :=
  match fields with
  | [] => Undefined
  | (key, v) :: fields => if String.eqb key name then v else own name fields
  end.

(** [v.to] and [v.body], as the destructuring [({ to, body })] reads them:
    a [TypeError] ([None]) on [undefined] and [null], the own property of an
    object, and [undefined] on a primitive, an array, a Buffer or a function,
    which have no property of these names. *)
Definition property (name : string) (v : value) : option value :=
  match v with
  | Undefined | Null => None
  | Obj fields => Some (own name fields)
  | Bool _ | Num _ | Str _ | Arr _ | Bin _ | Ack => Some Undefined
  end.

(** The event a typed client sends: [{ to, body }] with string fields, a
    field left out when there is nothing to put in it. *)
Definition field (name : string) (x : option string) : list (string * value) :=
  match x with
  | Some s => [(name, Str s)]
  | None => []
  end.

Definition of_option (x : option string) : value :=
  match x with
  | Some s => Str s
  | None => Undefined
  end.

End Json.

Module Events.

(** [{ from, to, body, ts }] with the fields as they came. *)
Record Message := {
  from : string;
  to : Json.value;
  body : Json.value;
  ts : Z
}.

Inductive emission :=
| IoTo (id : string) (ev : string) (msg : Message)               (* io.to(id).emit(ev, msg) *)
| ToSender (socket_id : string) (ev : string) (msg : Message).   (* socket.emit(ev, msg) *)

(** The emission as an effect of a typed handler, when both fields of the
    message are strings. *)
Definition typed (e : emission) : option effect :=
  match e with
  | IoTo id ev {| from := from; to := Json.Str to; body := Json.Str body; ts := ts |} =>
      Some (IoToEmit id ev
              (PMsg {| Wire.from := from; Wire.to := to;
                       Wire.body := body; Wire.ts := ts |}))
  | ToSender socket_id ev
      {| from := from; to := Json.Str to; body := Json.Str body; ts := ts |} =>
      Some (SocketEmit socket_id ev
              (PMsg {| Wire.from := from; Wire.to := to;
                       Wire.body := body; Wire.ts := ts |}))
  | _ => None
  end.

Section Handlers.

(** [String.prototype.toLowerCase], on any string. *)
Variable toLowerCase : string → string.

(** [socket.on('dm:send', ({ to, body }) => ...)] of the authenticating
    server.  [None]: the handler threw, at the destructuring or at
    [to.toLowerCase()], before it emitted anything. *)
Definition auth_dm_send (socket_id address : string) (payload : Json.value)
    (now : Z) (st : AuthServer.State) : option (list emission) :=
  match Json.property "to" payload, Json.property "body" payload with
  | Some to, Some body =>
    let from := address in
    if negb (Json.truthy to) || negb (Json.truthy body) then Some []
    else
    let msg := {| from := from; to := to; body := body; ts := now |} in
    match to with
    | Json.Str to =>
      let recipientSockets := AuthServer.addressToSockets st !! toLowerCase to in
      Some (match recipientSockets with
            | Some recipientSockets =>
                (λ id, IoTo id "dm:message" msg) <$> elements recipientSockets
            | None => []
            end
            ++ [ToSender socket_id "dm:message" msg])
    | _ => None
    end
  | _, _ => None
  end.

(** [socket.on('dm:send', ({ to, body }) => ...)] of the room server. *)
Definition room_dm_send (socket_id address : string) (payload : Json.value)
    (now : Z) (st : RoomServer.State) : option (list emission) :=
  match Json.property "to" payload, Json.property "body" payload with
  | Some to, Some body =>
    if negb (Json.truthy to) || negb (Json.truthy body) then Some []
    else
    let from := address in
    let msg := {| from := from; to := to; body := body; ts := now |} in
    match to with
    | Json.Str to =>
      let recipientSockets := RoomServer.addressToSockets st !! toLowerCase to in
      Some (match recipientSockets with
            | Some recipientSockets =>
                (λ socketId, IoTo socketId "dm:receive" msg) <$> elements recipientSockets
            | None => []
            end
            ++ [ToSender socket_id "dm:sent" msg])
    | _ => None
    end
  | _, _ => None
  end.

(** A [dm:send] of any payload on the two machines: it reaches the handler
    of a socket whose handlers are installed, and no handler otherwise; the
    handler reads the presence map and writes nothing.  [None]: the handler
    threw. *)
Definition auth_dm_event (socket_id : string) (payload : Json.value) (now : Z)
    (sys : AuthServer.System) : option (AuthServer.System * list emission) :=
  match AuthServer.installed sys !! socket_id with
  | Some address =>
      match auth_dm_send socket_id address payload now (AuthServer.server sys) with
      | Some emissions => Some (sys, emissions)
      | None => None
      end
  | None => Some (sys, [])
  end.

Definition room_dm_event (socket_id : string) (payload : Json.value) (now : Z)
    (sys : RoomServer.System) : option (RoomServer.System * list emission) :=
  match RoomServer.installed sys !! socket_id with
  | Some address =>
      match room_dm_send socket_id address payload now (RoomServer.server sys) with
      | Some emissions => Some (sys, emissions)
      | None => None
      end
  | None => Some (sys, [])
  end.

(** [io.on('connection', ...)] of the room server on any
    [socket.handshake.auth.address].  [None]: [addressRaw.toLowerCase()]
    threw, before anything was registered or sent. *)
Definition room_connection (socket_id : string) (addressRaw : Json.value)
    (st : RoomServer.State)
  : option (RoomServer.State * RoomServer.outcome * list effect) :=
  if negb (Json.truthy addressRaw)
  then Some (st, RoomServer.Closed, [SocketDisconnect socket_id])
  else
  match addressRaw with
  | Json.Str addressRaw =>
      let address := toLowerCase addressRaw in
      let '(addressToSockets, online) :=
        Presence.register socket_id address (RoomServer.addressToSockets st) in
      Some ({| RoomServer.addressToSockets := addressToSockets;
               RoomServer.chatRoomMembers := RoomServer.chatRoomMembers st |},
            RoomServer.Connected address,
            online
            ++ [SocketEmit socket_id "presence:snapshot"
                  (Presence.snapshot addressToSockets);
                SocketEmit socket_id "presence:snapshot"
                  (Presence.snapshot addressToSockets)])
  | _ => None
  end.

End Handlers.

End Events.

(** * Properties *)

(** ** JavaScript truthiness *)

Lemma truthy_Some (x : option string) :
  JS.truthy x = true ↔ ∃ s, x = Some s ∧ s ≠ "".
Proof.
  destruct x as [s|]; simpl.
  - rewrite negb_true_iff, String.eqb_neq. split.
    + intros Hs. exists s. by split.
    + intros (s' & [= <-] & Hs). exact Hs.
  - split; [intros [=] | intros (s & [=] & _)].
Qed.

Lemma truthy_false (x : option string) :
  JS.truthy x = false ↔ x = None ∨ x = Some "".
Proof.
  destruct x as [s|]; simpl.
  - rewrite negb_false_iff, String.eqb_eq. split.
    + intros ->. by right.
    + intros [[=] | [= ->]]. done.
  - split; [by left | done].
Qed.

Lemma count_app p es1 es2 :
  Wire.count p (es1 ++ es2) = Wire.count p es1 + Wire.count p es2.
Proof. unfold Wire.count. by rewrite List.filter_app, length_app. Qed.

Lemma count_zero p es :
  (∀ e, e ∈ es → p e = false) → Wire.count p es = 0.
Proof.
  unfold Wire.count. induction es as [|e es IH]; intros H; [done|].
  simpl. rewrite (H e) by apply list_elem_of_here.
  apply IH. intros e' He'. apply H. by apply list_elem_of_further.
Qed.

(** ** The [connection] handler of the authenticating server, case by case *)

Section AuthFacts.

Variable getAddress : string → option string.
Variable verifyTypedData :
  AuthServer.TypedDomain.t → list (string * list (string * string)) →
  AuthServer.SignIn.t → string → option string.

Import AuthServer.

Abbreviation connection := (AuthServer.connection getAddress verifyTypedData).

(** Everything the handler checked when it authenticates a socket, and what
    it then did. *)
Lemma connection_authenticated socket_id authPayload now st st' address effects :
  connection socket_id authPayload now st = (st', Authenticated address, effects) →
  ∃ addressRaw signature nonce checksummed challenge recovered,
    Auth.address authPayload = Some addressRaw ∧
    Auth.signature authPayload = Some signature ∧
    auth_nonce authPayload = Some nonce ∧
    getAddress addressRaw = Some checksummed ∧
    address = JS.toLowerCase checksummed ∧
    nonceChallenges st !! nonce = Some challenge ∧
    NonceChallenge.consumed challenge = false ∧
    JS.str_le (NonceChallenge.expirationTime challenge) now = false ∧
    NonceChallenge.address challenge = address ∧
    verifyTypedData (signIn_domain challenge) TYPE_DATA_TYPES
      (signIn_message nonce challenge) signature = Some recovered ∧
    JS.toLowerCase recovered = address ∧
    st' = {| nonceChallenges :=
               <[nonce := NonceChallenge.consume challenge]> (nonceChallenges st);
             addressToSockets :=
               (Presence.register socket_id address (addressToSockets st)).1 |} ∧
    effects =
      (Presence.register socket_id address (addressToSockets st)).2
      ++ [SocketEmit socket_id "presence:snapshot"
            (Presence.snapshot
               (Presence.register socket_id address (addressToSockets st)).1)].
Proof.
  unfold AuthServer.connection, close. intros H.
  destruct (Auth.address authPayload) as [addressRaw|] eqn:Ha;
    destruct (Auth.signature authPayload) as [signature|] eqn:Hs;
    destruct (auth_nonce authPayload) as [nonce|] eqn:Hn;
    try (by repeat case_match; simplify_eq).
  destruct (negb _ || _ || _); [by simplify_eq|].
  destruct (getAddress addressRaw) as [checksummed|] eqn:Hg; [|by simplify_eq].
  destruct (nonceChallenges st !! nonce) as [challenge|] eqn:Hc; [|by simplify_eq].
  destruct (NonceChallenge.consumed challenge) eqn:Hcons; [by simplify_eq|].
  destruct (JS.str_le _ now) eqn:Hexp; [by simplify_eq|].
  destruct (String.eqb (NonceChallenge.address challenge) _) eqn:Hbound;
    simpl in H; [|by simplify_eq].
  destruct (verifyTypedData _ _ _ signature) as [recovered|] eqn:Hv; [|by simplify_eq].
  destruct (String.eqb (JS.toLowerCase recovered) _) eqn:Hrec;
    simpl in H; [|by simplify_eq].
  destruct (Presence.register _ _ _) as [m online] eqn:Hreg.
  apply String.eqb_eq in Hbound, Hrec.
  simplify_eq.
  exists addressRaw, signature, nonce, checksummed, challenge, recovered.
  rewrite Hreg. by split_and!.
Qed.

(** A rejected attempt only disconnects the socket; the one thing it may do
    to the state is drop the challenge it found expired. *)
Lemma connection_closed socket_id authPayload now st st' effects :
  connection socket_id authPayload now st = (st', Closed, effects) →
  effects = [SocketDisconnect socket_id] ∧
  addressToSockets st' = addressToSockets st ∧
  (st' = st ∨
   ∃ nonce challenge,
     auth_nonce authPayload = Some nonce ∧
     nonceChallenges st !! nonce = Some challenge ∧
     NonceChallenge.consumed challenge = false ∧
     JS.str_le (NonceChallenge.expirationTime challenge) now = true ∧
     nonceChallenges st' = delete nonce (nonceChallenges st)).
Proof.
  unfold AuthServer.connection, close. intros H.
  destruct (Auth.address authPayload) as [addressRaw|] eqn:Ha;
    destruct (Auth.signature authPayload) as [signature|] eqn:Hs;
    destruct (auth_nonce authPayload) as [nonce|] eqn:Hn;
    try (repeat case_match; simplify_eq; by auto).
  destruct (negb _ || _ || _); [simplify_eq; by auto|].
  destruct (getAddress addressRaw) as [checksummed|] eqn:Hg; [|simplify_eq; by auto].
  destruct (nonceChallenges st !! nonce) as [challenge|] eqn:Hc; [|simplify_eq; by auto].
  destruct (NonceChallenge.consumed challenge) eqn:Hcons; [simplify_eq; by auto|].
  destruct (JS.str_le _ now) eqn:Hexp.
  { simplify_eq. split_and!; [done..|]. right. by exists nonce, challenge. }
  destruct (negb (String.eqb (NonceChallenge.address challenge) _));
    [simplify_eq; by auto|].
  destruct (verifyTypedData _ _ _ signature) as [recovered|]; [|simplify_eq; by auto].
  destruct (negb (String.eqb (JS.toLowerCase recovered) _)); [simplify_eq; by auto|].
  destruct (Presence.register _ _ _). by simplify_eq.
Qed.

Lemma connection_outcome socket_id authPayload now st :
  ∃ st' out effects, connection socket_id authPayload now st = (st', out, effects).
Proof. destruct (connection _ _ _ _) as [[st' out] effects]. eauto. Qed.

End AuthFacts.

(** ** The presence registry on its own *)

Section PresenceFacts.

Implicit Types (m : gmap string (gset string)) (o : Presence.op).

Lemma register_map socket_id address m :
  (Presence.register socket_id address m).1
  = <[address := {[socket_id]} ∪ Presence.connections address m]> m.
Proof.
  unfold Presence.register, Presence.connections.
  destruct (m !! address) as [sockets|]; simpl; [done|].
  by rewrite insert_insert_eq.
Qed.

Lemma register_effects socket_id address m :
  (Presence.register socket_id address m).2
  = if decide (m !! address = None)
    then [ConsoleLog "USER ONLINE:" [address];
          BroadcastEmit socket_id "presence:online" (PAddress address)]
    else [].
Proof.
  unfold Presence.register.
  destruct (m !! address) as [sockets|]; simpl; by repeat case_decide.
Qed.

Lemma deregister_unknown socket_id address m :
  m !! address = None → Presence.deregister socket_id address m = None.
Proof. unfold Presence.deregister. by intros ->. Qed.

Lemma deregister_known socket_id address m sockets :
  m !! address = Some sockets →
  Presence.deregister socket_id address m
  = if decide (sockets ∖ {[socket_id]} = ∅)
    then Some (delete address m,
               [ConsoleLog "USER OFFLINE:" [address];
                IoEmit "presence:offline" (PAddress address)])
    else Some (<[address := sockets ∖ {[socket_id]}]> m, []).
Proof.
  unfold Presence.deregister. intros ->.
  destruct (decide (size _ = 0)) as [Hs|Hs]; case_decide as He; try done.
  - by rewrite delete_insert_eq.
  - apply size_empty_inv in Hs. by apply leibniz_equiv in Hs.
  - rewrite He in Hs. by rewrite size_empty in Hs.
Qed.

Lemma connections_empty address m :
  Presence.no_empty_entry m →
  (Presence.connections address m = ∅ ↔ m !! address = None).
Proof.
  unfold Presence.connections. intros Hm.
  destruct (m !! address) as [sockets|] eqn:H; simpl; [|done].
  split; [|done]. intros ->. by destruct (Hm _ _ H).
Qed.

Lemma online_iff_connected address m :
  Presence.no_empty_entry m →
  (Presence.online address m ↔ Presence.connections address m ≠ ∅).
Proof.
  intros Hm. rewrite (connections_empty _ _ Hm). unfold Presence.online.
  symmetry. apply not_eq_None_Some.
Qed.

Lemma online_count_app address es1 es2 :
  online_count address (es1 ++ es2)
  = online_count address es1 + online_count address es2.
Proof. apply count_app. Qed.

Lemma offline_count_app address es1 es2 :
  offline_count address (es1 ++ es2)
  = offline_count address es1 + offline_count address es2.
Proof. apply count_app. Qed.

(** What one registry operation does to the entry of any address, and which
    presence broadcasts about that address it fires. *)
Lemma apply_entry o m address :
  (Presence.apply o m).1 !! address
  = if decide (Presence.subject o = address)
    then match o with
         | Presence.Register socket_id _ =>
             Some ({[socket_id]} ∪ Presence.connections address m)
         | Presence.Deregister socket_id _ =>
             match m !! address with
             | None => None
             | Some sockets =>
                 if decide (sockets ∖ {[socket_id]} = ∅) then None
                 else Some (sockets ∖ {[socket_id]})
             end
         end
    else m !! address.
Proof.
  destruct o as [socket_id a|socket_id a]; simpl.
  - rewrite register_map. case_decide as Ha.
    + subst. by rewrite lookup_insert_eq.
    + by rewrite lookup_insert_ne.
  - destruct (m !! a) as [sockets|] eqn:Hm.
    + rewrite (deregister_known _ _ _ _ Hm).
      destruct (decide (a = address)) as [<-|Hne].
      * rewrite Hm. case_decide; simpl;
          by rewrite ?lookup_delete_eq, ?lookup_insert_eq.
      * case_decide; simpl; by rewrite ?lookup_delete_ne, ?lookup_insert_ne.
    + rewrite (deregister_unknown _ _ _ Hm). simpl.
      destruct (decide (a = address)) as [<-|Hne]; [by rewrite Hm|done].
Qed.

Lemma apply_online_count o m address :
  online_count address (Presence.apply o m).2
  = if decide (Presence.subject o = address ∧ Presence.is_register o = true
               ∧ m !! address = None) then 1 else 0.
Proof.
  destruct o as [socket_id a|socket_id a]; simpl.
  - rewrite register_effects.
    destruct (decide (m !! a = None)) as [Ha|Ha].
    + unfold online_count, Wire.count; simpl.
      destruct (decide (a = address)) as [->|Hne].
      * rewrite bool_decide_eq_true_2 by done. simpl.
        rewrite decide_True; done.
      * rewrite bool_decide_eq_false_2 by done. simpl.
        rewrite decide_False; [done|]. by intros (? & _).
    + rewrite decide_False; [done|]. intros (<- & _ & ?). done.
  - rewrite decide_False by (by intros (_ & ? & _)).
    unfold Presence.deregister.
    destruct (m !! a); [|done]. by case_decide.
Qed.

Lemma apply_offline_count o m address :
  offline_count address (Presence.apply o m).2
  = match o with
    | Presence.Register _ _ => 0
    | Presence.Deregister socket_id a =>
        match m !! a with
        | None => 0
        | Some sockets =>
            if decide (a = address ∧ sockets ∖ {[socket_id]} = ∅) then 1 else 0
        end
    end.
Proof.
  destruct o as [socket_id a|socket_id a]; simpl.
  - rewrite register_effects. by case_decide.
  - destruct (m !! a) as [sockets|] eqn:Hm.
    + rewrite (deregister_known _ _ _ _ Hm).
      destruct (decide (sockets ∖ {[socket_id]} = ∅)) as [He|He]; simpl.
      * unfold offline_count, Wire.count; simpl.
        destruct (decide (a = address)) as [->|Hne].
        -- rewrite bool_decide_eq_true_2 by done. simpl. by rewrite decide_True.
        -- rewrite bool_decide_eq_false_2 by done. simpl.
           rewrite decide_False; [done|]. by intros (? & _).
      * rewrite decide_False; [done|]. by intros (_ & ?).
    + by rewrite (deregister_unknown _ _ _ Hm).
Qed.

Lemma apply_no_empty_entry o m :
  Presence.no_empty_entry m → Presence.no_empty_entry (Presence.apply o m).1.
Proof.
  intros Hm address sockets. rewrite apply_entry.
  case_decide; [|by apply Hm].
  destruct o as [socket_id a|socket_id a].
  - intros [= <-]. set_solver.
  - destruct (m !! address); [|done]. case_decide; congruence.
Qed.

(** A presence broadcast fires exactly on the transitions between no
    connection and some connection. *)
Lemma apply_transition o m address :
  Presence.no_empty_entry m →
  let before := Presence.connections address m in
  let after := Presence.connections address (Presence.apply o m).1 in
  online_count address (Presence.apply o m).2
    = (if decide (before = ∅ ∧ after ≠ ∅) then 1 else 0) ∧
  offline_count address (Presence.apply o m).2
    = (if decide (before ≠ ∅ ∧ after = ∅) then 1 else 0) ∧
  (after = ∅ → (Presence.apply o m).1 !! address = None).
Proof.
  intros Hm before after.
  assert (Hafter : after = ∅ ↔ (Presence.apply o m).1 !! address = None).
  { apply connections_empty. by apply apply_no_empty_entry. }
  assert (Hbefore : before = ∅ ↔ m !! address = None).
  { by apply connections_empty. }
  rewrite apply_online_count, apply_offline_count.
  split_and!; [| |apply Hafter].
  - apply decide_ext. rewrite Hbefore, Hafter, apply_entry.
    destruct o as [socket_id a|socket_id a]; simpl.
    + split.
      * intros (-> & _ & Hnone). split; [done|]. by rewrite decide_True.
      * intros [Hnone Hsome]. case_decide as Ha; [done|]. by destruct Hsome.
    + split; [by intros (_ & ? & _)|].
      intros [Hnone Hsome]. rewrite Hnone in Hsome. by case_decide.
  - destruct o as [socket_id a|socket_id a]; simpl.
    + rewrite decide_False; [done|]. intros [Hb Ha].
      apply Hafter in Ha. rewrite apply_entry in Ha. simpl in Ha.
      case_decide; [done|]. by apply Hb, Hbefore.
    + destruct (m !! a) as [sockets|] eqn:Ha.
      * apply decide_ext. split.
        -- intros [-> He]. split; [by rewrite Hbefore, Ha|].
           apply Hafter. rewrite apply_entry. simpl.
           by rewrite decide_True, Ha, decide_True.
        -- intros [Hb Hgone]. apply Hafter in Hgone.
           rewrite apply_entry in Hgone. simpl in Hgone.
           destruct (decide (a = address)) as [<-|Hne].
           ++ rewrite Ha in Hgone. by case_decide.
           ++ destruct Hb. by apply Hbefore.
      * rewrite decide_False; [done|]. intros [Hb Hgone].
        apply Hafter in Hgone. rewrite apply_entry in Hgone. simpl in Hgone.
        destruct (decide (a = address)) as [<-|Hne]; by apply Hb, Hbefore.
Qed.

(** An operation leaves every other identity's entry alone and fires nothing
    about it; what it does to its own subject depends on that entry only. *)
Lemma apply_frame o m address :
  Presence.subject o ≠ address →
  (Presence.apply o m).1 !! address = m !! address ∧
  online_count address (Presence.apply o m).2 = 0 ∧
  offline_count address (Presence.apply o m).2 = 0.
Proof.
  intros Hne. rewrite apply_entry, apply_online_count, apply_offline_count.
  rewrite !decide_False; [|by intros (? & _)|done].
  split_and!; [done..|].
  destruct o as [socket_id a|socket_id a]; [done|]. simpl in Hne.
  destruct (m !! a); [|done]. rewrite decide_False; [done|]. by intros (? & _).
Qed.

Lemma apply_local o m1 m2 :
  m1 !! Presence.subject o = m2 !! Presence.subject o →
  (Presence.apply o m1).1 !! Presence.subject o
    = (Presence.apply o m2).1 !! Presence.subject o ∧
  (Presence.apply o m1).2 = (Presence.apply o m2).2.
Proof.
  intros H. split.
  - rewrite !apply_entry. unfold Presence.connections. by rewrite H.
  - destruct o as [socket_id a|socket_id a]; simpl in *.
    + rewrite !register_effects. by rewrite H.
    + unfold Presence.deregister. rewrite H.
      destruct (m2 !! a); [|done]. by case_decide.
Qed.

Lemma presence_run_cons o ops m :
  Presence.run (o :: ops) m
  = ((Presence.run ops (Presence.apply o m).1).1,
     (Presence.apply o m).2 ++ (Presence.run ops (Presence.apply o m).1).2).
Proof.
  simpl. destruct (Presence.apply o m) as [m1 e1]. simpl.
  by destruct (Presence.run ops m1).
Qed.

Lemma presence_run_app ops1 ops2 m :
  Presence.run (ops1 ++ ops2) m
  = ((Presence.run ops2 (Presence.run ops1 m).1).1,
     (Presence.run ops1 m).2 ++ (Presence.run ops2 (Presence.run ops1 m).1).2).
Proof.
  revert m. induction ops1 as [|o ops1 IH]; intros m.
  - simpl. by destruct (Presence.run ops2 m).
  - rewrite <- app_comm_cons, !presence_run_cons, IH. simpl.
    by rewrite app_assoc.
Qed.

Lemma presence_run_no_empty_entry ops m :
  Presence.no_empty_entry m → Presence.no_empty_entry (Presence.run ops m).1.
Proof.
  revert m. induction ops as [|o ops IH]; intros m Hm; [done|].
  rewrite presence_run_cons. simpl. by apply IH, apply_no_empty_entry.
Qed.

(** The broadcasts about one identity, and its entry, are those of the run
    restricted to that identity's own operations. *)
Lemma presence_run_independent address ops m1 m2 :
  m1 !! address = m2 !! address →
  let all := Presence.run ops m1 in
  let own := Presence.run (List.filter (Presence.about address) ops) m2 in
  all.1 !! address = own.1 !! address ∧
  online_count address all.2 = online_count address own.2 ∧
  offline_count address all.2 = offline_count address own.2.
Proof.
  revert m1 m2. induction ops as [|o ops IH]; intros m1 m2 H; [done|].
  simpl List.filter. unfold Presence.about at 1. case_bool_decide as Ho.
  - rewrite !presence_run_cons. cbn [fst snd].
    subst address. destruct (apply_local o m1 m2 H) as [Hentry Heff].
    destruct (IH _ _ Hentry) as (IH1 & IH2 & IH3).
    rewrite !online_count_app, !offline_count_app, Heff, IH2, IH3. done.
  - rewrite presence_run_cons. cbn [fst snd].
    destruct (apply_frame o m1 address Ho) as (Hentry & Hon & Hoff).
    destruct (IH (Presence.apply o m1).1 m2) as (IH1 & IH2 & IH3);
      [by rewrite Hentry|].
    rewrite online_count_app, offline_count_app, Hon, Hoff, IH2, IH3. done.
Qed.

(** Registering socket after socket for an identity that was offline
    broadcasts its arrival once. *)
Lemma registrations_online_once address sockets m :
  m !! address = None → sockets ≠ [] →
  let r := Presence.run ((λ s, Presence.Register s address) <$> sockets) m in
  online_count address r.2 = 1 ∧ offline_count address r.2 = 0 ∧
  r.1 !! address = Some (list_to_set sockets).
Proof.
  intros Hm Hne.
  assert (Hmore : ∀ sockets m present, m !! address = Some present →
    let r := Presence.run ((λ s, Presence.Register s address) <$> sockets) m in
    online_count address r.2 = 0 ∧ offline_count address r.2 = 0 ∧
    r.1 !! address = Some (list_to_set sockets ∪ present)).
  { clear. induction sockets as [|s sockets IH]; intros m present Hm.
    - simpl. split_and!; [done..|]. rewrite Hm. f_equal.
      by rewrite (left_id_L ∅ (∪)).
    - rewrite fmap_cons, presence_run_cons. cbn [fst snd].
      set (o := Presence.Register s address).
      assert (Ho : (Presence.apply o m).1 !! address = Some ({[s]} ∪ present)).
      { rewrite apply_entry. simpl. rewrite decide_True by done.
        unfold Presence.connections. by rewrite Hm. }
      destruct (IH _ _ Ho) as (IH1 & IH2 & IH3).
      rewrite online_count_app, offline_count_app, IH1, IH2, IH3.
      rewrite apply_online_count, apply_offline_count. simpl.
      rewrite decide_False; [|intros (_ & _ & ?); congruence].
      split_and!; [done..|]. f_equal.
      set_solver. }
  destruct sockets as [|s sockets]; [done|].
  rewrite fmap_cons, presence_run_cons. cbn [fst snd].
  set (o := Presence.Register s address).
  assert (Ho : (Presence.apply o m).1 !! address = Some {[s]}).
  { rewrite apply_entry. simpl. rewrite decide_True by done.
    unfold Presence.connections. rewrite Hm. simpl. f_equal.
    by rewrite (right_id_L ∅ (∪)). }
  destruct (Hmore sockets _ _ Ho) as (H1 & H2 & H3).
  rewrite online_count_app, offline_count_app, H1, H2, H3.
  rewrite apply_online_count, apply_offline_count. simpl.
  rewrite decide_True by done.
  split_and!; [done..|]. f_equal. set_solver.
Qed.

End PresenceFacts.

(** ** Authentication *)

Section AuthClaims.

Variable getAddress : string → option string.
Variable verifyTypedData :
  AuthServer.TypedDomain.t → list (string * list (string * string)) →
  AuthServer.SignIn.t → string → option string.

Import AuthServer.

Abbreviation connection := (AuthServer.connection getAddress verifyTypedData).
Abbreviation step := (AuthServer.step getAddress verifyTypedData).
Abbreviation run := (AuthServer.run getAddress verifyTypedData).
Abbreviation fresh_nonces := (AuthServer.fresh_nonces getAddress verifyTypedData).
Abbreviation presence_op := (AuthServer.presence_op getAddress verifyTypedData).
Abbreviation presence_trace := (AuthServer.presence_trace getAddress verifyTypedData).

(** C1: a connection is authenticated only if the address recovered from the
    signature over the message rebuilt from the stored challenge, lowercased,
    equals both the lowercased claimed address and the address the challenge
    is bound to; when recovery throws or the recovered address differs from
    either, the socket is disconnected, and a disconnected socket leaves the
    presence map as it was. *)
Theorem connection_authenticates_only_the_signer
    socket_id authPayload now st st' out effects :
  connection socket_id authPayload now st = (st', out, effects) →
  (∀ address, out = Authenticated address →
     ∃ addressRaw signature nonce checksummed challenge recovered,
       Auth.address authPayload = Some addressRaw ∧
       Auth.signature authPayload = Some signature ∧
       auth_nonce authPayload = Some nonce ∧
       getAddress addressRaw = Some checksummed ∧
       nonceChallenges st !! nonce = Some challenge ∧
       verifyTypedData (signIn_domain challenge) TYPE_DATA_TYPES
         (signIn_message nonce challenge) signature = Some recovered ∧
       JS.toLowerCase recovered = JS.toLowerCase checksummed ∧
       JS.toLowerCase recovered = NonceChallenge.address challenge ∧
       address = JS.toLowerCase recovered) ∧
  (∀ addressRaw signature nonce checksummed challenge,
     Auth.address authPayload = Some addressRaw →
     Auth.signature authPayload = Some signature →
     auth_nonce authPayload = Some nonce →
     getAddress addressRaw = Some checksummed →
     nonceChallenges st !! nonce = Some challenge →
     match verifyTypedData (signIn_domain challenge) TYPE_DATA_TYPES
             (signIn_message nonce challenge) signature with
     | None => True
     | Some recovered =>
         JS.toLowerCase recovered ≠ JS.toLowerCase checksummed ∨
         JS.toLowerCase recovered ≠ NonceChallenge.address challenge
     end →
     out = Closed) ∧
  (out = Closed →
     effects = [SocketDisconnect socket_id] ∧
     addressToSockets st' = addressToSockets st).
Proof.
  intros H. split_and!.
  - intros address ->.
    destruct (connection_authenticated _ _ _ _ _ _ _ _ _ H)
      as (addressRaw & signature & nonce & checksummed & challenge & recovered
          & ? & ? & ? & ? & ? & ? & ? & ? & ? & ? & ? & ? & ?).
    exists addressRaw, signature, nonce, checksummed, challenge, recovered.
    split_and!; congruence.
  - intros addressRaw signature nonce checksummed challenge Ha Hs Hn Hg Hc Hbad.
    destruct out as [|address]; [done|]. exfalso.
    destruct (connection_authenticated _ _ _ _ _ _ _ _ _ H)
      as (addressRaw' & signature' & nonce' & checksummed' & challenge' & recovered
          & ? & ? & ? & ? & ? & ? & ? & ? & ? & Hv & ? & ? & ?).
    simplify_eq. rewrite Hv in Hbad. destruct Hbad as [Hbad|Hbad]; congruence.
  - intros ->. destruct (connection_closed _ _ _ _ _ _ _ _ H) as (? & ? & _). done.
Qed.

(** C5: an attempt that ends in a disconnect marks nothing consumed: every
    challenge in the store afterwards was there before, unchanged, and the
    store itself is unchanged unless the presented challenge was found expired
    and dropped.  A consumed flag changes only on an attempt that
    authenticates, whose signature was verified. *)
Theorem failed_attempt_consumes_nothing
    socket_id authPayload now st st' out effects :
  connection socket_id authPayload now st = (st', out, effects) →
  (out = Closed →
     (∀ nonce challenge, nonceChallenges st' !! nonce = Some challenge →
        nonceChallenges st !! nonce = Some challenge) ∧
     (st' = st ∨
      ∃ nonce challenge,
        auth_nonce authPayload = Some nonce ∧
        nonceChallenges st !! nonce = Some challenge ∧
        JS.str_le (NonceChallenge.expirationTime challenge) now = true ∧
        nonceChallenges st' = delete nonce (nonceChallenges st))) ∧
  (∀ nonce challenge challenge',
     nonceChallenges st !! nonce = Some challenge →
     nonceChallenges st' !! nonce = Some challenge' →
     NonceChallenge.consumed challenge' ≠ NonceChallenge.consumed challenge →
     ∃ signature recovered,
       Auth.signature authPayload = Some signature ∧
       auth_nonce authPayload = Some nonce ∧
       verifyTypedData (signIn_domain challenge) TYPE_DATA_TYPES
         (signIn_message nonce challenge) signature = Some recovered ∧
       out = Authenticated (JS.toLowerCase recovered) ∧
       challenge' = NonceChallenge.consume challenge).
Proof.
  intros H.
  assert (Hclosed : out = Closed →
     (∀ nonce challenge, nonceChallenges st' !! nonce = Some challenge →
        nonceChallenges st !! nonce = Some challenge) ∧
     (st' = st ∨
      ∃ nonce challenge,
        auth_nonce authPayload = Some nonce ∧
        nonceChallenges st !! nonce = Some challenge ∧
        JS.str_le (NonceChallenge.expirationTime challenge) now = true ∧
        nonceChallenges st' = delete nonce (nonceChallenges st))).
  { intros ->.
    destruct (connection_closed _ _ _ _ _ _ _ _ H) as (_ & _ & [->|Hdel]).
    - split; [done|by left].
    - destruct Hdel as (nonce & challenge & Hn & Hc & _ & Hexp & Hst).
      split; [|right; by exists nonce, challenge].
      intros n c. rewrite Hst. intros Hl.
      by apply lookup_delete_Some in Hl as [_ ?]. }
  split; [done|].
  intros nonce challenge challenge' Hc Hc' Hflag.
  destruct out as [|address].
  - destruct (Hclosed eq_refl) as [Hsame _].
    apply Hsame in Hc'. congruence.
  - destruct (connection_authenticated _ _ _ _ _ _ _ _ _ H)
      as (addressRaw & signature & nonce' & checksummed & challenge0 & recovered
          & ? & ? & ? & ? & ? & Hc0 & ? & ? & ? & Hv & ? & -> & ?).
    simpl in Hc'. destruct (decide (nonce' = nonce)) as [->|Hne].
    + rewrite lookup_insert_eq in Hc'. simplify_eq.
      exists signature, recovered. split_and!; congruence.
    + rewrite lookup_insert_ne in Hc' by done. congruence.
Qed.

(** C6: the handler reads nothing of the handshake but the address, the
    signature and the nonce, so two attempts that agree on these three end
    the same way whatever else their typedData says; and the verifier is only
    ever asked about the domain and message rebuilt from a stored challenge,
    its nonce and the server's constants. *)
Theorem client_typedData_does_not_matter
    socket_id now st authPayload1 authPayload2 :
  Auth.address authPayload1 = Auth.address authPayload2 →
  Auth.signature authPayload1 = Auth.signature authPayload2 →
  auth_nonce authPayload1 = auth_nonce authPayload2 →
  connection socket_id authPayload1 now st
    = connection socket_id authPayload2 now st ∧
  (∀ verify',
     (∀ nonce challenge signature,
        auth_nonce authPayload1 = Some nonce →
        Auth.signature authPayload1 = Some signature →
        nonceChallenges st !! nonce = Some challenge →
        verify'
          {| TypedDomain.name := "EVM RealTimeChat";
             TypedDomain.version := SIWE_VERSION;
             TypedDomain.chainId := NonceChallenge.chainId challenge |}
          TYPE_DATA_TYPES
          {| SignIn.domain := NonceChallenge.domain challenge;
             SignIn.address := NonceChallenge.address challenge;
             SignIn.statement := SIWE_STATEMENT;
             SignIn.uri := NonceChallenge.uri challenge;
             SignIn.version := SIWE_VERSION;
             SignIn.chainId := NonceChallenge.chainId challenge;
             SignIn.nonce := nonce;
             SignIn.issuedAt := NonceChallenge.issuedAt challenge;
             SignIn.expirationTime := NonceChallenge.expirationTime challenge |}
          signature
        = verifyTypedData (signIn_domain challenge) TYPE_DATA_TYPES
            (signIn_message nonce challenge) signature) →
     AuthServer.connection getAddress verify' socket_id authPayload1 now st
       = connection socket_id authPayload1 now st).
Proof.
  intros Ha Hs Hn. split.
  - unfold AuthServer.connection. by rewrite Ha, Hs, Hn.
  - intros verify' Hsame. unfold AuthServer.connection.
    destruct (Auth.address authPayload1) as [addressRaw|]; [|done].
    destruct (Auth.signature authPayload1) as [signature|]; [|done].
    destruct (auth_nonce authPayload1) as [nonce|]; [|done].
    destruct (negb _ || _ || _); [done|].
    destruct (getAddress addressRaw) as [checksummed|]; [|done].
    destruct (nonceChallenges st !! nonce) as [challenge|] eqn:Hc; [|done].
    destruct (NonceChallenge.consumed challenge); [done|].
    destruct (JS.str_le _ now); [done|].
    destruct (negb (String.eqb (NonceChallenge.address challenge) _)); [done|].
    unfold signIn_domain, signIn_message in *.
    by rewrite (Hsame nonce challenge signature).
Qed.

(** C7: whoever presents the nonce of a stored challenge at or after its
    expirationTime is disconnected and the presence map is left alone; and
    when the attempt is otherwise in order (address, signature and nonce
    given, the address well-formed) and the challenge unconsumed, the handler
    deletes the challenge from the store, whatever the signature. *)
Theorem expired_challenge_is_refused_and_deleted
    socket_id authPayload now st nonce challenge :
  auth_nonce authPayload = Some nonce →
  nonceChallenges st !! nonce = Some challenge →
  JS.str_le (NonceChallenge.expirationTime challenge) now = true →
  (∃ st', connection socket_id authPayload now st
            = (st', Closed, [SocketDisconnect socket_id]) ∧
          addressToSockets st' = addressToSockets st) ∧
  (∀ addressRaw,
     Auth.address authPayload = Some addressRaw → addressRaw ≠ "" →
     JS.truthy (Auth.signature authPayload) = true → nonce ≠ "" →
     is_Some (getAddress addressRaw) →
     NonceChallenge.consumed challenge = false →
     connection socket_id authPayload now st
     = ({| nonceChallenges := delete nonce (nonceChallenges st);
           addressToSockets := addressToSockets st |},
        Closed, [SocketDisconnect socket_id])).
Proof.
  intros Hn Hc Hexp. split.
  - destruct (connection_outcome getAddress verifyTypedData
                socket_id authPayload now st) as (st' & out & effects & H).
    destruct out as [|address].
    + destruct (connection_closed _ _ _ _ _ _ _ _ H) as (-> & ? & _).
      by exists st'.
    + destruct (connection_authenticated _ _ _ _ _ _ _ _ _ H)
        as (? & ? & nonce' & ? & challenge' & ? & ? & ? & ? & ? & ? & ? & ?
            & Hin & _).
      simplify_eq. congruence.
  - intros addressRaw Ha Hra Hs Hnn [checksummed Hg] Hcons.
    unfold AuthServer.connection, close. rewrite Ha, Hn, Hg, Hc, Hcons, Hexp.
    destruct (Auth.signature authPayload) as [signature|]; [|done].
    simpl in *. rewrite Hs.
    apply String.eqb_neq in Hra, Hnn. by rewrite Hra, Hnn.
Qed.

(** *** Runs of the machine *)

Lemma run_cons sys i inputs :
  run sys (i :: inputs)
  = ((run (step sys i).1 inputs).1, (step sys i).2 ++ (run (step sys i).1 inputs).2).
Proof.
  simpl. destruct (step sys i) as [sys1 e1]. simpl.
  by destruct (run sys1 inputs).
Qed.

Lemma connection_consumed_nonce socket_id authPayload now st nonce challenge :
  auth_nonce authPayload = Some nonce →
  nonceChallenges st !! nonce = Some challenge →
  NonceChallenge.consumed challenge = true →
  connection socket_id authPayload now st
  = (st, Closed, [SocketDisconnect socket_id]).
Proof.
  intros Hn Hc Hcons. unfold AuthServer.connection, close.
  rewrite Hn, Hc, Hcons. by repeat case_match.
Qed.

(** A consumed challenge stays in the store, consumed, as long as no nonce
    request redraws its nonce. *)
Lemma step_keeps_consumed sys i nonce :
  (∃ challenge, nonceChallenges (server sys) !! nonce = Some challenge
                ∧ NonceChallenge.consumed challenge = true) →
  fresh_nonces sys [i] = true →
  ∃ challenge, nonceChallenges (server (step sys i).1) !! nonce = Some challenge
               ∧ NonceChallenge.consumed challenge = true.
Proof.
  intros (challenge & Hc & Hcons) Hfresh.
  destruct i as [nonce' address chainId domain uri issuedAt expirationTime
                |socket_id authPayload now|socket_id to body now|socket_id];
    simpl in *.
  - rewrite andb_true_r in Hfresh. apply bool_decide_eq_true in Hfresh.
    exists challenge. rewrite lookup_insert_ne; [done|congruence].
  - destruct (connection socket_id authPayload now (server sys))
      as [[st' out] effects] eqn:H. simpl.
    destruct out as [|address].
    + destruct (connection_closed _ _ _ _ _ _ _ _ H) as (_ & _ & [->|Hdel]).
      * by exists challenge.
      * destruct Hdel as (n & c & _ & Hn & Hpending & _ & ->).
        exists challenge. rewrite lookup_delete_ne; [done|congruence].
    + destruct (connection_authenticated _ _ _ _ _ _ _ _ _ H)
        as (? & ? & n & ? & c & ? & ? & ? & ? & ? & ? & Hn & ? & ? & ? & ? & ?
            & -> & ?).
      simpl. destruct (decide (n = nonce)) as [->|Hne].
      * rewrite lookup_insert_eq. by eexists.
      * rewrite lookup_insert_ne by done. by exists challenge.
  - destruct (installed sys !! socket_id); by exists challenge.
  - destruct (installed sys !! socket_id) as [address|]; [|by exists challenge].
    unfold disconnect.
    destruct (Presence.deregister _ _ _) as [[m e]|]; by exists challenge.
Qed.

Lemma run_keeps_consumed inputs sys nonce :
  (∃ challenge, nonceChallenges (server sys) !! nonce = Some challenge
                ∧ NonceChallenge.consumed challenge = true) →
  fresh_nonces sys inputs = true →
  ∃ challenge, nonceChallenges (server (run sys inputs).1) !! nonce = Some challenge
               ∧ NonceChallenge.consumed challenge = true.
Proof.
  revert sys. induction inputs as [|i inputs IH]; intros sys Hc Hfresh; [done|].
  rewrite run_cons. cbn [fst].
  change (fresh_nonces sys (i :: inputs))
    with (match i with
          | NonceRequest n _ _ _ _ _ _ =>
              bool_decide (nonceChallenges (server sys) !! n = None)
          | _ => true
          end && fresh_nonces (step sys i).1 inputs) in Hfresh.
  apply andb_true_iff in Hfresh as [Hi Hrest].
  apply IH; [|done]. apply step_keeps_consumed; [done|].
  simpl. by rewrite Hi.
Qed.

(** C2: once a connection has authenticated with a nonce, the stored
    challenge is marked consumed, and however the server runs on (nonce
    requests drawing nonces not in the store, connections, messages,
    disconnects), every later attempt that presents the same nonce is
    disconnected at the consumed check, leaving the server as it was. *)
Theorem nonce_redeems_at_most_once
    sys socket_id authPayload now nonce address st1 effects inputs
    socket_id' authPayload' now' :
  auth_nonce authPayload = Some nonce →
  connection socket_id authPayload now (server sys)
    = (st1, Authenticated address, effects) →
  fresh_nonces (step sys (Connect socket_id authPayload now)).1 inputs = true →
  auth_nonce authPayload' = Some nonce →
  let sys2 := (run (step sys (Connect socket_id authPayload now)).1 inputs).1 in
  (∃ challenge, nonceChallenges st1 !! nonce = Some challenge
                ∧ NonceChallenge.consumed challenge = true) ∧
  connection socket_id' authPayload' now' (server sys2)
    = (server sys2, Closed, [SocketDisconnect socket_id']) ∧
  step sys2 (Connect socket_id' authPayload' now')
    = (sys2, [SocketDisconnect socket_id']).
Proof.
  intros Hn H Hfresh Hn' sys2.
  assert (Hc1 : ∃ challenge, nonceChallenges st1 !! nonce = Some challenge
                             ∧ NonceChallenge.consumed challenge = true).
  { destruct (connection_authenticated _ _ _ _ _ _ _ _ _ H)
      as (? & ? & n & ? & c & ? & ? & ? & ? & ? & ? & ? & ? & ? & ? & ? & ?
          & -> & ?).
    simplify_eq. simpl. rewrite lookup_insert_eq. by eexists. }
  assert (Hc2 : ∃ challenge,
             nonceChallenges (server sys2) !! nonce = Some challenge
             ∧ NonceChallenge.consumed challenge = true).
  { apply run_keeps_consumed; [|done]. simpl. by rewrite H. }
  destruct Hc2 as (challenge & Hc & Hcons).
  assert (Hclosed := connection_consumed_nonce socket_id' authPayload' now'
                       _ _ _ Hn' Hc Hcons).
  split_and!; [done..|].
  simpl. rewrite Hclosed. by destruct sys2.
Qed.

(** *** Presence along the runs of the machine *)

Lemma dm_send_no_presence socket_id from to body now st address :
  online_count address (dm_send socket_id from to body now st) = 0 ∧
  offline_count address (dm_send socket_id from to body now st) = 0.
Proof.
  assert (H : ∀ e, e ∈ dm_send socket_id from to body now st →
                   (∃ id ev p, e = IoToEmit id ev p) ∨
                   (∃ id ev p, e = SocketEmit id ev p)).
  { intros e. unfold dm_send. destruct (negb _ || negb _); [by intros ?%elem_of_nil|].
    destruct to as [to|]; [|by intros ?%elem_of_nil].
    destruct body as [body|]; [|by intros ?%elem_of_nil].
    rewrite elem_of_app, list_elem_of_singleton. intros [He| ->]; [|by eauto].
    destruct (addressToSockets st !! _) as [sockets|]; [|by apply elem_of_nil in He].
    apply list_elem_of_fmap in He as (id & -> & _). by eauto. }
  split; apply count_zero; intros e He;
    destruct (H e He) as [(? & ? & ? & ->)|(? & ? & ? & ->)]; done.
Qed.

(** Each input acts on the presence map as the registry operation it amounts
    to, and fires that operation's presence broadcasts and no other. *)
Lemma step_presence sys i :
  let r := Presence.apply_opt (presence_op sys i) (addressToSockets (server sys)) in
  addressToSockets (server (step sys i).1) = r.1 ∧
  ∀ address,
    online_count address (step sys i).2 = online_count address r.2 ∧
    offline_count address (step sys i).2 = offline_count address r.2.
Proof.
  destruct i as [nonce' address chainId domain uri issuedAt expirationTime
                |socket_id authPayload now|socket_id to body now|socket_id];
    simpl.
  - done.
  - destruct (connection socket_id authPayload now (server sys))
      as [[st' out] effects] eqn:H. simpl.
    destruct out as [|address]; simpl.
    + by destruct (connection_closed _ _ _ _ _ _ _ _ H) as (-> & -> & _).
    + destruct (connection_authenticated _ _ _ _ _ _ _ _ _ H)
        as (? & ? & n & ? & c & ? & ? & ? & ? & ? & ? & ? & ? & ? & ? & ? & ?
            & -> & ->).
      split; [done|]. intros a.
      rewrite online_count_app, offline_count_app. simpl.
      unfold online_count, offline_count, Wire.count. simpl. lia.
  - destruct (installed sys !! socket_id) as [address|]; simpl; [|done].
    split; [done|]. intros a. apply dm_send_no_presence.
  - destruct (installed sys !! socket_id) as [address|]; simpl; [|done].
    unfold disconnect.
    by destruct (Presence.deregister _ _ _) as [[m e]|].
Qed.

Lemma run_presence inputs sys :
  let r := Presence.run (presence_trace sys inputs) (addressToSockets (server sys)) in
  addressToSockets (server (run sys inputs).1) = r.1 ∧
  ∀ address,
    online_count address (run sys inputs).2 = online_count address r.2 ∧
    offline_count address (run sys inputs).2 = offline_count address r.2.
Proof.
  revert sys. induction inputs as [|i inputs IH]; intros sys; [done|].
  rewrite run_cons. cbn [fst snd].
  change (presence_trace sys (i :: inputs))
    with (option_list (presence_op sys i) ++ presence_trace (step sys i).1 inputs).
  rewrite presence_run_app. cbn [fst snd].
  destruct (step_presence sys i) as [Hm Hc].
  destruct (IH (step sys i).1) as [IHm IHc].
  assert (Hone : Presence.run (option_list (presence_op sys i))
                   (addressToSockets (server sys))
                 = Presence.apply_opt (presence_op sys i) (addressToSockets (server sys))).
  { destruct (presence_op sys i) as [o|]; [|done]. simpl.
    destruct (Presence.apply o _). simpl. by rewrite app_nil_r. }
  rewrite Hone, <- Hm. split; [done|]. intros address.
  rewrite !online_count_app, !offline_count_app.
  destruct (Hc address) as [-> ->]. destruct (IHc address) as [-> ->]. done.
Qed.

Lemma empty_no_empty_entry : Presence.no_empty_entry ∅.
Proof. intros address sockets. by rewrite lookup_empty. Qed.

End AuthClaims.

(** ** Direct messages *)

(** The values [!v] holds of. *)
Lemma falsy_values v :
  Json.truthy v = false
  ↔ v = Json.Undefined ∨ v = Json.Null ∨ v = Json.Bool false ∨ v = Json.Str ""
    ∨ ∃ n, v = Json.Num n ∧ (PrimFloat.is_zero n || PrimFloat.is_nan n) = true.
Proof.
  split.
  - destruct v as [| |[]|n|s|items|fields|bytes|]; simpl; try done; auto.
    + rewrite negb_false_iff. eauto 10.
    + rewrite negb_false_iff. intros ->%String.eqb_eq. auto.
  - intros [->|[->|[->|[->|(n & -> & Hn)]]]]; simpl; try done. by rewrite Hn.
Qed.

Lemma truthy_of_option x : Json.truthy (Json.of_option x) = JS.truthy x.
Proof. by destruct x. Qed.

(** What the destructuring finds in the event of a typed client. *)
Lemma property_of_fields to body :
  let payload := Json.Obj (Json.field "to" to ++ Json.field "body" body) in
  Json.property "to" payload = Some (Json.of_option to) ∧
  Json.property "body" payload = Some (Json.of_option body).
Proof. by destruct to, body. Qed.

Lemma typed_emissions (f : string → Events.emission) (g : string → effect)
    (last : Events.emission) (last' : effect) (ids : list string) :
  (∀ id, Events.typed (f id) = Some (g id)) →
  Events.typed last = Some last' →
  mapM Events.typed ((f <$> ids) ++ [last]) = Some ((g <$> ids) ++ [last']).
Proof.
  intros Hf Hlast. apply mapM_Some. apply Forall2_app.
  - apply Forall2_fmap. by apply Forall_Forall2_diag, Forall_forall.
  - by constructor.
Qed.

(** The handlers on [to] and [body] that are strings or absent are the
    handlers on any event, at the events of that shape. *)
Lemma auth_dm_send_typed socket_id address (to body : option string) now st :
  mapM Events.typed
    <$> Events.auth_dm_send JS.toLowerCase socket_id address
          (Json.Obj (Json.field "to" to ++ Json.field "body" body)) now st
  = Some (Some (AuthServer.dm_send socket_id address to body now st)).
Proof.
  unfold Events.auth_dm_send, AuthServer.dm_send.
  destruct (property_of_fields to body) as [-> ->].
  rewrite !truthy_of_option.
  destruct (negb (JS.truthy to) || negb (JS.truthy body)) eqn:Hguard; [done|].
  apply orb_false_iff in Hguard as [Hto Hbody].
  rewrite negb_false_iff in Hto, Hbody.
  apply truthy_Some in Hto as (to' & -> & _).
  apply truthy_Some in Hbody as (body' & -> & _).
  simpl. f_equal.
  destruct (AuthServer.addressToSockets st !! JS.toLowerCase to') as [sockets|].
  - by apply typed_emissions.
  - done.
Qed.

Lemma room_dm_send_typed socket_id address (to body : option string) now st :
  mapM Events.typed
    <$> Events.room_dm_send JS.toLowerCase socket_id address
          (Json.Obj (Json.field "to" to ++ Json.field "body" body)) now st
  = Some (Some (RoomServer.dm_send socket_id address to body now st)).
Proof.
  unfold Events.room_dm_send, RoomServer.dm_send.
  destruct (property_of_fields to body) as [-> ->].
  rewrite !truthy_of_option.
  destruct (negb (JS.truthy to) || negb (JS.truthy body)) eqn:Hguard; [done|].
  apply orb_false_iff in Hguard as [Hto Hbody].
  rewrite negb_false_iff in Hto, Hbody.
  apply truthy_Some in Hto as (to' & -> & _).
  apply truthy_Some in Hbody as (body' & -> & _).
  simpl. f_equal.
  destruct (RoomServer.addressToSockets st !! JS.toLowerCase to') as [sockets|].
  - by apply typed_emissions.
  - done.
Qed.

(** C8 (as the handlers have it), for every value a [dm:send] can carry.
    With no payload ([undefined] or [null]) the handler throws at the
    destructuring.  Otherwise [to] and [body] are read off the payload, and
    the event is dropped, with no emission, when either is falsy: missing,
    [null], [false], [0], [NaN] or the empty string.  When both are truthy
    and [to] is not a string the handler throws at [to.toLowerCase()], before
    any emission: no delivery and no echo.  When [to] is a non-empty string
    and [body] is truthy, the message { from: the sender's own address, to,
    body, ts } is emitted once to every socket registered for
    [to.toLowerCase()] (to none when the recipient has no entry) and then
    echoed to the sending socket.  The authenticating server names both
    emissions [dm:message]; the room server names them [dm:receive] and
    [dm:sent].  No [dm:send] that returns changes either server's state, and
    on a [dm:send] of strings the handlers are those of the two machines. *)
Theorem dm_send_relays_to_recipient_and_sender
    (toLowerCase : string → string) socket_id address (payload : Json.value) now :
  (payload = Json.Undefined ∨ payload = Json.Null →
   (∀ st, Events.auth_dm_send toLowerCase socket_id address payload now st = None) ∧
   (∀ st, Events.room_dm_send toLowerCase socket_id address payload now st = None)) ∧
  (payload ≠ Json.Undefined → payload ≠ Json.Null →
   ∃ to body,
     Json.property "to" payload = Some to ∧
     Json.property "body" payload = Some body) ∧
  (∀ to body,
     Json.property "to" payload = Some to →
     Json.property "body" payload = Some body →
     (Json.truthy to = false ∨ Json.truthy body = false →
      (∀ st, Events.auth_dm_send toLowerCase socket_id address payload now st = Some []) ∧
      (∀ st, Events.room_dm_send toLowerCase socket_id address payload now st = Some [])) ∧
     (Json.truthy to = true → Json.truthy body = true →
      (∀ to', to ≠ Json.Str to') →
      (∀ st, Events.auth_dm_send toLowerCase socket_id address payload now st = None) ∧
      (∀ st, Events.room_dm_send toLowerCase socket_id address payload now st = None)) ∧
     (∀ to', to = Json.Str to' → to' ≠ "" → Json.truthy body = true →
      let msg := {| Events.from := address; Events.to := to;
                    Events.body := body; Events.ts := now |} in
      (∀ st,
         Events.auth_dm_send toLowerCase socket_id address payload now st
         = Some (((λ id, Events.IoTo id "dm:message" msg)
                    <$> elements (Presence.connections (toLowerCase to')
                                    (AuthServer.addressToSockets st)))
                 ++ [Events.ToSender socket_id "dm:message" msg])) ∧
      (∀ st,
         Events.room_dm_send toLowerCase socket_id address payload now st
         = Some (((λ id, Events.IoTo id "dm:receive" msg)
                    <$> elements (Presence.connections (toLowerCase to')
                                    (RoomServer.addressToSockets st)))
                 ++ [Events.ToSender socket_id "dm:sent" msg])))) ∧
  (∀ v, Json.truthy v = false
        ↔ v = Json.Undefined ∨ v = Json.Null ∨ v = Json.Bool false ∨ v = Json.Str ""
          ∨ ∃ n, v = Json.Num n ∧ (PrimFloat.is_zero n || PrimFloat.is_nan n) = true) ∧
  (∀ sys sys' emissions,
     Events.auth_dm_event toLowerCase socket_id payload now sys
       = Some (sys', emissions) → sys' = sys) ∧
  (∀ sys sys' emissions,
     Events.room_dm_event toLowerCase socket_id payload now sys
       = Some (sys', emissions) → sys' = sys) ∧
  (∀ (to body : option string),
     let event := Json.Obj (Json.field "to" to ++ Json.field "body" body) in
     (∀ st,
        mapM Events.typed
          <$> Events.auth_dm_send JS.toLowerCase socket_id address event now st
        = Some (Some (AuthServer.dm_send socket_id address to body now st))) ∧
     (∀ st,
        mapM Events.typed
          <$> Events.room_dm_send JS.toLowerCase socket_id address event now st
        = Some (Some (RoomServer.dm_send socket_id address to body now st))) ∧
     (∀ getAddress verifyTypedData sys,
        (AuthServer.step getAddress verifyTypedData sys
           (AuthServer.DmSend socket_id to body now)).1 = sys) ∧
     (∀ sys, (RoomServer.step sys (RoomServer.DmSend socket_id to body now)).1 = sys)).
Proof.
  split_and!.
  - by intros [-> | ->].
  - intros H1 H2. destruct payload; simpl; by eauto.
  - intros to body Hto Hbody.
    unfold Events.auth_dm_send, Events.room_dm_send. rewrite Hto, Hbody.
    split_and!.
    + intros H.
      assert (Hf : negb (Json.truthy to) || negb (Json.truthy body) = true).
      { apply orb_true_iff. rewrite !negb_true_iff. tauto. }
      by rewrite Hf.
    + intros H1 H2 Hstr. rewrite H1, H2. simpl.
      destruct to; try done. by destruct (Hstr s).
    + intros to' -> Hne H2. simpl. rewrite H2.
      apply String.eqb_neq in Hne. rewrite Hne. simpl.
      unfold Presence.connections.
      split; intros st; destruct (_ !! toLowerCase to') as [sockets|]; simpl;
        try done; by rewrite elements_empty.
  - apply falsy_values.
  - intros sys sys' emissions. unfold Events.auth_dm_event.
    destruct (AuthServer.installed sys !! socket_id) as [a|]; [|congruence].
    destruct (Events.auth_dm_send _ _ _ _ _ _); congruence.
  - intros sys sys' emissions. unfold Events.room_dm_event.
    destruct (RoomServer.installed sys !! socket_id) as [a|]; [|congruence].
    destruct (Events.room_dm_send _ _ _ _ _ _); congruence.
  - intros to body event. split_and!.
    + intros st. apply auth_dm_send_typed.
    + intros st. apply room_dm_send_typed.
    + intros getAddress verifyTypedData sys. simpl.
      by destruct (AuthServer.installed sys !! socket_id).
    + intros sys. simpl. by destruct (RoomServer.installed sys !! socket_id).
Qed.

(** ** Chat rooms *)

Section RoomClaims.

Import RoomServer.

Lemma union_member (address : string) (members : gset string) :
  address ∈ members → {[address]} ∪ members = members.
Proof. set_solver. Qed.

Lemma size_join (address : string) (members : gset string) :
  size ({[address]} ∪ members)
  = if decide (address ∈ members) then size members else S (size members).
Proof.
  case_decide as H.
  - by rewrite union_member.
  - rewrite size_union by set_solver. by rewrite size_singleton.
Qed.

Lemma join_chat_members socket_id address chatId st :
  chatRoomMembers (join_chat socket_id address chatId st).1 !! chatId
  = Some ({[address]} ∪ default ∅ (chatRoomMembers st !! chatId)).
Proof. unfold join_chat. simpl. by rewrite lookup_insert_eq. Qed.

Lemma join_chat_active_count socket_id address chatId st :
  let members := default ∅ (chatRoomMembers st !! chatId) in
  active_count chatId (join_chat socket_id address chatId st).2
  = if decide (size members < 2 ∧ 2 ≤ size ({[address]} ∪ members))%nat
    then 1 else 0.
Proof.
  unfold join_chat. simpl. case_decide; [|done].
  unfold active_count, Wire.count. simpl.
  by rewrite !bool_decide_eq_true_2.
Qed.

Lemma joins_cons chatId socket_id address who st :
  joins chatId ((socket_id, address) :: who) st
  = ((joins chatId who (join_chat socket_id address chatId st).1).1,
     (join_chat socket_id address chatId st).2
     ++ (joins chatId who (join_chat socket_id address chatId st).1).2).
Proof.
  cbn [joins]. destruct (join_chat socket_id address chatId st) as [st1 e1].
  cbn [fst snd]. by destruct (joins chatId who st1).
Qed.

Lemma joins_active_count chatId who st :
  let members := default ∅ (chatRoomMembers st !! chatId) in
  active_count chatId (joins chatId who st).2
  = if decide (size members < 2 ∧ 2 ≤ size (list_to_set who.*2 ∪ members))%nat
    then 1 else 0.
Proof.
  revert st. induction who as [|[socket_id address] who IH]; intros st members.
  - simpl. rewrite decide_False; [done|].
    rewrite (left_id_L ∅ (∪)). lia.
  - rewrite joins_cons. cbn [fst snd]. unfold active_count in *.
    rewrite count_app.
    fold (active_count chatId (join_chat socket_id address chatId st).2).
    rewrite join_chat_active_count, IH, join_chat_members. fold members.
    rewrite fmap_cons, list_to_set_cons. cbn [snd default from_option id].
    assert (Heq : ({[address]} ∪ list_to_set who.*2 ∪ members : gset string)
                  = list_to_set who.*2 ∪ ({[address]} ∪ members)) by set_solver.
    rewrite Heq.
    assert (size members ≤ size ({[address]} ∪ members))%nat
      by (apply subseteq_size; set_solver).
    assert (size ({[address]} ∪ members)
            ≤ size (list_to_set who.*2 ∪ ({[address]} ∪ members)))%nat
      by (apply subseteq_size; set_solver).
    repeat case_decide; lia.
Qed.

(** C9: joining a room one is already a member of leaves the state as it is
    and does nothing but subscribe the socket, so a repeated join has no
    further effect; a join logs CHAT ACTIVE exactly when it takes the room
    from fewer than two members to two or more, which is when the room had a
    single member and the joiner is another identity; and over any sequence
    of joins of a room that did not exist, CHAT ACTIVE is logged once if two
    distinct identities joined and never otherwise. *)
Theorem join_chat_idempotent_and_activates_once :
  (∀ socket_id address chatId st members,
     chatRoomMembers st !! chatId = Some members → address ∈ members →
     join_chat socket_id address chatId st = (st, [SocketJoin socket_id chatId])) ∧
  (∀ socket_id socket_id' address chatId st,
     let st1 := (join_chat socket_id address chatId st).1 in
     join_chat socket_id' address chatId st1 = (st1, [SocketJoin socket_id' chatId])) ∧
  (∀ socket_id address chatId st,
     let members := default ∅ (chatRoomMembers st !! chatId) in
     let members' := {[address]} ∪ members in
     chatRoomMembers (join_chat socket_id address chatId st).1 !! chatId
       = Some members' ∧
     active_count chatId (join_chat socket_id address chatId st).2
       = (if decide (size members < 2 ∧ 2 ≤ size members')%nat then 1 else 0) ∧
     ((size members < 2 ∧ 2 ≤ size members')%nat
      ↔ size members = 1%nat ∧ address ∉ members)) ∧
  (∀ chatId who st,
     chatRoomMembers st !! chatId = None →
     active_count chatId (joins chatId who st).2
     = if decide (2 ≤ size (list_to_set who.*2 : gset string))%nat then 1 else 0).
Proof.
  assert (Hagain : ∀ socket_id address chatId st members,
     chatRoomMembers st !! chatId = Some members → address ∈ members →
     join_chat socket_id address chatId st = (st, [SocketJoin socket_id chatId])).
  { intros socket_id address chatId st members Hm Ha.
    unfold join_chat. rewrite Hm. simpl. rewrite (union_member _ _ Ha).
    rewrite insert_id by done. rewrite decide_False by lia.
    by destruct st. }
  split_and!.
  - exact Hagain.
  - intros socket_id socket_id' address chatId st st1.
    eapply Hagain; [apply join_chat_members|set_solver].
  - intros socket_id address chatId st members members'. split_and!.
    + apply join_chat_members.
    + apply join_chat_active_count.
    + unfold members'. rewrite size_join. case_decide.
      * split; [lia|by intros [_ ?]].
      * split; [intros [? ?]; split; [lia|done]|intros [? ?]; lia].
  - intros chatId who st Hnone.
    rewrite joins_active_count, Hnone. cbn [default from_option].
    rewrite (right_id_L ∅ (∪)), size_empty.
    apply decide_ext. split; [by intros [_ ?]|]. intros ?. split; [lia|done].
Qed.

(** C10: when a room has exactly one member and an identity that is not that
    member leaves it, nothing is removed from the member set, yet its size is
    below two, so the handler deletes the room's entry, and with it the
    remaining member, and logs CHAT INACTIVE. *)
Theorem leave_chat_by_non_member_deletes_room
    socket_id leaver member chatId st :
  chatRoomMembers st !! chatId = Some {[member]} →
  leaver ≠ member →
  leaveChat socket_id leaver chatId st
  = ({| addressToSockets := addressToSockets st;
        chatRoomMembers := delete chatId (chatRoomMembers st) |},
     [SocketLeave socket_id chatId; ConsoleLog "CHAT INACTIVE:" [chatId]]) ∧
  chatRoomMembers (leaveChat socket_id leaver chatId st).1 !! chatId = None.
Proof.
  intros Hm Hne.
  assert (H : leaveChat socket_id leaver chatId st
    = ({| addressToSockets := addressToSockets st;
          chatRoomMembers := delete chatId (chatRoomMembers st) |},
       [SocketLeave socket_id chatId; ConsoleLog "CHAT INACTIVE:" [chatId]])).
  { unfold leaveChat. rewrite Hm.
    replace ({[member]} ∖ {[leaver]} : gset string) with ({[member]} : gset string)
      by set_solver.
    rewrite size_singleton. by rewrite decide_True by lia. }
  split; [done|]. rewrite H. simpl. apply lookup_delete_eq.
Qed.

(** The disconnect of a socket sweeps its address out of every room even when
    another socket of the same address stays registered; the presence part
    alone looks at the remaining sockets. *)
Lemma disconnect_sweeps_rooms_of_a_live_identity
    socket_id other address chatId sockets members st :
  addressToSockets st !! address = Some sockets →
  other ∈ sockets → other ≠ socket_id →
  chatRoomMembers st !! chatId = Some members → address ∈ members →
  let st' := (disconnect socket_id address st).1 in
  other ∈ Presence.connections address (addressToSockets st') ∧
  chatRoomMembers st' !! chatId
  = if decide (size (members ∖ {[address]}) < 2)%nat then None
    else Some (members ∖ {[address]}).
Proof.
  intros Hs Ho Hne Hm Ha. unfold disconnect.
  rewrite (deregister_known _ _ _ _ Hs).
  rewrite decide_False by set_solver. simpl. split.
  - unfold Presence.connections. rewrite lookup_insert_eq. simpl. set_solver.
  - rewrite lookup_omap, Hm. simpl. unfold sweep_members.
    by rewrite decide_True.
Qed.

End RoomClaims.

(** ** The statements at work on concrete runs *)

Lemma connection_authenticates_only_the_signer_witness :
  let r := Fixture.connection "s1" Fixture.alice "2026-01-01T00:01:00.000Z"
             Fixture.issued in
  Fixture.connection "s1" Fixture.alice "2026-01-01T00:01:00.000Z" Fixture.issued
    = (r.1.1, r.1.2, r.2) ∧
  r.1.2 = AuthServer.Authenticated "0xa11ce" ∧
  ∀ address, r.1.2 = AuthServer.Authenticated address →
    ∃ addressRaw signature nonce checksummed challenge recovered,
      AuthServer.Auth.address Fixture.alice = Some addressRaw ∧
      AuthServer.Auth.signature Fixture.alice = Some signature ∧
      AuthServer.auth_nonce Fixture.alice = Some nonce ∧
      Fixture.getAddress addressRaw = Some checksummed ∧
      AuthServer.nonceChallenges Fixture.issued !! nonce = Some challenge ∧
      Fixture.verifyTypedData (AuthServer.signIn_domain challenge)
        AuthServer.TYPE_DATA_TYPES (AuthServer.signIn_message nonce challenge)
        signature = Some recovered ∧
      JS.toLowerCase recovered = JS.toLowerCase checksummed ∧
      JS.toLowerCase recovered = AuthServer.NonceChallenge.address challenge ∧
      address = JS.toLowerCase recovered.
Proof.
  intros r.
  assert (Hr : Fixture.connection "s1" Fixture.alice "2026-01-01T00:01:00.000Z"
                 Fixture.issued = (r.1.1, r.1.2, r.2)) by (by vm_compute).
  split_and!; [done|by vm_compute|].
  exact (proj1 (connection_authenticates_only_the_signer
                  Fixture.getAddress Fixture.verifyTypedData _ _ _ _ _ _ _ Hr)).
Defined.

Lemma nonce_redeems_at_most_once_witness :
  let now := "2026-01-01T00:01:00.000Z" in
  let r := Fixture.connection "s1" Fixture.alice now Fixture.issued in
  let inputs :=
    [AuthServer.DmSend "s1" (Some "0xb0b") (Some "hi") 7%Z;
     AuthServer.NonceRequest "n2" "0xb0b" 1 "localhost" "http://localhost:5173"
       "2026-01-01T00:02:00.000Z" "2026-01-01T00:07:00.000Z";
     AuthServer.Disconnect "s1"] in
  let sys2 := (Fixture.run Fixture.signed_in inputs).1 in
  AuthServer.auth_nonce Fixture.alice = Some "n1" ∧
  Fixture.connection "s1" Fixture.alice now Fixture.issued
    = (r.1.1, AuthServer.Authenticated "0xa11ce", r.2) ∧
  AuthServer.fresh_nonces Fixture.getAddress Fixture.verifyTypedData
    Fixture.signed_in inputs = true ∧
  Fixture.step sys2 (AuthServer.Connect "s2" Fixture.alice "2026-01-01T00:03:00.000Z")
    = (sys2, [SocketDisconnect "s2"]).
Proof.
  intros now r inputs sys2.
  assert (Hr : Fixture.connection "s1" Fixture.alice now Fixture.issued
               = (r.1.1, AuthServer.Authenticated "0xa11ce", r.2))
    by (by vm_compute).
  assert (Hfresh : AuthServer.fresh_nonces Fixture.getAddress Fixture.verifyTypedData
                     Fixture.signed_in inputs = true) by (by vm_compute).
  split_and!; [done..|].
  exact (proj2 (proj2 (nonce_redeems_at_most_once
    Fixture.getAddress Fixture.verifyTypedData Fixture.issued_sys
    "s1" Fixture.alice now "n1" "0xa11ce" r.1.1 r.2 inputs
    "s2" Fixture.alice "2026-01-01T00:03:00.000Z" eq_refl Hr Hfresh eq_refl))).
Defined.

Lemma failed_attempt_consumes_nothing_witness :
  let mallory := Fixture.auth "0xA11CE" "n1/0xbad" "n1" in
  let r := Fixture.connection "s9" mallory "2026-01-01T00:01:00.000Z"
             Fixture.issued in
  Fixture.connection "s9" mallory "2026-01-01T00:01:00.000Z" Fixture.issued
    = (r.1.1, r.1.2, r.2) ∧
  r.1.2 = AuthServer.Closed ∧
  AuthServer.nonceChallenges r.1.1 !! "n1" = Some Fixture.pending ∧
  Fixture.connection "s1" Fixture.alice "2026-01-01T00:02:00.000Z" r.1.1
    = Fixture.connection "s1" Fixture.alice "2026-01-01T00:02:00.000Z" Fixture.issued ∧
  (r.1.2 = AuthServer.Closed →
   (∀ nonce challenge,
      AuthServer.nonceChallenges r.1.1 !! nonce = Some challenge →
      AuthServer.nonceChallenges Fixture.issued !! nonce = Some challenge) ∧
   (r.1.1 = Fixture.issued ∨
    ∃ nonce challenge,
      AuthServer.auth_nonce mallory = Some nonce ∧
      AuthServer.nonceChallenges Fixture.issued !! nonce = Some challenge ∧
      JS.str_le (AuthServer.NonceChallenge.expirationTime challenge)
        "2026-01-01T00:01:00.000Z" = true ∧
      AuthServer.nonceChallenges r.1.1
        = delete nonce (AuthServer.nonceChallenges Fixture.issued))).
Proof.
  intros mallory r.
  assert (Hr : Fixture.connection "s9" mallory "2026-01-01T00:01:00.000Z"
                 Fixture.issued = (r.1.1, r.1.2, r.2)) by (by vm_compute).
  split_and!; [done|by vm_compute..|].
  exact (proj1 (failed_attempt_consumes_nothing
                  Fixture.getAddress Fixture.verifyTypedData _ _ _ _ _ _ _ Hr)).
Defined.

Lemma client_typedData_does_not_matter_witness :
  let other := Fixture.auth_other "0xA11CE" "n1/0xA11ce" "n1" in
  AuthServer.Auth.address Fixture.alice = AuthServer.Auth.address other ∧
  AuthServer.Auth.signature Fixture.alice = AuthServer.Auth.signature other ∧
  AuthServer.auth_nonce Fixture.alice = AuthServer.auth_nonce other ∧
  AuthServer.Auth.typedData Fixture.alice ≠ AuthServer.Auth.typedData other ∧
  Fixture.connection "s1" Fixture.alice "2026-01-01T00:01:00.000Z" Fixture.issued
    = Fixture.connection "s1" other "2026-01-01T00:01:00.000Z" Fixture.issued.
Proof.
  intros other. split_and!; [done..|].
  exact (proj1 (client_typedData_does_not_matter
                  Fixture.getAddress Fixture.verifyTypedData
                  "s1" "2026-01-01T00:01:00.000Z" Fixture.issued
                  Fixture.alice other eq_refl eq_refl eq_refl)).
Defined.

Lemma expired_challenge_is_refused_and_deleted_witness :
  let now := "2026-01-01T00:05:00.000Z" in
  AuthServer.auth_nonce Fixture.alice = Some "n1" ∧
  AuthServer.nonceChallenges Fixture.issued !! "n1" = Some Fixture.pending ∧
  JS.str_le (AuthServer.NonceChallenge.expirationTime Fixture.pending) now = true ∧
  Fixture.connection "s1" Fixture.alice now Fixture.issued
  = ({| AuthServer.nonceChallenges :=
          delete "n1" (AuthServer.nonceChallenges Fixture.issued);
        AuthServer.addressToSockets := AuthServer.addressToSockets Fixture.issued |},
     AuthServer.Closed, [SocketDisconnect "s1"]).
Proof.
  intros now.
  assert (Hc : AuthServer.nonceChallenges Fixture.issued !! "n1"
               = Some Fixture.pending) by (by vm_compute).
  split_and!; [done..|].
  refine (proj2 (expired_challenge_is_refused_and_deleted
                   Fixture.getAddress Fixture.verifyTypedData
                   "s1" Fixture.alice now Fixture.issued "n1" Fixture.pending
                   eq_refl Hc eq_refl) "0xA11CE" eq_refl _ eq_refl _ _ eq_refl);
    [done|done|by eexists].
Defined.

Lemma join_chat_idempotent_and_activates_once_witness :
  let who := [("s1", "0xa"); ("s2", "0xa"); ("s3", "0xb"); ("s4", "0xc")] in
  RoomServer.chatRoomMembers RoomServer.initial !! "room" = None ∧
  RoomServer.active_count "room" (RoomServer.joins "room" who RoomServer.initial).2 = 1 ∧
  RoomServer.join_chat "s2" "0xa" "room" Fixture.lone_room
    = (Fixture.lone_room, [SocketJoin "s2" "room"]).
Proof.
  intros who.
  destruct join_chat_idempotent_and_activates_once as (_ & Hagain & _ & Hseq).
  split_and!.
  - done.
  - rewrite (Hseq "room" who RoomServer.initial eq_refl). by vm_compute.
  - exact (Hagain "s1" "s2" "0xa" "room" RoomServer.initial).
Defined.

Lemma dm_send_relays_to_recipient_and_sender_witness :
  let hi to := Json.Obj [("to", to); ("body", Json.Str "hi")] in
  let msg to := {| Events.from := "0xa11ce"; Events.to := to;
                   Events.body := Json.Str "hi"; Events.ts := 7 |} in
  (∃ emissions,
     Events.auth_dm_send JS.toLowerCase "s1" "0xa11ce" (hi (Json.Str "0xB0B")) 7
       Fixture.auth_three = Some emissions ∧
     emissions ≡ₚ [Events.IoTo "s2" "dm:message" (msg (Json.Str "0xB0B"));
                   Events.IoTo "s3" "dm:message" (msg (Json.Str "0xB0B"));
                   Events.IoTo "s4" "dm:message" (msg (Json.Str "0xB0B"));
                   Events.ToSender "s1" "dm:message" (msg (Json.Str "0xB0B"))]) ∧
  (∃ emissions,
     Events.room_dm_send JS.toLowerCase "s1" "0xa11ce" (hi (Json.Str "0xB0B")) 7
       Fixture.room_three = Some emissions ∧
     emissions ≡ₚ [Events.IoTo "s2" "dm:receive" (msg (Json.Str "0xB0B"));
                   Events.IoTo "s3" "dm:receive" (msg (Json.Str "0xB0B"));
                   Events.IoTo "s4" "dm:receive" (msg (Json.Str "0xB0B"));
                   Events.ToSender "s1" "dm:sent" (msg (Json.Str "0xB0B"))]) ∧
  Events.room_dm_send JS.toLowerCase "s1" "0xa11ce" (hi (Json.Str "0xdead")) 7
    Fixture.room_three
  = Some [Events.ToSender "s1" "dm:sent" (msg (Json.Str "0xdead"))] ∧
  Events.room_dm_send JS.toLowerCase "s1" "0xa11ce"
    (Json.Obj [("body", Json.Str "hi")]) 7 Fixture.room_three = Some [] ∧
  Events.auth_dm_send JS.toLowerCase "s1" "0xa11ce" (hi (Json.Bool true)) 7
    Fixture.auth_three = None ∧
  Events.auth_dm_send JS.toLowerCase "s1" "0xa11ce" Json.Undefined 7
    Fixture.auth_three = None.
Proof.
  intros hi msg.
  destruct (dm_send_relays_to_recipient_and_sender JS.toLowerCase "s1" "0xa11ce"
              (hi (Json.Str "0xB0B")) 7) as (_ & _ & Hcases & _).
  destruct (Hcases (Json.Str "0xB0B") (Json.Str "hi") eq_refl eq_refl)
    as (_ & _ & Hsend).
  destruct (Hsend "0xB0B" eq_refl) as [Hauth Hroom]; [done|reflexivity|].
  destruct (dm_send_relays_to_recipient_and_sender JS.toLowerCase "s1" "0xa11ce"
              (hi (Json.Str "0xdead")) 7) as (_ & _ & Hcases' & _).
  destruct (Hcases' (Json.Str "0xdead") (Json.Str "hi") eq_refl eq_refl)
    as (_ & _ & Hsend').
  destruct (Hsend' "0xdead" eq_refl) as [_ Hroom']; [done|reflexivity|].
  destruct (dm_send_relays_to_recipient_and_sender JS.toLowerCase "s1" "0xa11ce"
              (Json.Obj [("body", Json.Str "hi")]) 7) as (_ & _ & Hcases0 & _).
  destruct (Hcases0 Json.Undefined (Json.Str "hi") eq_refl eq_refl)
    as (Hdrop & _ & _).
  destruct (Hdrop (or_introl eq_refl)) as [_ Hdropped].
  destruct (dm_send_relays_to_recipient_and_sender JS.toLowerCase "s1" "0xa11ce"
              (hi (Json.Bool true)) 7) as (_ & _ & Hcases1 & _).
  destruct (Hcases1 (Json.Bool true) (Json.Str "hi") eq_refl eq_refl)
    as (_ & Hthrow & _).
  destruct (Hthrow eq_refl eq_refl) as [Hthrown _]; [done|].
  destruct (dm_send_relays_to_recipient_and_sender JS.toLowerCase "s1" "0xa11ce"
              Json.Undefined 7) as (Hnone & _).
  destruct (Hnone (or_introl eq_refl)) as [Hnone' _].
  split_and!.
  - eexists. split; [apply Hauth|]. vm_compute. apply perm_swap.
  - eexists. split; [apply Hroom|]. vm_compute. apply perm_swap.
  - rewrite Hroom'. by vm_compute.
  - apply Hdropped.
  - apply Hthrown.
  - apply Hnone'.
Defined.

(** C8, as the claim puts it, fails.  With both fields present but the body
    the empty string, [!body] holds and the handler returns at once: the
    recipient's three sockets get nothing and the sender gets no echo.  With
    both fields present and [to] the number 5 the handler throws at
    [to.toLowerCase()]: again nothing is delivered and nothing echoed.  And
    an event with no payload is not ignored: the destructuring throws. *)
Lemma dm_send_present_fields_are_dropped_or_throw :
  Events.auth_dm_send JS.toLowerCase "s1" "0xa11ce"
    (Json.Obj [("to", Json.Str "0xb0b"); ("body", Json.Str "")]) 7
    Fixture.auth_three = Some [] ∧
  Events.room_dm_send JS.toLowerCase "s1" "0xa11ce"
    (Json.Obj [("to", Json.Str "0xb0b"); ("body", Json.Str "")]) 7
    Fixture.room_three = Some [] ∧
  AuthServer.dm_send "s1" "0xa11ce" (Some "0xb0b") (Some "") 7 Fixture.auth_three = [] ∧
  RoomServer.dm_send "s1" "0xa11ce" (Some "0xb0b") (Some "") 7 Fixture.room_three = [] ∧
  Events.auth_dm_send JS.toLowerCase "s1" "0xa11ce"
    (Json.Obj [("to", Json.Num 5); ("body", Json.Str "hi")]) 7
    Fixture.auth_three = None ∧
  Events.room_dm_send JS.toLowerCase "s1" "0xa11ce"
    (Json.Obj [("to", Json.Num 5); ("body", Json.Str "hi")]) 7
    Fixture.room_three = None ∧
  Events.auth_dm_send JS.toLowerCase "s1" "0xa11ce" Json.Undefined 7
    Fixture.auth_three = None ∧
  Events.room_dm_send JS.toLowerCase "s1" "0xa11ce" Json.Undefined 7
    Fixture.room_three = None ∧
  Presence.connections "0xb0b" Fixture.three_sockets = {[ "s2"; "s3"; "s4" ]}.
Proof. by vm_compute. Qed.

Lemma leave_chat_by_non_member_deletes_room_witness :
  RoomServer.chatRoomMembers Fixture.lone_room !! "room" = Some {[ "0xa" ]} ∧
  "0xb" ≠ "0xa" ∧
  RoomServer.leaveChat "s2" "0xb" "room" Fixture.lone_room
  = ({| RoomServer.addressToSockets := RoomServer.addressToSockets Fixture.lone_room;
        RoomServer.chatRoomMembers :=
          delete "room" (RoomServer.chatRoomMembers Fixture.lone_room) |},
     [SocketLeave "s2" "room"; ConsoleLog "CHAT INACTIVE:" ["room"]]) ∧
  RoomServer.chatRoomMembers
    (RoomServer.leaveChat "s2" "0xb" "room" Fixture.lone_room).1 !! "room" = None.
Proof.
  assert (Hm : RoomServer.chatRoomMembers Fixture.lone_room !! "room"
               = Some {[ "0xa" ]}) by (by vm_compute).
  assert (Hne : "0xb" ≠ "0xa") by done.
  split_and!; [done..| |];
    apply (leave_chat_by_non_member_deletes_room "s2" "0xb" "0xa" "room"
             Fixture.lone_room Hm Hne).
Defined.

(** C4, on a run: [0xa] is connected from [s1] and [s2] and sits in [room]
    with [0xb] and [0xc]; when [s2] disconnects, [0xa] stays online through
    [s1], no presence:offline is sent, and yet [0xa] is gone from [room]. *)
Theorem disconnect_of_one_device_evicts_identity :
  let sys := Fixture.two_devices in
  let r := RoomServer.step sys (RoomServer.Disconnect "s2") in
  Presence.connections "0xa" (RoomServer.addressToSockets (RoomServer.server sys))
    = {[ "s1"; "s2" ]} ∧
  RoomServer.chatRoomMembers (RoomServer.server sys) !! "room"
    = Some {[ "0xa"; "0xb"; "0xc" ]} ∧
  Presence.connections "0xa" (RoomServer.addressToSockets (RoomServer.server r.1))
    = {[ "s1" ]} ∧
  r.2 = [] ∧
  RoomServer.chatRoomMembers (RoomServer.server r.1) !! "room"
    = Some {[ "0xb"; "0xc" ]}.
Proof. by vm_compute. Qed.

(** * Further properties of the two servers *)

(** ** The nonce endpoint *)

Section NonceEndpointFacts.

Variable getAddress : string → option string.
Variable verifyTypedData :
  AuthServer.TypedDomain.t → list (string * list (string * string)) →
  AuthServer.SignIn.t → string → option string.
Variable toInteger : string → option Z.
Variable toISOString : Z → string.
Variable parseURL : string → option (string * string).

Import AuthServer NonceEndpoint.

Abbreviation handle := (NonceEndpoint.handle getAddress toInteger toISOString parseURL).
Abbreviation connection := (AuthServer.connection getAddress verifyTypedData).

(** The challenge a request for [addressRaw] on chain [chainId] creates. *)
Abbreviation created checksummed chainId hostname uri now :=
  {| NonceChallenge.address := JS.toLowerCase checksummed;
     NonceChallenge.chainId := chainId;
     NonceChallenge.domain := hostname;
     NonceChallenge.uri := uri;
     NonceChallenge.issuedAt := toISOString now;
     NonceChallenge.expirationTime := toISOString (now + NONCE_TTL_MS);
     NonceChallenge.consumed := false |}.

Local Ltac refused :=
  left; simpl in *; simplify_eq; simpl; split_and!; auto.

(** Either the listener answers with something other than typed data and
    leaves the state alone, or every check passed and it stored a challenge. *)
Lemma handle_inv req now nonce st st' res :
  handle req now nonce st = Some (st', res) →
  (st' = st ∧ statusCode res ≠ 200%Z ∧
   (statusCode res = 204%Z ∨ statusCode res = 400%Z ∨ statusCode res = 404%Z) ∧
   ∀ d types p m, content res ≠ TypedData d types p m) ∨
  (∃ addressRaw chainIdRaw chainId checksummed hostname uri,
     default "GET" (method req) = "GET" ∧ pathname req = "/auth/nonce" ∧
     address req = Some addressRaw ∧ addressRaw ≠ "" ∧
     NonceEndpoint.chainId req = Some chainIdRaw ∧ chainIdRaw ≠ "" ∧
     toInteger chainIdRaw = Some chainId ∧ (0 < chainId)%Z ∧
     getAddress addressRaw = Some checksummed ∧
     st' = {| nonceChallenges :=
                <[nonce := created checksummed chainId hostname uri now]>
                  (nonceChallenges st);
              addressToSockets := addressToSockets st |} ∧
     statusCode res = 200%Z ∧
     content res
     = TypedData (signIn_domain (created checksummed chainId hostname uri now))
         TYPE_DATA_TYPES "SignIn"
         (signIn_message nonce (created checksummed chainId hostname uri now))).
Proof.
  unfold NonceEndpoint.handle. intros H.
  destruct (String.eqb (default "GET" (method req)) "OPTIONS");
    [by refused|].
  destruct (String.eqb (default "GET" (method req)) "GET") eqn:Hget;
    [|by refused].
  destruct (String.eqb (pathname req) "/auth/nonce") eqn:Hpath;
    [|by refused].
  simpl in H. apply String.eqb_eq in Hget, Hpath.
  destruct (negb (JS.truthy (address req)) || negb (JS.truthy (NonceEndpoint.chainId req)))
    eqn:Hgiven; [by refused|].
  apply orb_false_iff in Hgiven as [Ha Hc].
  apply negb_false_iff, truthy_Some in Ha as (addressRaw & Ha & Hane).
  apply negb_false_iff, truthy_Some in Hc as (chainIdRaw & Hc & Hcne).
  rewrite Ha, Hc in H.
  destruct (toInteger chainIdRaw) as [chainId|] eqn:Hint; [|by refused].
  destruct (chainId <=? 0)%Z eqn:Hpos; [by refused|].
  apply Z.leb_gt in Hpos.
  destruct (getAddress addressRaw) as [checksummed|] eqn:Hg; [|by refused].
  destruct (parseURL _) as [[hostname uri]|] eqn:Hurl; [|done].
  right. simplify_eq.
  exists addressRaw, chainIdRaw, chainId, checksummed, hostname, uri.
  by split_and!.
Qed.

(** X1: the listener changes nothing but the challenge store, and the store
    only when it answers 200: then the request was a GET of /auth/nonce with a
    non-empty address that is well-formed and a chainId that is a positive
    integer, exactly one entry was written, under the drawn nonce, and it is
    the unconsumed challenge for the lowercased address that expires
    NONCE_TTL_MS after it was issued. *)
Theorem nonce_request_outcome req now nonce st st' res :
  handle req now nonce st = Some (st', res) →
  addressToSockets st' = addressToSockets st ∧
  (statusCode res = 200%Z ∨ statusCode res = 204%Z
   ∨ statusCode res = 400%Z ∨ statusCode res = 404%Z) ∧
  (statusCode res ≠ 200%Z → st' = st) ∧
  (statusCode res = 200%Z →
   ∃ addressRaw chainIdRaw chainId checksummed hostname uri,
     default "GET" (method req) = "GET" ∧ pathname req = "/auth/nonce" ∧
     address req = Some addressRaw ∧ addressRaw ≠ "" ∧
     NonceEndpoint.chainId req = Some chainIdRaw ∧ chainIdRaw ≠ "" ∧
     toInteger chainIdRaw = Some chainId ∧ (0 < chainId)%Z ∧
     getAddress addressRaw = Some checksummed ∧
     nonceChallenges st'
     = <[nonce := {| NonceChallenge.address := JS.toLowerCase checksummed;
                     NonceChallenge.chainId := chainId;
                     NonceChallenge.domain := hostname;
                     NonceChallenge.uri := uri;
                     NonceChallenge.issuedAt := toISOString now;
                     NonceChallenge.expirationTime := toISOString (now + 300000);
                     NonceChallenge.consumed := false |}]> (nonceChallenges st)).
Proof.
  intros H. destruct (handle_inv _ _ _ _ _ _ H) as [(-> & Hne & Hcode & _)|Hok].
  - split_and!; [done|tauto|done|done].
  - destruct Hok as (addressRaw & chainIdRaw & chainId & checksummed & hostname
                     & uri & ? & ? & ? & ? & ? & ? & ? & ? & ? & -> & H200 & ?).
    split_and!; [done|tauto|done|]. intros _.
    exists addressRaw, chainIdRaw, chainId, checksummed, hostname, uri.
    by split_and!.
Qed.

(** Every guard of the connection handler passed: the socket is
    authenticated. *)
Lemma connection_accepts socket_id authPayload now st
    addressRaw signature nonce checksummed challenge recovered :
  Auth.address authPayload = Some addressRaw → addressRaw ≠ "" →
  Auth.signature authPayload = Some signature → signature ≠ "" →
  auth_nonce authPayload = Some nonce → nonce ≠ "" →
  getAddress addressRaw = Some checksummed →
  nonceChallenges st !! nonce = Some challenge →
  NonceChallenge.consumed challenge = false →
  JS.str_le (NonceChallenge.expirationTime challenge) now = false →
  NonceChallenge.address challenge = JS.toLowerCase checksummed →
  verifyTypedData (signIn_domain challenge) TYPE_DATA_TYPES
    (signIn_message nonce challenge) signature = Some recovered →
  JS.toLowerCase recovered = JS.toLowerCase checksummed →
  connection socket_id authPayload now st
  = ({| nonceChallenges :=
          <[nonce := NonceChallenge.consume challenge]> (nonceChallenges st);
        addressToSockets :=
          (Presence.register socket_id (JS.toLowerCase checksummed)
             (addressToSockets st)).1 |},
     Authenticated (JS.toLowerCase checksummed),
     (Presence.register socket_id (JS.toLowerCase checksummed)
        (addressToSockets st)).2
     ++ [SocketEmit socket_id "presence:snapshot"
           (Presence.snapshot
              (Presence.register socket_id (JS.toLowerCase checksummed)
                 (addressToSockets st)).1)]).
Proof.
  intros Ha Hane Hs Hsne Hn Hnne Hg Hc Hcons Hexp Hbound Hv Hrec.
  unfold AuthServer.connection.
  rewrite Ha, Hs, Hn, Hg, Hc, Hcons, Hexp, Hbound, Hv, Hrec. simpl.
  apply String.eqb_neq in Hane, Hsne, Hnne. rewrite Hane, Hsne, Hnne. simpl.
  rewrite String.eqb_refl. simpl.
  by destruct (Presence.register _ _ _).
Qed.

(** X2: what the endpoint hands out to be signed is what the connection
    handler verifies.  When the endpoint answered with typed data for a
    non-empty nonce, a connection that presents the request's address, that
    nonce and a signature from which [verifyTypedData], applied to the very
    domain, types and message of the answer, recovers that address, is
    authenticated as the address of the message as long as the message's
    expirationTime is still ahead; the socket is then registered and the
    challenge consumed. *)
Theorem issued_nonce_authenticates
    req now nonce st st1 res d types primaryType m
    socket_id authPayload signature recovered now' :
  handle req now nonce st = Some (st1, res) →
  content res = TypedData d types primaryType m →
  nonce ≠ "" →
  Auth.address authPayload = address req →
  Auth.signature authPayload = Some signature → signature ≠ "" →
  auth_nonce authPayload = Some nonce →
  verifyTypedData d types m signature = Some recovered →
  JS.toLowerCase recovered = SignIn.address m →
  JS.str_le (SignIn.expirationTime m) now' = false →
  ∃ st2 effects,
    connection socket_id authPayload now' st1
      = (st2, Authenticated (SignIn.address m), effects) ∧
    socket_id ∈ Presence.connections (SignIn.address m) (addressToSockets st2) ∧
    ∃ challenge, nonceChallenges st2 !! nonce = Some challenge
                 ∧ NonceChallenge.consumed challenge = true
                 ∧ signIn_message nonce challenge = m
                 ∧ signIn_domain challenge = d.
Proof.
  intros H Hres Hnne Ha Hs Hsne Hn Hv Hrec Hexp.
  destruct (handle_inv _ _ _ _ _ _ H) as [(_ & _ & _ & Hno)|Hok].
  { by destruct (Hno _ _ _ _ Hres). }
  destruct Hok as (addressRaw & chainIdRaw & chainId & checksummed & hostname
                   & uri & ? & ? & Hreq & ? & ? & ? & ? & ? & Hg & -> & _ & Hcontent).
  rewrite Hcontent in Hres. injection Hres as <- <- <- <-.
  rewrite Hreq in Ha.
  eexists _, _. split_and!.
  - eapply (connection_accepts _ _ _ _ addressRaw signature nonce checksummed
              (created checksummed chainId hostname uri now) recovered);
      try done.
    simpl. apply lookup_insert_eq.
  - simpl. rewrite register_map. unfold Presence.connections at 1.
    rewrite lookup_insert_eq. simpl. set_solver.
  - eexists. simpl. rewrite lookup_insert_eq. by split_and!.
Qed.

Lemma handle_headers req now nonce st st' res :
  handle req now nonce st = Some (st', res) →
  ∃ rest, headers res = cors (origin req) ++ rest ∧
          ∀ v, ("Access-Control-Allow-Origin", v) ∉ rest.
Proof.
  unfold NonceEndpoint.handle. intros H.
  assert (Hjson : ∀ v, ("Access-Control-Allow-Origin", v) ∉ json).
  { intros v Hin. apply list_elem_of_singleton in Hin. done. }
  repeat case_match; simplify_eq; simpl;
    try (by exists json);
    try (exists []; split; [by rewrite app_nil_r|by intros v ?%elem_of_nil]).
  eexists. split; [done|]. intros v Hin.
  apply elem_of_cons in Hin as [Hin|Hin]; [done|].
  apply list_elem_of_singleton in Hin. done.
Qed.

(** X3: whatever the request and the answer, the answer carries an
    Access-Control-Allow-Origin header exactly when the request's origin is
    one of ALLOWED_ORIGINS, and then it names that origin. *)
Theorem cors_header_only_for_allowed_origins req now nonce st st' res o :
  handle req now nonce st = Some (st', res) →
  (("Access-Control-Allow-Origin", o) ∈ headers res
   ↔ origin req = Some o ∧ o ∈ ALLOWED_ORIGINS).
Proof.
  intros H. destruct (handle_headers _ _ _ _ _ _ H) as (rest & -> & Hrest).
  rewrite elem_of_app. unfold cors. split.
  - intros [Hin|Hin]; [|by destruct (Hrest o)].
    destruct (origin req) as [o'|]; [|by apply elem_of_nil in Hin].
    destruct (JS.truthy (Some o')); simpl in Hin; [|by apply elem_of_nil in Hin].
    case_bool_decide as Hall; simpl in Hin; [|by apply elem_of_nil in Hin].
    apply elem_of_cons in Hin as [Hin|Hin]; [by simplify_eq|].
    apply list_elem_of_singleton in Hin. done.
  - intros [-> Hall]. left.
    assert (Ht : JS.truthy (Some o) = true).
    { apply truthy_Some. exists o. split; [done|]. intros ->.
      unfold ALLOWED_ORIGINS in Hall. set_solver. }
    rewrite Ht, bool_decide_eq_true_2 by done. simpl. apply list_elem_of_here.
Qed.

(** X15: for a request whose URL parsed, the listener throws, storing
    nothing and answering nothing, exactly when the request is a GET of
    /auth/nonce that passes every check (address and chainId given, chainId a
    positive integer, address well-formed) and [new URL] rejects the origin
    header, or, when there is none, the host. *)
Theorem nonce_request_throws_on_unparsable_origin req now nonce st :
  handle req now nonce st = None ↔
  default "GET" (method req) = "GET" ∧ pathname req = "/auth/nonce" ∧
  (∃ addressRaw chainIdRaw chainId,
     address req = Some addressRaw ∧ addressRaw ≠ "" ∧
     NonceEndpoint.chainId req = Some chainIdRaw ∧ chainIdRaw ≠ "" ∧
     toInteger chainIdRaw = Some chainId ∧ (0 < chainId)%Z ∧
     is_Some (getAddress addressRaw)) ∧
  parseURL (match origin req with
            | Some o => if String.eqb o "" then
                          String.append "http://" (default "localhost:10000" (host req))
                        else o
            | None => String.append "http://" (default "localhost:10000" (host req))
            end) = None.
Proof.
  assert (Hurl : ∀ host,
    match origin req with
    | Some o => if JS.truthy (origin req) then o else String.append "http://" host
    | None => String.append "http://" host
    end
    = match origin req with
      | Some o => if String.eqb o "" then String.append "http://" host else o
      | None => String.append "http://" host
      end).
  { intros host. destruct (origin req) as [o|]; [|done]. simpl.
    by destruct (String.eqb o ""). }
  unfold NonceEndpoint.handle. rewrite Hurl. split.
  - intros H.
    destruct (String.eqb (default "GET" (method req)) "OPTIONS"); [done|].
    destruct (String.eqb (default "GET" (method req)) "GET") eqn:Hget; [|done].
    destruct (String.eqb (pathname req) "/auth/nonce") eqn:Hpath; [|done].
    simpl in H. apply String.eqb_eq in Hget, Hpath.
    destruct (negb (JS.truthy (address req)) || negb (JS.truthy (NonceEndpoint.chainId req)))
      eqn:Hgiven; [done|].
    apply orb_false_iff in Hgiven as [Ha Hc].
    apply negb_false_iff, truthy_Some in Ha as (addressRaw & Ha & Hane).
    apply negb_false_iff, truthy_Some in Hc as (chainIdRaw & Hc & Hcne).
    rewrite Ha, Hc in H.
    destruct (toInteger chainIdRaw) as [chainId|] eqn:Hint; [|done].
    destruct (chainId <=? 0)%Z eqn:Hpos; [done|]. apply Z.leb_gt in Hpos.
    destruct (getAddress addressRaw) as [checksummed|] eqn:Hg; [|done].
    destruct (parseURL _) as [[hostname uri]|] eqn:Hp; [done|].
    split_and!; [done..| |done].
    exists addressRaw, chainIdRaw, chainId. by split_and!.
  - intros (Hget & Hpath & (addressRaw & chainIdRaw & chainId & Ha & Hane & Hc
                            & Hcne & Hint & Hpos & [checksummed Hg]) & Hp).
    rewrite Hget, Hpath, Ha, Hc, Hint, Hg, Hp. simpl.
    apply String.eqb_neq in Hane, Hcne. rewrite Hane, Hcne. simpl.
    apply Z.leb_gt in Hpos. by rewrite Hpos.
Qed.

End NonceEndpointFacts.

(** ** Canonical addresses *)

Lemma lower_ascii_idemp (c : ascii) :
  JS.lower_ascii (JS.lower_ascii c) = JS.lower_ascii c.
Proof. destruct c as [[] [] [] [] [] [] [] []]; reflexivity. Qed.

Lemma toLowerCase_idemp (s : string) :
  JS.toLowerCase (JS.toLowerCase s) = JS.toLowerCase s.
Proof.
  induction s as [|c s IH]; simpl; [done|].
  by rewrite lower_ascii_idemp, IH.
Qed.

Lemma toLowerCase_empty (s : string) : JS.toLowerCase s = "" → s = "".
Proof. by destruct s. Qed.

(** ** Sockets and the presence map *)

Section RegistryFacts.

Implicit Types (m : gmap string (gset string)) (o : Presence.op).

Lemma apply_connections o m address :
  Presence.connections address (Presence.apply o m).1
  = if decide (Presence.subject o = address)
    then match o with
         | Presence.Register socket_id _ =>
             {[socket_id]} ∪ Presence.connections address m
         | Presence.Deregister socket_id _ =>
             Presence.connections address m ∖ {[socket_id]}
         end
    else Presence.connections address m.
Proof.
  unfold Presence.connections at 1. rewrite apply_entry.
  case_decide; [|done]. destruct o as [socket_id a|socket_id a]; [done|].
  unfold Presence.connections. destruct (m !! address) as [sockets|]; simpl.
  - case_decide as He; simpl; [by rewrite He|done].
  - set_solver.
Qed.

(** Deregistering socket after socket of an identity, its last ones among
    them, broadcasts its departure once if it was online, and removes its
    entry. *)
Lemma deregistrations_offline_once address sockets m :
  Presence.no_empty_entry m →
  Presence.connections address m ⊆ list_to_set sockets →
  let r := Presence.run ((λ s, Presence.Deregister s address) <$> sockets) m in
  online_count address r.2 = 0 ∧
  offline_count address r.2
    = (if decide (Presence.connections address m = ∅) then 0 else 1) ∧
  r.1 !! address = None.
Proof.
  revert m. induction sockets as [|s sockets IH]; intros m Hm Hsub.
  - assert (Hempty : Presence.connections address m = ∅) by set_solver.
    simpl. rewrite decide_True by done. split_and!; [done..|].
    by apply connections_empty.
  - rewrite fmap_cons, presence_run_cons. cbn [fst snd].
    set (o := Presence.Deregister s address).
    assert (Hafter : Presence.connections address (Presence.apply o m).1
                     = Presence.connections address m ∖ {[s]}).
    { rewrite apply_connections. simpl. by rewrite decide_True. }
    destruct (IH (Presence.apply o m).1) as (IH1 & IH2 & IH3).
    { by apply apply_no_empty_entry. }
    { rewrite Hafter. set_solver. }
    destruct (apply_transition o m address Hm) as (T1 & T2 & _).
    rewrite online_count_app, offline_count_app, IH1, IH2, T1, T2, Hafter.
    split_and!; [|by repeat case_decide; set_solver|done].
    rewrite decide_False; [done|]. set_solver.
Qed.

Lemma registered_after o installed m :
  Sockets.registered installed m →
  Sockets.registered (Sockets.installed_after (Some o) installed) (Presence.apply o m).1.
Proof.
  intros Hreg s a. rewrite apply_connections.
  destruct o as [socket_id a0|socket_id a0]; simpl.
  - destruct (decide (socket_id = s)) as [->|Hne].
    + rewrite lookup_insert_eq. intros [= ->]. rewrite decide_True by done.
      set_solver.
    + rewrite lookup_insert_ne by done. intros H%Hreg.
      case_decide; [set_solver|done].
  - destruct (decide (socket_id = s)) as [->|Hne].
    + by rewrite lookup_delete_eq.
    + rewrite lookup_delete_ne by done. intros H%Hreg.
      case_decide; [set_solver|done].
Qed.

Lemma no_ghost_after o installed m :
  Sockets.no_ghost installed m →
  match o with
  | Presence.Register socket_id _ => installed !! socket_id = None
  | Presence.Deregister socket_id address => installed !! socket_id = Some address
  end →
  Sockets.no_ghost (Sockets.installed_after (Some o) installed) (Presence.apply o m).1.
Proof.
  intros Hng Ho s a. rewrite apply_connections.
  destruct o as [socket_id a0|socket_id a0]; simpl in *.
  - case_decide as Ha.
    + subst a0. rewrite elem_of_union, elem_of_singleton. intros [->|Hin].
      * by rewrite lookup_insert_eq.
      * apply Hng in Hin. rewrite lookup_insert_ne; [done|]. congruence.
    + intros Hin%Hng. rewrite lookup_insert_ne; [done|]. congruence.
  - case_decide as Ha.
    + subst a0. rewrite elem_of_difference, elem_of_singleton. intros [Hin Hne].
      apply Hng in Hin. by rewrite lookup_delete_ne.
    + intros Hin%Hng. rewrite lookup_delete_ne; [done|]. congruence.
Qed.

(** With both, an address is tracked exactly when one of its sockets has
    handlers installed. *)
Lemma online_iff_installed installed m address :
  Presence.no_empty_entry m → Sockets.registered installed m → Sockets.no_ghost installed m →
  (Presence.online address m ↔ ∃ socket_id, installed !! socket_id = Some address).
Proof.
  intros Hne Hreg Hng. rewrite (online_iff_connected _ _ Hne). split.
  - intros [s Hs]%set_choose_L. exists s. by apply Hng.
  - intros [s Hs%Hreg]. set_solver.
Qed.

Lemma no_installed_no_entry installed m :
  Presence.no_empty_entry m → Sockets.no_ghost installed m →
  installed = ∅ → m = ∅.
Proof.
  intros Hne Hng ->. apply map_empty. intros address.
  destruct (m !! address) as [sockets|] eqn:Hm; [|done].
  destruct (set_choose_L sockets (Hne _ _ Hm)) as [s Hs].
  assert (Hin : s ∈ Presence.connections address m).
  { unfold Presence.connections. by rewrite Hm. }
  apply Hng in Hin. by rewrite lookup_empty in Hin.
Qed.

(** What the snapshot lists: the tracked addresses, once each, all online. *)
Lemma snapshot_lists m :
  ∃ users, Presence.snapshot m = PUsers users ∧
    NoDup users.*1 ∧
    (∀ address, address ∈ users.*1 ↔ Presence.online address m) ∧
    Forall (λ user, user.2 = true) users.
Proof.
  unfold Presence.snapshot. eexists. split; [done|].
  assert (Hfst : ∀ l : list string,
             ((λ address : string, (address, true)) <$> l).*1 = l).
  { induction l as [|a l IH]; [done|]. rewrite !fmap_cons. simpl. by f_equal. }
  rewrite Hfst. split_and!.
  - apply NoDup_fst_map_to_list.
  - intros address. unfold Presence.online.
    rewrite list_elem_of_fmap. split.
    + intros ([a sockets] & -> & Hin%elem_of_map_to_list). by eexists.
    + intros [sockets Hs]. exists (address, sockets). split; [done|].
      by apply elem_of_map_to_list.
  - apply Forall_fmap, Forall_true. done.
Qed.

End RegistryFacts.

(** ** The authenticating server: what a connection touches, who is online *)

Section AuthFurther.

Variable getAddress : string → option string.
Variable verifyTypedData :
  AuthServer.TypedDomain.t → list (string * list (string * string)) →
  AuthServer.SignIn.t → string → option string.

Import AuthServer.

Abbreviation connection := (AuthServer.connection getAddress verifyTypedData).
Abbreviation step := (AuthServer.step getAddress verifyTypedData).
Abbreviation run := (AuthServer.run getAddress verifyTypedData).
Abbreviation presence_op := (AuthServer.presence_op getAddress verifyTypedData).
Abbreviation fresh_sockets := (AuthRuns.fresh_sockets getAddress verifyTypedData).

(** X4: a connection attempt can reach one challenge only, the one stored
    under the nonce it presents: every other entry of the store is as before
    and no entry is ever added; it changes the presence map only when it
    authenticates, and then only by adding its own socket: nobody's socket is
    ever removed. *)
Theorem connection_touches_only_what_it_presents
    socket_id authPayload now st st' out effects :
  connection socket_id authPayload now st = (st', out, effects) →
  (∀ nonce, auth_nonce authPayload ≠ Some nonce →
     nonceChallenges st' !! nonce = nonceChallenges st !! nonce) ∧
  dom (nonceChallenges st') ⊆ dom (nonceChallenges st) ∧
  (out = Closed → addressToSockets st' = addressToSockets st) ∧
  (∀ address,
     out ≠ Authenticated address →
     addressToSockets st' !! address = addressToSockets st !! address) ∧
  (∀ address,
     Presence.connections address (addressToSockets st)
     ⊆ Presence.connections address (addressToSockets st')).
Proof.
  intros H. destruct out as [|a].
  - destruct (connection_closed _ _ _ _ _ _ _ _ H) as (_ & Hm & [->|Hdel]).
    { split_and!; done. }
    destruct Hdel as (nonce & challenge & Hn & Hc & _ & _ & Hst).
    rewrite Hm, Hst. split_and!; try done.
    + intros n Hne. rewrite lookup_delete_ne; [done|congruence].
    + rewrite dom_delete_L. set_solver.
  - destruct (connection_authenticated _ _ _ _ _ _ _ _ _ H)
      as (? & ? & nonce & ? & challenge & ? & ? & ? & Hn & ? & ? & Hc & ? & ?
          & ? & ? & ? & -> & ?).
    simpl. rewrite register_map. split_and!.
    + intros n Hne. rewrite lookup_insert_ne; [done|congruence].
    + rewrite dom_insert_L. apply elem_of_dom_2 in Hc. set_solver.
    + done.
    + intros address Hne. rewrite lookup_insert_ne; [done|congruence].
    + intros address. unfold Presence.connections at 2.
      destruct (decide (address = a)) as [->|Hne].
      * rewrite lookup_insert_eq. simpl. set_solver.
      * by rewrite lookup_insert_ne.
Qed.

(** X5: when a connection authenticates, the last thing the handler does is
    send the new socket one presence:snapshot; it lists every address the
    presence map now tracks, each once and each with online: true, the
    socket's own address among them. *)
Theorem authenticated_socket_gets_the_snapshot
    socket_id authPayload now st st' address effects :
  connection socket_id authPayload now st = (st', Authenticated address, effects) →
  ∃ users,
    last effects = Some (SocketEmit socket_id "presence:snapshot" (PUsers users)) ∧
    NoDup users.*1 ∧
    (∀ a, a ∈ users.*1 ↔ Presence.online a (addressToSockets st')) ∧
    address ∈ users.*1 ∧
    Forall (λ user, user.2 = true) users.
Proof.
  intros H.
  destruct (connection_authenticated _ _ _ _ _ _ _ _ _ H)
    as (? & ? & nonce & ? & challenge & ? & ? & ? & ? & ? & ? & ? & ? & ?
        & ? & ? & ? & -> & ->).
  simpl. destruct (snapshot_lists
    (Presence.register socket_id address (addressToSockets st)).1)
    as (users & -> & Hnd & Hin & Hall).
  exists users. rewrite last_snoc. split_and!; try done.
  apply Hin. unfold Presence.online. rewrite register_map, lookup_insert_eq.
  by eexists.
Qed.

(** *** Along the runs *)

Lemma auth_step_installed sys i :
  installed (step sys i).1 = Sockets.installed_after (presence_op sys i) (installed sys).
Proof.
  destruct i as [nonce' address chainId domain uri issuedAt expirationTime
                |socket_id authPayload now|socket_id to body now|socket_id];
    simpl.
  - done.
  - destruct (connection socket_id authPayload now (server sys))
      as [[st' out] effects]. by destruct out.
  - by destruct (installed sys !! socket_id).
  - destruct (installed sys !! socket_id) as [address|]; simpl; [|done].
    by destruct (disconnect socket_id address (server sys)).
Qed.

Lemma auth_presence_op_inv sys i o :
  presence_op sys i = Some o →
  match o with
  | Presence.Register socket_id address =>
      JS.toLowerCase address = address ∧
      ∃ authPayload now, i = Connect socket_id authPayload now
  | Presence.Deregister socket_id address =>
      installed sys !! socket_id = Some address ∧ i = Disconnect socket_id
  end.
Proof.
  destruct i as [nonce' address chainId domain uri issuedAt expirationTime
                |socket_id authPayload now|socket_id to body now|socket_id];
    simpl; try done.
  - destruct (connection socket_id authPayload now (server sys))
      as [[st' out] effects] eqn:H.
    destruct out as [|address]; [done|]. intros [= <-].
    destruct (connection_authenticated _ _ _ _ _ _ _ _ _ H)
      as (? & ? & ? & checksummed & ? & ? & ? & ? & ? & ? & -> & _).
    split; [apply toLowerCase_idemp|by eauto].
  - destruct (installed sys !! socket_id) as [address|] eqn:Hi; simpl; [|done].
    by intros [= <-].
Qed.

Lemma canonical_after o installed :
  Sockets.canonical installed →
  (∀ socket_id address, o = Some (Presence.Register socket_id address) →
     JS.toLowerCase address = address) →
  Sockets.canonical (Sockets.installed_after o installed).
Proof.
  intros Hcan Ho s a. destruct o as [[socket_id a0|socket_id a0]|]; simpl.
  - destruct (decide (socket_id = s)) as [->|Hne].
    + rewrite lookup_insert_eq. intros [= <-]. by eapply Ho.
    + rewrite lookup_insert_ne by done. apply Hcan.
  - intros [_ H]%lookup_delete_Some. by eapply Hcan.
  - apply Hcan.
Qed.

(** What a run keeps true of the server whatever the socket ids. *)
Lemma auth_step_kept sys i :
  Presence.no_empty_entry (addressToSockets (server sys)) →
  Sockets.registered (installed sys) (addressToSockets (server sys)) →
  Sockets.canonical (installed sys) →
  Presence.no_empty_entry (addressToSockets (server (step sys i).1)) ∧
  Sockets.registered (installed (step sys i).1)
    (addressToSockets (server (step sys i).1)) ∧
  Sockets.canonical (installed (step sys i).1).
Proof.
  intros Hne Hreg Hcan.
  destruct (step_presence getAddress verifyTypedData sys i) as [-> _].
  rewrite auth_step_installed.
  destruct (presence_op sys i) as [o|] eqn:Ho; simpl.
  - split_and!.
    + by apply apply_no_empty_entry.
    + by apply registered_after.
    + apply (canonical_after (Some o)); [done|].
      intros s a [= ->]. by destruct (auth_presence_op_inv _ _ _ Ho).
  - done.
Qed.

Lemma auth_run_kept inputs sys :
  Presence.no_empty_entry (addressToSockets (server sys)) →
  Sockets.registered (installed sys) (addressToSockets (server sys)) →
  Sockets.canonical (installed sys) →
  Presence.no_empty_entry (addressToSockets (server (run sys inputs).1)) ∧
  Sockets.registered (installed (run sys inputs).1)
    (addressToSockets (server (run sys inputs).1)) ∧
  Sockets.canonical (installed (run sys inputs).1).
Proof.
  revert sys. induction inputs as [|i inputs IH]; intros sys Hne Hreg Hcan; [done|].
  rewrite (run_cons getAddress verifyTypedData). cbn [fst].
  destruct (auth_step_kept sys i Hne Hreg Hcan) as (? & ? & ?). by apply IH.
Qed.

Lemma auth_run_no_ghost inputs sys :
  Sockets.no_ghost (installed sys) (addressToSockets (server sys)) →
  fresh_sockets sys inputs = true →
  Sockets.no_ghost (installed (run sys inputs).1)
    (addressToSockets (server (run sys inputs).1)).
Proof.
  revert sys. induction inputs as [|i inputs IH]; intros sys Hng Hfresh; [done|].
  rewrite (run_cons getAddress verifyTypedData). cbn [fst].
  change (fresh_sockets sys (i :: inputs))
    with (match i with
          | Connect socket_id _ _ => bool_decide (installed sys !! socket_id = None)
          | _ => true
          end && fresh_sockets (step sys i).1 inputs) in Hfresh.
  apply andb_true_iff in Hfresh as [Hi Hrest].
  apply IH; [|done].
  destruct (step_presence getAddress verifyTypedData sys i) as [-> _].
  rewrite auth_step_installed.
  destruct (presence_op sys i) as [o|] eqn:Ho; simpl; [|done].
  apply no_ghost_after; [done|].
  pose proof (auth_presence_op_inv _ _ _ Ho) as Hinv.
  destruct o as [s a|s a].
  - destruct Hinv as (_ & authPayload & now & ->).
    by apply bool_decide_eq_true in Hi.
  - by destruct Hinv.
Qed.

Lemma auth_dm_send_delivers sender from to body now st socket_id :
  to ≠ "" → body ≠ "" →
  socket_id ∈ Presence.connections (JS.toLowerCase to) (addressToSockets st) →
  IoToEmit socket_id "dm:message"
    (PMsg {| Wire.from := from; Wire.to := to; Wire.body := body; Wire.ts := now |})
  ∈ dm_send sender from (Some to) (Some body) now st.
Proof.
  intros Hto Hbody Hin. unfold dm_send. simpl.
  apply String.eqb_neq in Hto, Hbody. rewrite Hto, Hbody. simpl.
  unfold Presence.connections in Hin.
  destruct (addressToSockets st !! JS.toLowerCase to) as [sockets|];
    simpl in Hin; [|set_solver].
  apply elem_of_app. left. apply list_elem_of_fmap.
  exists socket_id. split; [done|]. by apply elem_of_elements.
Qed.

(** X6: in every state the server reaches, a socket whose handlers are
    installed captured a lowercase address and is in that address's set of the
    presence map.  So its disconnect handler never takes the early return,
    and a dm:send with a non-empty body addressed to that address in any
    letter case is emitted to the socket. *)
Theorem installed_sockets_are_registered inputs sys effects :
  run boot inputs = (sys, effects) →
  ∀ socket_id address,
    installed sys !! socket_id = Some address →
    JS.toLowerCase address = address ∧
    socket_id ∈ Presence.connections address (addressToSockets (server sys)) ∧
    is_Some (Presence.deregister socket_id address (addressToSockets (server sys))) ∧
    (∀ sender from to body now,
       to ≠ "" → body ≠ "" → JS.toLowerCase to = address →
       IoToEmit socket_id "dm:message"
         (PMsg {| Wire.from := from; Wire.to := to;
                  Wire.body := body; Wire.ts := now |})
       ∈ dm_send sender from (Some to) (Some body) now (server sys)).
Proof.
  intros Hrun s a Hs.
  destruct (auth_run_kept inputs boot) as (Hne & Hreg & Hcan).
  { apply empty_no_empty_entry. }
  { intros ? ?. simpl. by rewrite lookup_empty. }
  { intros ? ?. simpl. by rewrite lookup_empty. }
  rewrite Hrun in Hne, Hreg, Hcan. cbn [fst] in *.
  pose proof (Hreg _ _ Hs) as Hin. split_and!.
  - by eapply Hcan.
  - done.
  - unfold Presence.connections in Hin.
    destruct (addressToSockets (server sys) !! a) as [sockets|] eqn:Hm;
      simpl in Hin; [|set_solver].
    rewrite (deregister_known _ _ _ _ Hm). by case_decide.
  - intros sender from to body now Hto Hbody Hlow.
    apply auth_dm_send_delivers; [done..|]. by rewrite Hlow.
Qed.

(** X7: when every connection arrives on a socket id that has no handlers
    installed, the presence map holds exactly the sockets with handlers
    installed, each under its address: an address is tracked as online iff
    one of its sockets is still connected, and once all have disconnected the
    map is empty. *)
Theorem presence_map_is_the_installed_sockets inputs sys effects :
  run boot inputs = (sys, effects) →
  fresh_sockets boot inputs = true →
  (∀ socket_id address,
     installed sys !! socket_id = Some address
     ↔ socket_id ∈ Presence.connections address (addressToSockets (server sys))) ∧
  (∀ address,
     Presence.online address (addressToSockets (server sys))
     ↔ ∃ socket_id, installed sys !! socket_id = Some address) ∧
  (installed sys = ∅ → addressToSockets (server sys) = ∅).
Proof.
  intros Hrun Hfresh.
  destruct (auth_run_kept inputs boot) as (Hne & Hreg & _).
  { apply empty_no_empty_entry. }
  { intros ? ?. simpl. by rewrite lookup_empty. }
  { intros ? ?. simpl. by rewrite lookup_empty. }
  assert (Hng := auth_run_no_ghost inputs boot).
  rewrite Hrun in Hne, Hreg, Hng. cbn [fst] in *.
  assert (Hng' : Sockets.no_ghost (installed sys) (addressToSockets (server sys))).
  { apply Hng; [|done]. intros s a. unfold Presence.connections. simpl.
    rewrite lookup_empty. simpl. set_solver. }
  split_and!.
  - intros s a. split; [apply Hreg|apply Hng'].
  - intros a. by apply online_iff_installed.
  - by apply no_installed_no_entry.
Qed.

(** The challenge stored under a nonce is fixed but for its consumed flag,
    until the nonce is drawn again. *)
Lemma step_keeps_binding sys i nonce challenge :
  AuthRuns.draws nonce i = false →
  (nonceChallenges (server sys) !! nonce = None
   ∨ nonceChallenges (server sys) !! nonce = Some challenge
   ∨ nonceChallenges (server sys) !! nonce = Some (NonceChallenge.consume challenge)) →
  nonceChallenges (server (step sys i).1) !! nonce = None
  ∨ nonceChallenges (server (step sys i).1) !! nonce = Some challenge
  ∨ nonceChallenges (server (step sys i).1) !! nonce
    = Some (NonceChallenge.consume challenge).
Proof.
  intros Hdraw Hc.
  destruct i as [nonce' address chainId domain uri issuedAt expirationTime
                |socket_id authPayload now|socket_id to body now|socket_id];
    simpl in *.
  - apply bool_decide_eq_false in Hdraw. by rewrite lookup_insert_ne.
  - destruct (connection socket_id authPayload now (server sys))
      as [[st' out] effects] eqn:H. simpl.
    destruct out as [|address].
    + destruct (connection_closed _ _ _ _ _ _ _ _ H) as (_ & _ & [->|Hdel]); [done|].
      destruct Hdel as (n & c & _ & _ & _ & _ & ->).
      destruct (decide (n = nonce)) as [->|Hne].
      * left. apply lookup_delete_eq.
      * by rewrite lookup_delete_ne.
    + destruct (connection_authenticated _ _ _ _ _ _ _ _ _ H)
        as (? & ? & n & ? & c & ? & ? & ? & ? & ? & ? & Hn & ? & ? & ? & ? & ?
            & -> & ?).
      simpl. destruct (decide (n = nonce)) as [->|Hne].
      * rewrite lookup_insert_eq. right. right.
        destruct Hc as [Hc|[Hc|Hc]]; rewrite Hc in Hn; by simplify_eq.
      * by rewrite lookup_insert_ne.
  - by destruct (installed sys !! socket_id).
  - destruct (installed sys !! socket_id) as [address|]; [|done].
    unfold disconnect. by destruct (Presence.deregister _ _ _) as [[m e]|].
Qed.

Lemma run_keeps_binding inputs sys nonce challenge :
  existsb (AuthRuns.draws nonce) inputs = false →
  (nonceChallenges (server sys) !! nonce = None
   ∨ nonceChallenges (server sys) !! nonce = Some challenge
   ∨ nonceChallenges (server sys) !! nonce = Some (NonceChallenge.consume challenge)) →
  nonceChallenges (server (run sys inputs).1) !! nonce = None
  ∨ nonceChallenges (server (run sys inputs).1) !! nonce = Some challenge
  ∨ nonceChallenges (server (run sys inputs).1) !! nonce
    = Some (NonceChallenge.consume challenge).
Proof.
  revert sys. induction inputs as [|i inputs IH]; intros sys Hdraw Hc; [done|].
  rewrite (run_cons getAddress verifyTypedData). cbn [fst].
  cbn [existsb] in Hdraw. apply orb_false_iff in Hdraw as [Hi Hrest].
  apply IH; [done|]. by apply step_keeps_binding.
Qed.

(** X16: a nonce redeems only the identity it was issued for.  Once a
    challenge is stored under a nonce, then however the server runs on
    without that nonce being drawn again, a connection that authenticates
    with the nonce does so as the address of that challenge, which was still
    stored unchanged and unconsumed, and at a time before its
    expirationTime. *)
Theorem nonce_stays_bound
    sys inputs nonce challenge socket_id authPayload now st2 address effects :
  nonceChallenges (server sys) !! nonce = Some challenge →
  existsb (AuthRuns.draws nonce) inputs = false →
  auth_nonce authPayload = Some nonce →
  connection socket_id authPayload now (server (run sys inputs).1)
    = (st2, Authenticated address, effects) →
  address = NonceChallenge.address challenge ∧
  nonceChallenges (server (run sys inputs).1) !! nonce = Some challenge ∧
  NonceChallenge.consumed challenge = false ∧
  JS.str_le (NonceChallenge.expirationTime challenge) now = false.
Proof.
  intros Hc Hdraw Hn H.
  destruct (connection_authenticated _ _ _ _ _ _ _ _ _ H)
    as (? & ? & n & ? & c & ? & ? & ? & Hn' & ? & ? & Hc' & Hpending & Hexp
        & Hbound & _).
  rewrite Hn in Hn'. injection Hn' as <-.
  destruct (run_keeps_binding inputs sys nonce challenge Hdraw) as [Hk|[Hk|Hk]];
    [by auto|rewrite Hk in Hc'..].
  - done.
  - injection Hc' as <-. by split_and!.
  - injection Hc' as <-. done.
Qed.

(** C3: in every state the server reaches from its start, no address maps to
    an empty set, so an address is tracked exactly when it has a connection;
    every socket whose handlers are installed is in the set of the address it
    authenticated as, and when the transport hands out unused socket ids the
    sets hold these sockets and no other, so an address is online exactly
    when one of its sockets is still connected.  Any further input changes
    the set of an address as follows and not otherwise: a connection that
    authenticates as the address adds its socket, a disconnect of a socket of
    the address removes that one socket, every other input leaves the set as
    it is.  It broadcasts presence:online about an address once when that
    address goes from no connection to some and not otherwise, and
    presence:offline once when it goes from some to none and not otherwise,
    the entry being gone then: a disconnect that leaves another socket of the
    address in the set broadcasts nothing about it and keeps the entry.  The
    presence map and the broadcasts of a run are those of a run of
    register/deregister calls, each of which adds or removes the one socket
    it names; in any such run the broadcasts about an address and its entry
    are those of its own calls alone; registrations of an absent address,
    however interleaved with calls for other addresses, broadcast its arrival
    exactly once; and when these sockets are then deregistered, each at
    least once and in any order, its departure is broadcast exactly once and
    its entry is gone. *)
Theorem presence_registry_invariant inputs sys effects :
  run boot inputs = (sys, effects) →
  let m := addressToSockets (server sys) in
  (Presence.no_empty_entry m ∧
   (∀ address, Presence.online address m ↔ Presence.connections address m ≠ ∅) ∧
   (∀ socket_id address,
      installed sys !! socket_id = Some address →
      socket_id ∈ Presence.connections address m) ∧
   (fresh_sockets boot inputs = true →
    (∀ socket_id address,
       socket_id ∈ Presence.connections address m
       ↔ installed sys !! socket_id = Some address) ∧
    (∀ address,
       Presence.online address m
       ↔ ∃ socket_id, installed sys !! socket_id = Some address))) ∧
  (∀ i address,
     let m' := addressToSockets (server (step sys i).1) in
     let before := Presence.connections address m in
     let after := Presence.connections address m' in
     after = match i with
             | Connect socket_id authPayload now =>
                 match (connection socket_id authPayload now (server sys)).1.2 with
                 | Authenticated address' =>
                     if decide (address' = address)
                     then {[socket_id]} ∪ before else before
                 | Closed => before
                 end
             | Disconnect socket_id =>
                 match installed sys !! socket_id with
                 | Some address' =>
                     if decide (address' = address)
                     then before ∖ {[socket_id]} else before
                 | None => before
                 end
             | NonceRequest _ _ _ _ _ _ _ | DmSend _ _ _ _ => before
             end ∧
     online_count address (step sys i).2
       = (if decide (before = ∅ ∧ after ≠ ∅) then 1 else 0) ∧
     offline_count address (step sys i).2
       = (if decide (before ≠ ∅ ∧ after = ∅) then 1 else 0) ∧
     (after = ∅ → m' !! address = None) ∧
     (after ≠ ∅ → offline_count address (step sys i).2 = 0 ∧ is_Some (m' !! address))) ∧
  (∃ ops, m = (Presence.run ops ∅).1 ∧
     ∀ address,
       online_count address effects = online_count address (Presence.run ops ∅).2 ∧
       offline_count address effects = offline_count address (Presence.run ops ∅).2) ∧
  (∀ address socket_id address' m0,
     Presence.connections address (Presence.apply (Presence.Register socket_id address') m0).1
     = (if decide (address' = address)
        then {[socket_id]} ∪ Presence.connections address m0
        else Presence.connections address m0) ∧
     Presence.connections address (Presence.apply (Presence.Deregister socket_id address') m0).1
     = (if decide (address' = address)
        then Presence.connections address m0 ∖ {[socket_id]}
        else Presence.connections address m0)) ∧
  (∀ address ops m0,
     let all := Presence.run ops m0 in
     let own := Presence.run (List.filter (Presence.about address) ops) m0 in
     Presence.connections address all.1 = Presence.connections address own.1 ∧
     online_count address all.2 = online_count address own.2 ∧
     offline_count address all.2 = offline_count address own.2) ∧
  (∀ address sockets ops m0,
     m0 !! address = None → sockets ≠ [] →
     List.filter (Presence.about address) ops
       = (λ s, Presence.Register s address) <$> sockets →
     online_count address (Presence.run ops m0).2 = 1 ∧
     offline_count address (Presence.run ops m0).2 = 0 ∧
     Presence.connections address (Presence.run ops m0).1 = list_to_set sockets) ∧
  (∀ address sockets gone ops m0,
     m0 !! address = None → sockets ≠ [] → sockets ⊆ gone →
     List.filter (Presence.about address) ops
       = ((λ s, Presence.Register s address) <$> sockets)
         ++ ((λ s, Presence.Deregister s address) <$> gone) →
     online_count address (Presence.run ops m0).2 = 1 ∧
     offline_count address (Presence.run ops m0).2 = 1 ∧
     (Presence.run ops m0).1 !! address = None).
Proof.
  intros Hrun m.
  destruct (run_presence getAddress verifyTypedData inputs boot) as [Hm Hcount].
  destruct (auth_run_kept inputs boot) as (Hinv & Hreg & _).
  { apply empty_no_empty_entry. }
  { intros ? ?. simpl. by rewrite lookup_empty. }
  { intros ? ?. simpl. by rewrite lookup_empty. }
  assert (Hng := auth_run_no_ghost inputs boot).
  rewrite Hrun in Hm, Hcount, Hinv, Hreg, Hng. cbn [fst snd] in *.
  fold m in Hinv, Hreg.
  split_and!.
  - done.
  - intros address. by apply online_iff_connected.
  - apply Hreg.
  - intros Hfresh.
    assert (Hng' : Sockets.no_ghost (installed sys) m).
    { apply Hng; [|done]. intros s a. unfold Presence.connections. simpl.
      rewrite lookup_empty. simpl. set_solver. }
    split.
    + intros s a. split; [apply Hng'|apply Hreg].
    + intros a. by apply online_iff_installed.
  - intros i address.
    destruct (step_presence getAddress verifyTypedData sys i) as [Hstep Hstepc].
    destruct (Hstepc address) as [Hon Hoff]. cbn zeta. rewrite Hstep, Hon, Hoff.
    assert (Hop : presence_op sys i
                  = match i with
                    | Connect socket_id authPayload now =>
                        match (connection socket_id authPayload now (server sys)).1.2 with
                        | Authenticated address' =>
                            Some (Presence.Register socket_id address')
                        | Closed => None
                        end
                    | Disconnect socket_id =>
                        Presence.Deregister socket_id <$> installed sys !! socket_id
                    | _ => None
                    end).
    { destruct i as [| socket_id authPayload now | |]; simpl; try done.
      by destruct (connection socket_id authPayload now (server sys))
        as [[st' [|a]] e]. }
    assert (Hafter :
      Presence.connections address
        (Presence.apply_opt (presence_op sys i) (addressToSockets (server sys))).1
      = match presence_op sys i with
        | Some (Presence.Register socket_id address') =>
            if decide (address' = address)
            then {[socket_id]} ∪ Presence.connections address m
            else Presence.connections address m
        | Some (Presence.Deregister socket_id address') =>
            if decide (address' = address)
            then Presence.connections address m ∖ {[socket_id]}
            else Presence.connections address m
        | None => Presence.connections address m
        end).
    { destruct (presence_op sys i) as [o|]; simpl; [|done].
      rewrite apply_connections. by destruct o. }
    split.
    { rewrite Hafter, Hop.
      destruct i as [| socket_id authPayload now | |socket_id]; simpl; try done.
      - by destruct ((connection socket_id authPayload now (server sys)).1.2).
      - by destruct (installed sys !! socket_id). }
    assert (Hnext : Presence.no_empty_entry
              (Presence.apply_opt (presence_op sys i) (addressToSockets (server sys))).1).
    { destruct (presence_op sys i) as [o|]; simpl; [|done].
      by apply apply_no_empty_entry. }
    assert (Hlast : ∀ n : nat,
      n = (if decide (Presence.connections address m ≠ ∅ ∧
                      Presence.connections address
                        (Presence.apply_opt (presence_op sys i)
                           (addressToSockets (server sys))).1 = ∅)
           then 1 else 0) →
      Presence.connections address
        (Presence.apply_opt (presence_op sys i) (addressToSockets (server sys))).1 ≠ ∅ →
      n = 0 ∧
      is_Some ((Presence.apply_opt (presence_op sys i)
                  (addressToSockets (server sys))).1 !! address)).
    { intros n -> Hne. split.
      - rewrite decide_False; [done|]. by intros [_ ?].
      - apply not_eq_None_Some. intros Hnone. apply Hne.
        by apply connections_empty. }
    destruct (presence_op sys i) as [o|]; simpl in *.
    + destruct (apply_transition o m address Hinv) as (T1 & T2 & T3).
      split_and!; [done..|]. intros Hne. by apply Hlast.
    + fold m. rewrite !decide_False by (by intros [? ?]).
      split_and!; [done..| |].
      * by apply connections_empty.
      * intros Hne. split; [done|]. apply not_eq_None_Some. intros Hnone.
        apply Hne. by apply connections_empty.
  - by exists (presence_trace getAddress verifyTypedData boot inputs).
  - intros address socket_id address' m0. by rewrite !apply_connections.
  - intros address ops m0.
    destruct (presence_run_independent address ops m0 m0 eq_refl) as (H1 & H2 & H3).
    unfold Presence.connections. by rewrite H1.
  - intros address sockets ops m0 Hm0 Hne Hops.
    destruct (presence_run_independent address ops m0 m0 eq_refl) as (H1 & H2 & H3).
    destruct (registrations_online_once address sockets m0 Hm0 Hne) as (R1 & R2 & R3).
    rewrite Hops in H1, H2, H3.
    unfold Presence.connections. rewrite H1, H2, H3, R1, R2, R3. done.
  - intros address sockets gone ops m0 Hm0 Hne Hgone Hops.
    destruct (presence_run_independent address ops m0 ∅) as (H1 & H2 & H3).
    { by rewrite Hm0, lookup_empty. }
    rewrite Hops, presence_run_app in H1, H2, H3. cbn [fst snd] in H1, H2, H3.
    destruct (registrations_online_once address sockets ∅ (lookup_empty _) Hne)
      as (R1 & R2 & R3).
    set (m1 := (Presence.run ((λ s, Presence.Register s address) <$> sockets) ∅).1)
      in *.
    assert (Hm1 : Presence.connections address m1 = list_to_set sockets).
    { unfold Presence.connections. by rewrite R3. }
    destruct (deregistrations_offline_once address gone m1) as (D1 & D2 & D3).
    { apply presence_run_no_empty_entry, empty_no_empty_entry. }
    { rewrite Hm1. intros s Hs. apply elem_of_list_to_set.
      apply elem_of_list_to_set in Hs. by apply Hgone. }
    rewrite decide_False in D2.
    2:{ rewrite Hm1. destruct sockets as [|s sockets]; [done|]. set_solver. }
    rewrite online_count_app in H2. rewrite offline_count_app in H3.
    rewrite H1, H2, H3, R1, R2, D1, D2, D3. done.
Qed.

End AuthFurther.

(** ** The room server: connections and rooms *)

Section RoomFurther.

Import RoomServer.

Implicit Types (st : State) (sys : System).

Lemma room_connection_closed socket_id addressRaw st :
  JS.truthy addressRaw = false →
  connection socket_id addressRaw st = (st, Closed, [SocketDisconnect socket_id]).
Proof. unfold connection. by intros ->. Qed.

Lemma room_connection_connected socket_id raw st :
  raw ≠ "" →
  connection socket_id (Some raw) st
  = ({| addressToSockets :=
          (Presence.register socket_id (JS.toLowerCase raw) (addressToSockets st)).1;
        chatRoomMembers := chatRoomMembers st |},
     Connected (JS.toLowerCase raw),
     (Presence.register socket_id (JS.toLowerCase raw) (addressToSockets st)).2
     ++ [SocketEmit socket_id "presence:snapshot"
           (Presence.snapshot
              (Presence.register socket_id (JS.toLowerCase raw) (addressToSockets st)).1);
         SocketEmit socket_id "presence:snapshot"
           (Presence.snapshot
              (Presence.register socket_id (JS.toLowerCase raw) (addressToSockets st)).1)]).
Proof.
  intros Hne%String.eqb_neq. unfold connection. simpl. rewrite Hne. simpl.
  by destruct (Presence.register _ _ _).
Qed.

(** The handler on an address that is a string or absent is the handler on
    any handshake value, at the values of that shape. *)
Lemma room_connection_typed socket_id (addressRaw : option string) st :
  Events.room_connection JS.toLowerCase socket_id (Json.of_option addressRaw) st
  = Some (connection socket_id addressRaw st).
Proof.
  unfold Events.room_connection, connection. rewrite truthy_of_option.
  destruct addressRaw as [raw|]; [|done].
  destruct (negb (JS.truthy (Some raw))); [done|]. simpl.
  by destruct (Presence.register _ _ _).
Qed.

Lemma handshake_string (toLowerCase : string → string) socket_id raw st :
  raw ≠ "" →
  Events.room_connection toLowerCase socket_id (Json.Str raw) st
  = Some ({| addressToSockets :=
               (Presence.register socket_id (toLowerCase raw) (addressToSockets st)).1;
             chatRoomMembers := chatRoomMembers st |},
          Connected (toLowerCase raw),
          (Presence.register socket_id (toLowerCase raw) (addressToSockets st)).2
          ++ [SocketEmit socket_id "presence:snapshot"
                (Presence.snapshot
                   (Presence.register socket_id (toLowerCase raw)
                      (addressToSockets st)).1);
              SocketEmit socket_id "presence:snapshot"
                (Presence.snapshot
                   (Presence.register socket_id (toLowerCase raw)
                      (addressToSockets st)).1)]).
Proof.
  intros Hne%String.eqb_neq. unfold Events.room_connection. simpl. rewrite Hne. simpl.
  by destruct (Presence.register _ _ _).
Qed.

(** X8: the room server takes the claimed address on trust, whatever value
    the handshake carries.  A connection whose address is falsy (missing,
    [null], [false], [0], [NaN] or the empty string) is disconnected and
    changes nothing.  On a truthy address that is not a string the handler
    throws at [addressRaw.toLowerCase()], before anything is registered or
    sent.  A non-empty string is connected as [addressRaw.toLowerCase()]: its
    socket joins that address's set, no other entry and no room changes,
    presence:online is broadcast exactly when the address was not tracked,
    and the new socket is sent the same snapshot twice, listing every tracked
    address once. *)
Theorem handshake_address_is_taken_on_trust
    (toLowerCase : string → string) socket_id (addressRaw : Json.value) st :
  (Json.truthy addressRaw = false →
   Events.room_connection toLowerCase socket_id addressRaw st
   = Some (st, Closed, [SocketDisconnect socket_id])) ∧
  (Json.truthy addressRaw = true → (∀ raw, addressRaw ≠ Json.Str raw) →
   Events.room_connection toLowerCase socket_id addressRaw st = None) ∧
  (∀ raw, addressRaw = Json.Str raw → raw ≠ "" →
     let address := toLowerCase raw in
     ∃ st' online users,
       Events.room_connection toLowerCase socket_id addressRaw st
       = Some (st', Connected address,
               online ++ [SocketEmit socket_id "presence:snapshot" (PUsers users);
                          SocketEmit socket_id "presence:snapshot" (PUsers users)]) ∧
       chatRoomMembers st' = chatRoomMembers st ∧
       Presence.connections address (addressToSockets st')
         = {[socket_id]} ∪ Presence.connections address (addressToSockets st) ∧
       (∀ a, a ≠ address → addressToSockets st' !! a = addressToSockets st !! a) ∧
       online = (if decide (addressToSockets st !! address = None)
                 then [ConsoleLog "USER ONLINE:" [address];
                       BroadcastEmit socket_id "presence:online" (PAddress address)]
                 else []) ∧
       NoDup users.*1 ∧
       (∀ a, a ∈ users.*1 ↔ Presence.online a (addressToSockets st'))) ∧
  (∀ v, Json.truthy v = false
        ↔ v = Json.Undefined ∨ v = Json.Null ∨ v = Json.Bool false ∨ v = Json.Str ""
          ∨ ∃ n, v = Json.Num n ∧ (PrimFloat.is_zero n || PrimFloat.is_nan n) = true) ∧
  (∀ claimed : option string,
     Events.room_connection JS.toLowerCase socket_id (Json.of_option claimed) st
     = Some (connection socket_id claimed st)).
Proof.
  split_and!.
  - intros H. unfold Events.room_connection. by rewrite H.
  - intros H Hstr. unfold Events.room_connection. rewrite H. simpl.
    destruct addressRaw; try done. by destruct (Hstr s).
  - intros raw -> Hne address.
    destruct (snapshot_lists
      (Presence.register socket_id address (addressToSockets st)).1)
      as (users & Hsnap & Hnd & Hin & _).
    eexists _, _, users. rewrite (handshake_string toLowerCase _ _ _ Hne).
    fold address. rewrite Hsnap. split_and!; try done.
    + simpl. rewrite register_map. unfold Presence.connections at 1.
      by rewrite lookup_insert_eq.
    + intros a Ha. simpl. rewrite register_map. by rewrite lookup_insert_ne.
    + apply register_effects.
  - apply falsy_values.
  - intros claimed. apply room_connection_typed.
Qed.

Lemma count_in_fmap (f : string → effect) (p : effect → bool) (c : string)
    (l : list string) :
  (∀ x, p (f x) = bool_decide (x = c)) → NoDup l →
  Wire.count p (f <$> l) = if decide (c ∈ l) then 1 else 0.
Proof.
  intros Hp. unfold Wire.count. induction l as [|x l IH]; intros Hnd.
  - rewrite decide_False by apply not_elem_of_nil. done.
  - apply NoDup_cons in Hnd as [Hx Hnd]. rewrite fmap_cons. cbn [List.filter].
    rewrite Hp. case_bool_decide as Hxc.
    + subst x. cbn [length]. rewrite (IH Hnd), decide_False by done.
      rewrite decide_True; [done|]. apply list_elem_of_here.
    + rewrite (IH Hnd). apply decide_ext. rewrite elem_of_cons. naive_solver.
Qed.

(** X9: after [leave_chat] no room is left with fewer than two members: the
    room it names is gone, or it has at least two members and the leaver is
    not one of them.  A room that does not exist costs nothing but the
    socket's unsubscription; the presence map and every other room are as
    before, and CHAT INACTIVE is logged exactly when the room's entry is
    deleted. *)
Theorem leave_chat_leaves_no_small_room socket_id address chatId st :
  let r := leaveChat socket_id address chatId st in
  addressToSockets r.1 = addressToSockets st ∧
  (∀ c, c ≠ chatId → chatRoomMembers r.1 !! c = chatRoomMembers st !! c) ∧
  (chatRoomMembers st !! chatId = None → r = (st, [SocketLeave socket_id chatId])) ∧
  (∀ members', chatRoomMembers r.1 !! chatId = Some members' →
     (2 ≤ size members')%nat ∧ (address ∉ members') ∧
     ∃ members, chatRoomMembers st !! chatId = Some members
                ∧ members' = members ∖ {[address]}) ∧
  (RoomRuns.inactive_count chatId r.2
   = if decide (is_Some (chatRoomMembers st !! chatId)
                ∧ chatRoomMembers r.1 !! chatId = None) then 1 else 0)%nat.
Proof.
  unfold leaveChat.
  destruct (chatRoomMembers st !! chatId) as [members|] eqn:Hm.
  - case_decide as Hsize; cbn [fst snd]; split_and!.
    + done.
    + intros c Hc. simpl. by rewrite lookup_delete_ne.
    + done.
    + intros members'. simpl. by rewrite lookup_delete_eq.
    + rewrite decide_True; [|split; [by eexists|apply lookup_delete_eq]].
      unfold RoomRuns.inactive_count, Wire.count. simpl.
      by rewrite !bool_decide_eq_true_2.
    + done.
    + intros c Hc. simpl. by rewrite lookup_insert_ne.
    + done.
    + intros members'. simpl. rewrite lookup_insert_eq. intros [= <-].
      split_and!; [lia|set_solver|by eexists].
    + rewrite decide_False; [done|]. intros [_ H]. simpl in H.
      by rewrite lookup_insert_eq in H.
  - cbn [fst snd]. split_and!.
    + done.
    + done.
    + done.
    + intros members'. by rewrite Hm.
    + rewrite decide_False; [done|]. intros [[? ?] _]. done.
Qed.

Lemma join_chat_other socket_id address chatId st c :
  c ≠ chatId →
  chatRoomMembers (join_chat socket_id address chatId st).1 !! c
  = chatRoomMembers st !! c.
Proof. intros Hc. unfold join_chat. simpl. by rewrite lookup_insert_ne. Qed.

Lemma join_chat_presence socket_id address chatId st :
  addressToSockets (join_chat socket_id address chatId st).1 = addressToSockets st.
Proof. done. Qed.

Lemma leave_chat_rooms socket_id address chatId st c :
  chatRoomMembers (leaveChat socket_id address chatId st).1 !! c
  = if decide (c = chatId)
    then match chatRoomMembers st !! chatId with
         | None => None
         | Some members =>
             if decide (size (members ∖ {[address]}) < 2)%nat then None
             else Some (members ∖ {[address]})
         end
    else chatRoomMembers st !! c.
Proof.
  unfold leaveChat. destruct (decide (c = chatId)) as [->|Hc].
  - destruct (chatRoomMembers st !! chatId) as [members|] eqn:Hm; simpl; [|done].
    case_decide; simpl; [apply lookup_delete_eq|apply lookup_insert_eq].
  - destruct (chatRoomMembers st !! chatId) as [members|]; simpl; [|done].
    case_decide; simpl; by rewrite ?lookup_delete_ne, ?lookup_insert_ne.
Qed.

Lemma leave_chat_presence socket_id address chatId st :
  addressToSockets (leaveChat socket_id address chatId st).1 = addressToSockets st.
Proof.
  unfold leaveChat. destruct (chatRoomMembers st !! chatId); [|done].
  by case_decide.
Qed.

(** X10: joining a room and leaving it again does not undo the join in
    general.  The room ends as what it was without the joiner if that still
    has two members, and is deleted otherwise; so the state is restored
    exactly when the room did not exist, or the joiner was not a member and
    the room had two members or more; a room that had a single member is
    deleted, that member with it.  Other rooms and the presence map are
    untouched. *)
Theorem join_then_leave socket_id address chatId st :
  let members := default ∅ (chatRoomMembers st !! chatId) in
  let st2 := (leaveChat socket_id address chatId
                (join_chat socket_id address chatId st).1).1 in
  chatRoomMembers st2 !! chatId
    = (if decide (size (members ∖ {[address]}) < 2)%nat then None
       else Some (members ∖ {[address]})) ∧
  (∀ c, c ≠ chatId → chatRoomMembers st2 !! c = chatRoomMembers st !! c) ∧
  addressToSockets st2 = addressToSockets st ∧
  (address ∉ members → (2 ≤ size members)%nat → st2 = st) ∧
  (st2 = st
   ↔ chatRoomMembers st !! chatId = None
     ∨ ∃ old, chatRoomMembers st !! chatId = Some old ∧
              (address ∉ old) ∧ (2 ≤ size old)%nat) ∧
  (∀ member, chatRoomMembers st !! chatId = Some {[member]} →
     chatRoomMembers st2 !! chatId = None).
Proof.
  intros members st2.
  assert (Hroom : chatRoomMembers st2 !! chatId
    = (if decide (size (members ∖ {[address]}) < 2)%nat then None
       else Some (members ∖ {[address]}))).
  { unfold st2. rewrite leave_chat_rooms, decide_True, join_chat_members by done.
    fold members.
    by replace (({[address]} ∪ members) ∖ {[address]}) with (members ∖ {[address]})
      by set_solver. }
  assert (Hother : ∀ c, c ≠ chatId →
            chatRoomMembers st2 !! c = chatRoomMembers st !! c).
  { intros c Hc. unfold st2.
    by rewrite leave_chat_rooms, decide_False, join_chat_other by done. }
  assert (Hpres : addressToSockets st2 = addressToSockets st).
  { unfold st2. by rewrite leave_chat_presence, join_chat_presence. }
  assert (Hstate : chatRoomMembers st2 !! chatId = chatRoomMembers st !! chatId →
                   st2 = st).
  { intros Hsame.
    assert (Hrooms : chatRoomMembers st2 = chatRoomMembers st).
    { apply map_eq. intros c. destruct (decide (c = chatId)) as [->|Hc];
        [done|by apply Hother]. }
    destruct st2, st. simpl in *. by subst. }
  assert (Hkept : address ∉ members → (2 ≤ size members)%nat → st2 = st).
  { intros Hnot Hsize. apply Hstate. rewrite Hroom.
    replace (members ∖ {[address]}) with members by set_solver.
    rewrite decide_False by lia. unfold members in *.
    destruct (chatRoomMembers st !! chatId); [done|]. exfalso.
    change (default ∅ None) with (∅ : gset string) in Hsize.
    rewrite size_empty in Hsize. lia. }
  split_and!; try done.
  - split.
    + intros Hsame. rewrite Hsame in Hroom. unfold members in *.
      destruct (chatRoomMembers st !! chatId) as [old|] eqn:Hold; [|by left].
      right. exists old. cbn [default from_option id] in *.
      case_decide as Hsize; [done|]. injection Hroom as Hroom.
      assert (Hnot : address ∉ old) by set_solver.
      replace (old ∖ {[address]}) with old in Hsize by set_solver.
      split_and!; [done|done|lia].
    + intros [Hnone|(old & Hold & Hnot & Hsize)].
      * apply Hstate. rewrite Hroom. unfold members. rewrite Hnone.
        cbn [default from_option id]. rewrite decide_True; [done|].
        assert (size ((∅ : gset string) ∖ {[address]}) ≤ size (∅ : gset string))%nat
          by (apply subseteq_size; set_solver).
        rewrite size_empty in *. lia.
      * apply Hkept; unfold members; by rewrite Hold.
  - intros member Hm. rewrite Hroom. unfold members. rewrite Hm.
    cbn [default from_option id]. rewrite decide_True; [done|].
    assert (size ({[member]} ∖ {[address]} : gset string) ≤ size ({[member]} : gset string))%nat
      by (apply subseteq_size; set_solver).
    rewrite size_singleton in *. lia.
Qed.

Lemma sweep_members_spec address members :
  sweep_members address members
  = if decide (address ∈ members ∧ size (members ∖ {[address]}) < 2)%nat then None
    else Some (members ∖ {[address]}).
Proof.
  unfold sweep_members. destruct (decide (address ∈ members)) as [Hin|Hnot].
  - case_decide; [by rewrite decide_True|by rewrite decide_False by tauto].
  - rewrite decide_False by tauto. f_equal. set_solver.
Qed.

(** X11: the disconnect of a socket whose address the presence map tracks
    takes that address out of every room: afterwards it is a member of none;
    a room it was not in is unchanged; a room it was in is kept, without it,
    when two members or more remain and is deleted otherwise; and CHAT
    INACTIVE is logged once for each deleted room and for no other.  When the
    presence map does not track the address the handler returns before the
    loop and changes nothing. *)
Theorem disconnect_sweeps_every_room socket_id address st :
  let r := disconnect socket_id address st in
  (addressToSockets st !! address = None → r = (st, [])) ∧
  (is_Some (addressToSockets st !! address) →
   (∀ chatId members',
      chatRoomMembers r.1 !! chatId = Some members' →
      (address ∉ members') ∧
      (chatRoomMembers st !! chatId = Some members' ∨
       (2 ≤ size members')%nat
       ∧ chatRoomMembers st !! chatId = Some ({[address]} ∪ members'))) ∧
   (∀ chatId members,
      chatRoomMembers st !! chatId = Some members →
      chatRoomMembers r.1 !! chatId
      = if decide (address ∈ members ∧ size (members ∖ {[address]}) < 2)%nat
        then None else Some (members ∖ {[address]})) ∧
   (∀ chatId,
      RoomRuns.inactive_count chatId r.2
      = (if decide (is_Some (chatRoomMembers st !! chatId)
                    ∧ chatRoomMembers r.1 !! chatId = None) then 1 else 0)%nat)).
Proof.
  intros r. split.
  - intros Hm. unfold r, disconnect. by rewrite (deregister_unknown _ _ _ Hm).
  - intros [sockets Hm].
    assert (Hr : ∃ m offline,
      Presence.deregister socket_id address (addressToSockets st) = Some (m, offline)
      ∧ (∀ chatId, RoomRuns.inactive_count chatId offline = 0%nat)).
    { rewrite (deregister_known _ _ _ _ Hm). case_decide; eauto. }
    destruct Hr as (m & offline & Hr & Hoff).
    assert (Hrooms : ∀ chatId,
      chatRoomMembers r.1 !! chatId
      = chatRoomMembers st !! chatId ≫= sweep_members address).
    { intros chatId. unfold r, disconnect. rewrite Hr. simpl. apply lookup_omap. }
    split_and!.
    + intros chatId members'. rewrite Hrooms.
      destruct (chatRoomMembers st !! chatId) as [members|]; simpl; [|done].
      rewrite sweep_members_spec. case_decide as Hd; [done|]. intros [= <-].
      split; [set_solver|].
      destruct (decide (address ∈ members)) as [Hin|Hnot].
      * right. assert (¬ (size (members ∖ {[address]}) < 2)%nat) by tauto.
        split; [lia|]. f_equal.
        apply set_eq. intros x. rewrite elem_of_union, elem_of_difference,
          elem_of_singleton. destruct (decide (x = address)); naive_solver.
      * left. f_equal. set_solver.
    + intros chatId members Hc. rewrite Hrooms, Hc. simpl.
      apply sweep_members_spec.
    + intros chatId. unfold r, disconnect. rewrite Hr.
      unfold RoomRuns.inactive_count in *. cbn [snd]. rewrite count_app, Hoff.
      rewrite (count_in_fmap _ _ chatId).
      * simpl. apply decide_ext.
        rewrite list_elem_of_fmap. cbn [fst]. rewrite lookup_omap. split.
        -- intros ([c members] & -> & Hin%elem_of_map_to_list).
           apply map_lookup_filter_Some in Hin as [Hc Hnone]. simpl in *.
           rewrite Hc. simpl. split; [by eexists|done].
        -- intros [[members Hc] Hnone]. rewrite Hc in Hnone. simpl in Hnone.
           exists (chatId, members). split; [done|].
           apply elem_of_map_to_list, map_lookup_filter_Some. done.
      * intros x. reflexivity.
      * apply NoDup_fst_map_to_list.
Qed.

End RoomFurther.

(** ** The room server along its runs *)

Section RoomRunsFacts.

Import RoomServer.

Implicit Types (st : State) (sys : System).

Lemma room_run_cons sys i inputs :
  run sys (i :: inputs)
  = ((run (step sys i).1 inputs).1, (step sys i).2 ++ (run (step sys i).1 inputs).2).
Proof.
  cbn [run]. destruct (step sys i) as [sys1 e1]. cbn [fst snd].
  by destruct (run sys1 inputs).
Qed.

Lemma room_connection_cases socket_id addressRaw st :
  connection socket_id addressRaw st = (st, Closed, [SocketDisconnect socket_id]) ∨
  ∃ raw, addressRaw = Some raw ∧
    connection socket_id addressRaw st
    = ({| addressToSockets :=
            (Presence.register socket_id (JS.toLowerCase raw) (addressToSockets st)).1;
          chatRoomMembers := chatRoomMembers st |},
       Connected (JS.toLowerCase raw),
       (Presence.register socket_id (JS.toLowerCase raw) (addressToSockets st)).2
       ++ [SocketEmit socket_id "presence:snapshot"
             (Presence.snapshot
                (Presence.register socket_id (JS.toLowerCase raw)
                   (addressToSockets st)).1);
           SocketEmit socket_id "presence:snapshot"
             (Presence.snapshot
                (Presence.register socket_id (JS.toLowerCase raw)
                   (addressToSockets st)).1)]).
Proof.
  destruct (JS.truthy addressRaw) eqn:Ht.
  - apply truthy_Some in Ht as (raw & -> & Hne). right. exists raw.
    split; [done|]. by apply room_connection_connected.
  - left. by apply room_connection_closed.
Qed.

Lemma no_presence_in (es : list effect) address :
  (∀ e, e ∈ es →
     match e with
     | BroadcastEmit _ _ _ | IoEmit _ _ => False
     | _ => True
     end) →
  online_count address es = 0 ∧ offline_count address es = 0.
Proof.
  intros H. split; apply count_zero; intros e He; specialize (H e He);
    by destruct e.
Qed.

Lemma room_dm_send_no_presence socket_id from to body now st address :
  online_count address (dm_send socket_id from to body now st) = 0 ∧
  offline_count address (dm_send socket_id from to body now st) = 0.
Proof.
  apply no_presence_in. intros e. unfold dm_send.
  destruct (negb _ || negb _); [by intros ?%elem_of_nil|].
  destruct to as [to|]; [|by intros ?%elem_of_nil].
  destruct body as [body|]; [|by intros ?%elem_of_nil].
  rewrite elem_of_app, list_elem_of_singleton. intros [He| ->]; [|done].
  destruct (addressToSockets st !! _) as [sockets|]; [|by apply elem_of_nil in He].
  by apply list_elem_of_fmap in He as (id & -> & _).
Qed.

(** Each input of the room server acts on the presence map as the registry
    operation it amounts to, and fires that operation's broadcasts only. *)
Lemma room_step_presence sys i :
  let r := Presence.apply_opt (RoomRuns.presence_op sys i)
             (addressToSockets (server sys)) in
  addressToSockets (server (step sys i).1) = r.1 ∧
  ∀ address,
    online_count address (step sys i).2 = online_count address r.2 ∧
    offline_count address (step sys i).2 = offline_count address r.2.
Proof.
  destruct i as [socket_id addressRaw|socket_id to body now|socket_id chatId
                |socket_id chatId|socket_id]; simpl.
  - destruct (room_connection_cases socket_id addressRaw (server sys))
      as [->|(raw & -> & ->)]; simpl; [done|].
    split; [done|]. intros a.
    rewrite online_count_app, offline_count_app.
    unfold online_count, offline_count, Wire.count. simpl. lia.
  - destruct (installed sys !! socket_id) as [address|]; simpl; [|done].
    split; [done|]. intros a. apply room_dm_send_no_presence.
  - destruct (installed sys !! socket_id) as [address|]; simpl; [|done].
    split; [done|]. intros a. by case_decide.
  - destruct (installed sys !! socket_id) as [address|]; simpl; [|done].
    unfold leaveChat. destruct (chatRoomMembers (server sys) !! chatId); [|done].
    by case_decide.
  - destruct (installed sys !! socket_id) as [address|]; simpl; [|done].
    unfold disconnect.
    destruct (Presence.deregister _ _ _) as [[m offline]|]; simpl; [|done].
    split; [done|]. intros a.
    rewrite online_count_app, offline_count_app.
    destruct (no_presence_in
                ((λ chatId, ConsoleLog "CHAT INACTIVE:" [chatId])
                   <$> (map_to_list
                          (filter (λ room, sweep_members address room.2 = None)
                             (chatRoomMembers (server sys)))).*1) a) as [-> ->].
    + intros e He. by apply list_elem_of_fmap in He as (c & -> & _).
    + lia.
Qed.

Lemma room_step_installed sys i :
  installed (step sys i).1
  = Sockets.installed_after (RoomRuns.presence_op sys i) (installed sys).
Proof.
  destruct i as [socket_id addressRaw|socket_id to body now|socket_id chatId
                |socket_id chatId|socket_id]; simpl.
  - destruct (connection socket_id addressRaw (server sys))
      as [[st' out] effects]. by destruct out.
  - by destruct (installed sys !! socket_id).
  - destruct (installed sys !! socket_id) as [address|]; [|done].
    by destruct (join_chat socket_id address chatId (server sys)).
  - destruct (installed sys !! socket_id) as [address|]; [|done].
    by destruct (leaveChat socket_id address chatId (server sys)).
  - destruct (installed sys !! socket_id) as [address|]; simpl; [|done].
    by destruct (disconnect socket_id address (server sys)).
Qed.

Lemma room_presence_op_inv sys i o :
  RoomRuns.presence_op sys i = Some o →
  match o with
  | Presence.Register socket_id address =>
      JS.toLowerCase address = address ∧
      ∃ addressRaw, i = Connect socket_id addressRaw
  | Presence.Deregister socket_id address =>
      installed sys !! socket_id = Some address ∧ i = Disconnect socket_id
  end.
Proof.
  destruct i as [socket_id addressRaw|socket_id to body now|socket_id chatId
                |socket_id chatId|socket_id]; simpl; try done.
  - destruct (room_connection_cases socket_id addressRaw (server sys))
      as [->|(raw & -> & ->)]; [done|]. intros [= <-].
    split; [apply toLowerCase_idemp|by eauto].
  - destruct (installed sys !! socket_id) as [address|] eqn:Hi; simpl; [|done].
    by intros [= <-].
Qed.

Lemma online_after o (m : gmap string (gset string)) address :
  Presence.online address m →
  (∀ socket_id, o ≠ Presence.Deregister socket_id address) →
  Presence.online address (Presence.apply o m).1.
Proof.
  unfold Presence.online. intros Hon Ho. rewrite apply_entry.
  case_decide as Hs; [|done].
  destruct o as [socket_id a|socket_id a]; [by eexists|].
  simpl in Hs. subst a. by destruct (Ho socket_id).
Qed.

(** The rooms after one input. *)
Lemma room_step_rooms sys i :
  Sockets.registered (installed sys) (addressToSockets (server sys)) →
  Rooms.populated (chatRoomMembers (server sys)) →
  Rooms.members_online (chatRoomMembers (server sys)) (addressToSockets (server sys)) →
  Rooms.populated (chatRoomMembers (server (step sys i).1)) ∧
  Rooms.members_online (chatRoomMembers (server (step sys i).1))
    (addressToSockets (server (step sys i).1)).
Proof.
  intros Hreg Hpop Hon.
  destruct i as [socket_id addressRaw|socket_id to body now|socket_id chatId
                |socket_id chatId|socket_id]; simpl.
  - destruct (room_connection_cases socket_id addressRaw (server sys))
      as [->|(raw & -> & ->)]; simpl; [done|].
    split; [done|]. intros c members a Hc Ha.
    apply (online_after (Presence.Register socket_id (JS.toLowerCase raw)));
      [by eapply Hon|done].
  - by destruct (installed sys !! socket_id).
  - destruct (installed sys !! socket_id) as [address|] eqn:Hi; simpl; [|done].
    assert (Haddr : Presence.online address (addressToSockets (server sys))).
    { apply Hreg in Hi. unfold Presence.connections, Presence.online in *.
      destruct (addressToSockets (server sys) !! address); [by eexists|].
      simpl in Hi. set_solver. }
    split.
    + intros c members. destruct (decide (c = chatId)) as [->|Hc].
      * rewrite lookup_insert_eq. intros [= <-]. set_solver.
      * rewrite lookup_insert_ne by done. apply Hpop.
    + intros c members a. destruct (decide (c = chatId)) as [->|Hc].
      * rewrite lookup_insert_eq. intros [= <-].
        rewrite elem_of_union, elem_of_singleton. intros [->|Ha]; [done|].
        destruct (chatRoomMembers (server sys) !! chatId) as [old|] eqn:Hold;
          simpl in Ha; [by eapply Hon|set_solver].
      * rewrite lookup_insert_ne by done. apply Hon.
  - destruct (installed sys !! socket_id) as [address|] eqn:Hi; simpl; [|done].
    pose proof (leave_chat_rooms socket_id address chatId (server sys)) as Hrooms.
    pose proof (leave_chat_presence socket_id address chatId (server sys)) as Hpres.
    destruct (leaveChat socket_id address chatId (server sys)) as [st' e].
    simpl in *. rewrite Hpres. split.
    + intros c members. rewrite Hrooms. case_decide; [|apply Hpop].
      destruct (chatRoomMembers (server sys) !! chatId) as [old|]; [|done].
      case_decide as Hsize; [done|]. intros [= <-] He. rewrite He, size_empty in Hsize.
      lia.
    + intros c members a. rewrite Hrooms. case_decide; [|apply Hon].
      destruct (chatRoomMembers (server sys) !! chatId) as [old|] eqn:Hold; [|done].
      case_decide; [done|]. intros [= <-] Ha. eapply Hon; [done|]. set_solver.
  - destruct (installed sys !! socket_id) as [address|] eqn:Hi; simpl; [|done].
    unfold disconnect.
    destruct (Presence.deregister socket_id address (addressToSockets (server sys)))
      as [[m offline]|] eqn:Hd; simpl; [|done].
    assert (Hm : m = (Presence.apply (Presence.Deregister socket_id address)
                        (addressToSockets (server sys))).1).
    { simpl. by rewrite Hd. }
    split.
    + intros c members. rewrite lookup_omap.
      destruct (chatRoomMembers (server sys) !! c) as [old|] eqn:Hold; [|done].
      simpl. rewrite sweep_members_spec. case_decide as Hsw; [done|].
      intros [= <-] He.
      destruct (decide (address ∈ old)) as [Hin|Hnot].
      * assert (¬ (size (old ∖ {[address]}) < 2)%nat) as Hsize by tauto.
        rewrite He, size_empty in Hsize. lia.
      * apply (Hpop _ _ Hold). set_solver.
    + intros c members a. rewrite lookup_omap.
      destruct (chatRoomMembers (server sys) !! c) as [old|] eqn:Hold; [|done].
      simpl. rewrite sweep_members_spec. case_decide as Hsw; [done|].
      intros [= <-] [Ha Hne%not_elem_of_singleton]%elem_of_difference.
      rewrite Hm. unfold Presence.online. rewrite apply_entry. simpl.
      rewrite decide_False by done. by eapply Hon.
Qed.

Lemma room_step_kept sys i :
  Presence.no_empty_entry (addressToSockets (server sys)) →
  Sockets.registered (installed sys) (addressToSockets (server sys)) →
  Sockets.canonical (installed sys) →
  Presence.no_empty_entry (addressToSockets (server (step sys i).1)) ∧
  Sockets.registered (installed (step sys i).1)
    (addressToSockets (server (step sys i).1)) ∧
  Sockets.canonical (installed (step sys i).1).
Proof.
  intros Hne Hreg Hcan.
  destruct (room_step_presence sys i) as [-> _].
  rewrite room_step_installed.
  destruct (RoomRuns.presence_op sys i) as [o|] eqn:Ho; simpl.
  - split_and!.
    + by apply apply_no_empty_entry.
    + by apply registered_after.
    + apply (canonical_after (Some o)); [done|].
      intros s a [= ->]. by destruct (room_presence_op_inv _ _ _ Ho).
  - done.
Qed.

Lemma room_run_kept inputs sys :
  Presence.no_empty_entry (addressToSockets (server sys)) →
  Sockets.registered (installed sys) (addressToSockets (server sys)) →
  Sockets.canonical (installed sys) →
  Rooms.populated (chatRoomMembers (server sys)) →
  Rooms.members_online (chatRoomMembers (server sys)) (addressToSockets (server sys)) →
  let sys' := (run sys inputs).1 in
  Presence.no_empty_entry (addressToSockets (server sys')) ∧
  Sockets.registered (installed sys') (addressToSockets (server sys')) ∧
  Sockets.canonical (installed sys') ∧
  Rooms.populated (chatRoomMembers (server sys')) ∧
  Rooms.members_online (chatRoomMembers (server sys')) (addressToSockets (server sys')).
Proof.
  revert sys. induction inputs as [|i inputs IH];
    intros sys Hne Hreg Hcan Hpop Hon; [done|].
  rewrite room_run_cons. cbn [fst].
  destruct (room_step_kept sys i Hne Hreg Hcan) as (? & ? & ?).
  destruct (room_step_rooms sys i Hreg Hpop Hon) as (? & ?).
  by apply IH.
Qed.

Lemma room_boot_kept :
  Presence.no_empty_entry (addressToSockets (server boot)) ∧
  Sockets.registered (installed boot) (addressToSockets (server boot)) ∧
  Sockets.canonical (installed boot) ∧
  Rooms.populated (chatRoomMembers (server boot)) ∧
  Rooms.members_online (chatRoomMembers (server boot)) (addressToSockets (server boot)).
Proof.
  split_and!; intros ? ?; simpl; by rewrite lookup_empty.
Qed.

Lemma room_run_no_ghost inputs sys :
  Sockets.no_ghost (installed sys) (addressToSockets (server sys)) →
  RoomRuns.fresh_sockets sys inputs = true →
  Sockets.no_ghost (installed (run sys inputs).1)
    (addressToSockets (server (run sys inputs).1)).
Proof.
  revert sys. induction inputs as [|i inputs IH]; intros sys Hng Hfresh; [done|].
  rewrite room_run_cons. cbn [fst].
  change (RoomRuns.fresh_sockets sys (i :: inputs))
    with (match i with
          | Connect socket_id _ => bool_decide (installed sys !! socket_id = None)
          | _ => true
          end && RoomRuns.fresh_sockets (step sys i).1 inputs) in Hfresh.
  apply andb_true_iff in Hfresh as [Hi Hrest].
  apply IH; [|done].
  destruct (room_step_presence sys i) as [-> _].
  rewrite room_step_installed.
  destruct (RoomRuns.presence_op sys i) as [o|] eqn:Ho; simpl; [|done].
  apply no_ghost_after; [done|].
  pose proof (room_presence_op_inv _ _ _ Ho) as Hinv.
  destruct o as [s a|s a].
  - destruct Hinv as (_ & addressRaw & ->). by apply bool_decide_eq_true in Hi.
  - by destruct Hinv.
Qed.

Lemma room_dm_send_delivers sender from to body now st socket_id :
  to ≠ "" → body ≠ "" →
  socket_id ∈ Presence.connections (JS.toLowerCase to) (addressToSockets st) →
  IoToEmit socket_id "dm:receive"
    (PMsg {| Wire.from := from; Wire.to := to; Wire.body := body; Wire.ts := now |})
  ∈ dm_send sender from (Some to) (Some body) now st.
Proof.
  intros Hto Hbody Hin. unfold dm_send. simpl.
  apply String.eqb_neq in Hto, Hbody. rewrite Hto, Hbody. simpl.
  unfold Presence.connections in Hin.
  destruct (addressToSockets st !! JS.toLowerCase to) as [sockets|];
    simpl in Hin; [|set_solver].
  apply elem_of_app. left. apply list_elem_of_fmap.
  exists socket_id. split; [done|]. by apply elem_of_elements.
Qed.

(** X12: in every state the room server reaches, no address maps to an empty
    set; a socket whose handlers are installed captured a lowercase address
    and is in that address's set, so its disconnect handler always reaches
    the room loop and a dm:send to that address in any letter case reaches
    the socket; no room is empty; and every member of a room is an address
    the presence map tracks. *)
Theorem room_server_invariants inputs sys effects :
  run boot inputs = (sys, effects) →
  Presence.no_empty_entry (addressToSockets (server sys)) ∧
  (∀ socket_id address,
     installed sys !! socket_id = Some address →
     JS.toLowerCase address = address ∧
     socket_id ∈ Presence.connections address (addressToSockets (server sys)) ∧
     is_Some (Presence.deregister socket_id address (addressToSockets (server sys))) ∧
     (∀ sender from to body now,
        to ≠ "" → body ≠ "" → JS.toLowerCase to = address →
        IoToEmit socket_id "dm:receive"
          (PMsg {| Wire.from := from; Wire.to := to;
                   Wire.body := body; Wire.ts := now |})
        ∈ dm_send sender from (Some to) (Some body) now (server sys))) ∧
  (∀ chatId members,
     chatRoomMembers (server sys) !! chatId = Some members →
     members ≠ ∅ ∧
     ∀ address, address ∈ members →
       Presence.online address (addressToSockets (server sys))).
Proof.
  intros Hrun.
  destruct room_boot_kept as (B1 & B2 & B3 & B4 & B5).
  destruct (room_run_kept inputs boot B1 B2 B3 B4 B5) as (Hne & Hreg & Hcan & Hpop & Hon).
  rewrite Hrun in Hne, Hreg, Hcan, Hpop, Hon. cbn [fst] in *.
  split_and!.
  - done.
  - intros s a Hs. pose proof (Hreg _ _ Hs) as Hin. split_and!.
    + by eapply Hcan.
    + done.
    + unfold Presence.connections in Hin.
      destruct (addressToSockets (server sys) !! a) as [sockets|] eqn:Hm;
        simpl in Hin; [|set_solver].
      rewrite (deregister_known _ _ _ _ Hm). by case_decide.
    + intros sender from to body now Hto Hbody Hlow.
      apply room_dm_send_delivers; [done..|]. by rewrite Hlow.
  - intros c members Hc. split; [by eapply Hpop|].
    intros a Ha. by eapply Hon.
Qed.

(** X13: when every connection of the room server arrives on a socket id
    that has no handlers installed, its presence map holds exactly the
    sockets with handlers installed, each under its address; an address is
    tracked iff one of its sockets is still connected, and with no socket
    left the map is empty and so is the set of rooms. *)
Theorem room_presence_map_is_the_installed_sockets inputs sys effects :
  run boot inputs = (sys, effects) →
  RoomRuns.fresh_sockets boot inputs = true →
  (∀ socket_id address,
     installed sys !! socket_id = Some address
     ↔ socket_id ∈ Presence.connections address (addressToSockets (server sys))) ∧
  (∀ address,
     Presence.online address (addressToSockets (server sys))
     ↔ ∃ socket_id, installed sys !! socket_id = Some address) ∧
  (installed sys = ∅ →
     addressToSockets (server sys) = ∅ ∧ chatRoomMembers (server sys) = ∅).
Proof.
  intros Hrun Hfresh.
  destruct room_boot_kept as (B1 & B2 & B3 & B4 & B5).
  destruct (room_run_kept inputs boot B1 B2 B3 B4 B5) as (Hne & Hreg & _ & Hpop & Hon).
  assert (Hng := room_run_no_ghost inputs boot).
  rewrite Hrun in Hne, Hreg, Hpop, Hon, Hng. cbn [fst] in *.
  assert (Hng' : Sockets.no_ghost (installed sys) (addressToSockets (server sys))).
  { apply Hng; [|done]. intros s a. unfold Presence.connections. simpl.
    rewrite lookup_empty. simpl. set_solver. }
  split_and!.
  - intros s a. split; [apply Hreg|apply Hng'].
  - intros a. by apply online_iff_installed.
  - intros Hnone.
    assert (Hm : addressToSockets (server sys) = ∅)
      by (by eapply no_installed_no_entry).
    split; [done|]. apply map_empty. intros c.
    destruct (chatRoomMembers (server sys) !! c) as [members|] eqn:Hc; [|done].
    destruct (set_choose_L members (Hpop _ _ Hc)) as [a Ha].
    destruct (Hon _ _ _ Hc Ha) as [sockets Hs].
    by rewrite Hm, lookup_empty in Hs.
Qed.

(** X14: the room server broadcasts presence as the authenticating server
    does.  In every state it reaches, any further input broadcasts
    presence:online about an address once if that address goes from no
    connection to some and not at all otherwise, and presence:offline once
    if it goes from some connection to none, its entry being deleted then,
    and not at all otherwise. *)
Theorem room_presence_broadcasts inputs sys effects i address :
  run boot inputs = (sys, effects) →
  let m := addressToSockets (server sys) in
  let m' := addressToSockets (server (step sys i).1) in
  let before := Presence.connections address m in
  let after := Presence.connections address m' in
  online_count address (step sys i).2
    = (if decide (before = ∅ ∧ after ≠ ∅) then 1 else 0) ∧
  offline_count address (step sys i).2
    = (if decide (before ≠ ∅ ∧ after = ∅) then 1 else 0) ∧
  (after = ∅ → m' !! address = None).
Proof.
  intros Hrun m m' before after.
  destruct room_boot_kept as (B1 & B2 & B3 & B4 & B5).
  destruct (room_run_kept inputs boot B1 B2 B3 B4 B5) as (Hne & _).
  rewrite Hrun in Hne. cbn [fst] in Hne.
  destruct (room_step_presence sys i) as [Hstep Hcount].
  destruct (Hcount address) as [Hon Hoff].
  unfold after, m'. rewrite Hstep, Hon, Hoff.
  destruct (RoomRuns.presence_op sys i) as [o|]; simpl.
  - by apply apply_transition.
  - fold m. fold before. rewrite !decide_False by (by intros [? ?]).
    split_and!; [done..|]. by apply connections_empty.
Qed.

End RoomRunsFacts.

(** ** The further statements at work on concrete runs *)

Lemma presence_registry_invariant_witness :
  let r := Fixture.run AuthServer.boot Scenario.two_sockets in
  let m := AuthServer.addressToSockets (AuthServer.server r.1) in
  let r' := AuthServer.step Fixture.getAddress Fixture.verifyTypedData r.1
              (AuthServer.Disconnect "s1") in
  let m' := AuthServer.addressToSockets (AuthServer.server r'.1) in
  Fixture.run AuthServer.boot Scenario.two_sockets = (r.1, r.2) ∧
  AuthRuns.fresh_sockets Fixture.getAddress Fixture.verifyTypedData
    AuthServer.boot Scenario.two_sockets = true ∧
  online_count "0xa11ce" r.2 = 1 ∧
  Presence.no_empty_entry m ∧
  (∀ socket_id address,
     socket_id ∈ Presence.connections address m
     ↔ AuthServer.installed r.1 !! socket_id = Some address) ∧
  Presence.connections "0xa11ce" m = {[ "s1"; "s2" ]} ∧
  Presence.connections "0xa11ce" m' = Presence.connections "0xa11ce" m ∖ {[ "s1" ]} ∧
  offline_count "0xa11ce" r'.2 = 0 ∧
  is_Some (m' !! "0xa11ce").
Proof.
  intros r m r' m'.
  assert (Hr : Fixture.run AuthServer.boot Scenario.two_sockets = (r.1, r.2))
    by (by vm_compute).
  assert (Hf : AuthRuns.fresh_sockets Fixture.getAddress Fixture.verifyTypedData
                 AuthServer.boot Scenario.two_sockets = true) by (by vm_compute).
  assert (Hs1 : AuthServer.installed r.1 !! "s1" = Some "0xa11ce") by (by vm_compute).
  assert (Hs2 : "s2" ∈ Presence.connections "0xa11ce" m') by (by vm_compute).
  destruct (presence_registry_invariant Fixture.getAddress Fixture.verifyTypedData
              _ _ _ Hr) as ((Hinv & _ & _ & Hfresh) & Hstep & _).
  destruct (Hfresh Hf) as [Htie _].
  destruct (Hstep (AuthServer.Disconnect "s1") "0xa11ce")
    as (Hafter & _ & _ & _ & Hsome).
  rewrite Hs1 in Hafter.
  destruct Hsome as [Hoff Hentry].
  { intros Hempty. fold r' m' in Hempty. rewrite Hempty in Hs2.
    by apply not_elem_of_empty in Hs2. }
  split_and!;
    [exact Hr|exact Hf|by vm_compute|exact Hinv|exact Htie|by vm_compute
    |exact Hafter|exact Hoff|exact Hentry].
Defined.

Lemma nonce_request_outcome_witness :
  Scenario.handle Scenario.request 1767225600000 "n1" AuthServer.initial
    = Some (Fixture.issued, Scenario.response) ∧
  AuthServer.addressToSockets Fixture.issued
    = AuthServer.addressToSockets AuthServer.initial ∧
  (NonceEndpoint.statusCode Scenario.response ≠ 200%Z →
   Fixture.issued = AuthServer.initial) ∧
  AuthServer.nonceChallenges Fixture.issued !! "n1" = Some Fixture.pending.
Proof.
  assert (H : Scenario.handle Scenario.request 1767225600000 "n1" AuthServer.initial
              = Some (Fixture.issued, Scenario.response)) by (by vm_compute).
  destruct (nonce_request_outcome Fixture.getAddress Scenario.toInteger
              Scenario.toISOString Scenario.parseURL _ _ _ _ _ _ H)
    as (Hpres & _ & Hkeep & _).
  split_and!; [done|done|done|by vm_compute].
Defined.

Lemma issued_nonce_authenticates_witness :
  let m := AuthServer.signIn_message "n1" Fixture.pending in
  Scenario.handle Scenario.request 1767225600000 "n1" AuthServer.initial
    = Some (Fixture.issued, Scenario.response) ∧
  Fixture.verifyTypedData (AuthServer.signIn_domain Fixture.pending)
    AuthServer.TYPE_DATA_TYPES m "n1/0xA11ce" = Some "0xA11ce" ∧
  JS.str_le (AuthServer.SignIn.expirationTime m) "2026-01-01T00:01:00.000Z" = false ∧
  ∃ st2 effects,
    Fixture.connection "s1" Fixture.alice "2026-01-01T00:01:00.000Z" Fixture.issued
      = (st2, AuthServer.Authenticated "0xa11ce", effects) ∧
    "s1" ∈ Presence.connections "0xa11ce" (AuthServer.addressToSockets st2).
Proof.
  intros m.
  assert (H : Scenario.handle Scenario.request 1767225600000 "n1" AuthServer.initial
              = Some (Fixture.issued, Scenario.response)) by (by vm_compute).
  split_and!; [done..|].
  destruct (issued_nonce_authenticates Fixture.getAddress Fixture.verifyTypedData
              Scenario.toInteger Scenario.toISOString Scenario.parseURL
              Scenario.request 1767225600000 "n1" AuthServer.initial
              Fixture.issued Scenario.response
              (AuthServer.signIn_domain Fixture.pending) AuthServer.TYPE_DATA_TYPES
              "SignIn" m "s1" Fixture.alice "n1/0xA11ce" "0xA11ce"
              "2026-01-01T00:01:00.000Z" H eq_refl)
    as (st2 & effects & Hc & Hin & _); [done..|].
  by exists st2, effects.
Defined.

Lemma cors_header_only_for_allowed_origins_witness :
  Scenario.handle Scenario.request 1767225600000 "n1" AuthServer.initial
    = Some (Fixture.issued, Scenario.response) ∧
  (("Access-Control-Allow-Origin", "http://localhost:5173")
     ∈ NonceEndpoint.headers Scenario.response
   ↔ NonceEndpoint.origin Scenario.request = Some "http://localhost:5173"
     ∧ "http://localhost:5173" ∈ NonceEndpoint.ALLOWED_ORIGINS).
Proof.
  assert (H : Scenario.handle Scenario.request 1767225600000 "n1" AuthServer.initial
              = Some (Fixture.issued, Scenario.response)) by (by vm_compute).
  split; [done|].
  exact (cors_header_only_for_allowed_origins Fixture.getAddress Scenario.toInteger
           Scenario.toISOString Scenario.parseURL _ _ _ _ _ _
           "http://localhost:5173" H).
Defined.

Lemma nonce_request_throws_on_unparsable_origin_witness :
  Scenario.handle Scenario.garbled_request 1767225600000 "n1" AuthServer.initial = None.
Proof.
  apply (nonce_request_throws_on_unparsable_origin Fixture.getAddress
           Scenario.toInteger Scenario.toISOString Scenario.parseURL).
  split_and!; [done|done| |done].
  exists "0xA11CE", "1", 1%Z. split_and!; [done..|by eexists].
Defined.

Lemma connection_touches_only_what_it_presents_witness :
  let r := Fixture.connection "s1" Fixture.alice "2026-01-01T00:05:00.000Z"
             (AuthServer.server Fixture.signed_in) in
  Fixture.connection "s1" Fixture.alice "2026-01-01T00:05:00.000Z"
    (AuthServer.server Fixture.signed_in) = (r.1.1, r.1.2, r.2) ∧
  (∀ nonce, AuthServer.auth_nonce Fixture.alice ≠ Some nonce →
     AuthServer.nonceChallenges r.1.1 !! nonce
     = AuthServer.nonceChallenges (AuthServer.server Fixture.signed_in) !! nonce) ∧
  (∀ address,
     Presence.connections address
       (AuthServer.addressToSockets (AuthServer.server Fixture.signed_in))
     ⊆ Presence.connections address (AuthServer.addressToSockets r.1.1)).
Proof.
  intros r.
  assert (Hr : Fixture.connection "s1" Fixture.alice "2026-01-01T00:05:00.000Z"
                 (AuthServer.server Fixture.signed_in) = (r.1.1, r.1.2, r.2))
    by (by vm_compute).
  destruct (connection_touches_only_what_it_presents
              Fixture.getAddress Fixture.verifyTypedData _ _ _ _ _ _ _ Hr)
    as (H1 & _ & _ & _ & H5).
  split_and!; [exact Hr|exact H1|exact H5].
Defined.

Lemma authenticated_socket_gets_the_snapshot_witness :
  let r := Fixture.connection "s1" Fixture.alice "2026-01-01T00:01:00.000Z"
             Fixture.issued in
  Fixture.connection "s1" Fixture.alice "2026-01-01T00:01:00.000Z" Fixture.issued
    = (r.1.1, AuthServer.Authenticated "0xa11ce", r.2) ∧
  ∃ users,
    last r.2 = Some (SocketEmit "s1" "presence:snapshot" (PUsers users)) ∧
    "0xa11ce" ∈ users.*1.
Proof.
  intros r.
  assert (Hr : Fixture.connection "s1" Fixture.alice "2026-01-01T00:01:00.000Z"
                 Fixture.issued = (r.1.1, AuthServer.Authenticated "0xa11ce", r.2))
    by (by vm_compute).
  split; [done|].
  destruct (authenticated_socket_gets_the_snapshot
              Fixture.getAddress Fixture.verifyTypedData _ _ _ _ _ _ _ Hr)
    as (users & Hlast & _ & _ & Hin & _).
  exists users. split; [exact Hlast|exact Hin].
Defined.

Lemma installed_sockets_are_registered_witness :
  let r := Fixture.run AuthServer.boot Scenario.auth_inputs in
  Fixture.run AuthServer.boot Scenario.auth_inputs = (r.1, r.2) ∧
  AuthServer.installed r.1 !! "s2" = Some "0xa11ce" ∧
  "s2" ∈ Presence.connections "0xa11ce"
           (AuthServer.addressToSockets (AuthServer.server r.1)) ∧
  IoToEmit "s2" "dm:message"
    (PMsg {| Wire.from := "0xb0b"; Wire.to := "0xA11CE";
             Wire.body := "hi"; Wire.ts := 7 |})
  ∈ AuthServer.dm_send "s9" "0xb0b" (Some "0xA11CE") (Some "hi") 7
      (AuthServer.server r.1).
Proof.
  intros r.
  assert (Hr : Fixture.run AuthServer.boot Scenario.auth_inputs = (r.1, r.2))
    by (by vm_compute).
  assert (Hs : AuthServer.installed r.1 !! "s2" = Some "0xa11ce") by (by vm_compute).
  destruct (installed_sockets_are_registered Fixture.getAddress
              Fixture.verifyTypedData _ _ _ Hr "s2" "0xa11ce" Hs)
    as (_ & Hin & _ & Hdm).
  split_and!; [done..|]. by apply Hdm.
Defined.

Lemma presence_map_is_the_installed_sockets_witness :
  let r := Fixture.run AuthServer.boot Scenario.auth_inputs in
  Fixture.run AuthServer.boot Scenario.auth_inputs = (r.1, r.2) ∧
  AuthRuns.fresh_sockets Fixture.getAddress Fixture.verifyTypedData
    AuthServer.boot Scenario.auth_inputs = true ∧
  (∀ socket_id address,
     AuthServer.installed r.1 !! socket_id = Some address
     ↔ socket_id ∈ Presence.connections address
                     (AuthServer.addressToSockets (AuthServer.server r.1))) ∧
  Presence.connections "0xa11ce"
    (AuthServer.addressToSockets (AuthServer.server r.1)) = {[ "s2" ]}.
Proof.
  intros r.
  assert (Hr : Fixture.run AuthServer.boot Scenario.auth_inputs = (r.1, r.2))
    by (by vm_compute).
  assert (Hf : AuthRuns.fresh_sockets Fixture.getAddress Fixture.verifyTypedData
                 AuthServer.boot Scenario.auth_inputs = true) by (by vm_compute).
  destruct (presence_map_is_the_installed_sockets Fixture.getAddress
              Fixture.verifyTypedData _ _ _ Hr Hf) as (Hiff & _ & _).
  split_and!; [done..|by vm_compute].
Defined.

Lemma room_server_invariants_witness :
  let r := RoomServer.run RoomServer.boot Scenario.room_inputs in
  RoomServer.run RoomServer.boot Scenario.room_inputs = (r.1, r.2) ∧
  RoomServer.chatRoomMembers (RoomServer.server r.1) !! "lobby" = Some {[ "0xb" ]} ∧
  ∀ chatId members,
    RoomServer.chatRoomMembers (RoomServer.server r.1) !! chatId = Some members →
    members ≠ ∅ ∧
    ∀ address, address ∈ members →
      Presence.online address (RoomServer.addressToSockets (RoomServer.server r.1)).
Proof.
  intros r.
  assert (Hr : RoomServer.run RoomServer.boot Scenario.room_inputs = (r.1, r.2))
    by (by vm_compute).
  destruct (room_server_invariants _ _ _ Hr) as (_ & _ & Hrooms).
  split_and!; [exact Hr|by vm_compute|exact Hrooms].
Defined.

Lemma room_presence_map_is_the_installed_sockets_witness :
  let r := RoomServer.run RoomServer.boot Scenario.room_inputs in
  RoomServer.run RoomServer.boot Scenario.room_inputs = (r.1, r.2) ∧
  RoomRuns.fresh_sockets RoomServer.boot Scenario.room_inputs = true ∧
  ∀ address,
    Presence.online address (RoomServer.addressToSockets (RoomServer.server r.1))
    ↔ ∃ socket_id, RoomServer.installed r.1 !! socket_id = Some address.
Proof.
  intros r.
  assert (Hr : RoomServer.run RoomServer.boot Scenario.room_inputs = (r.1, r.2))
    by (by vm_compute).
  assert (Hf : RoomRuns.fresh_sockets RoomServer.boot Scenario.room_inputs = true)
    by (by vm_compute).
  destruct (room_presence_map_is_the_installed_sockets _ _ _ Hr Hf) as (_ & Hon & _).
  split_and!; [exact Hr|exact Hf|exact Hon].
Defined.

Lemma room_presence_broadcasts_witness :
  let r := RoomServer.run RoomServer.boot Scenario.room_inputs in
  let last := RoomServer.step r.1 (RoomServer.Disconnect "s3") in
  RoomServer.run RoomServer.boot Scenario.room_inputs = (r.1, r.2) ∧
  offline_count "0xb" last.2 = 1 ∧
  offline_count "0xb" last.2
  = (if decide (Presence.connections "0xb"
                  (RoomServer.addressToSockets (RoomServer.server r.1)) ≠ ∅
                ∧ Presence.connections "0xb"
                    (RoomServer.addressToSockets (RoomServer.server last.1)) = ∅)
     then 1 else 0).
Proof.
  intros r last.
  assert (Hr : RoomServer.run RoomServer.boot Scenario.room_inputs = (r.1, r.2))
    by (by vm_compute).
  destruct (room_presence_broadcasts _ _ _ (RoomServer.Disconnect "s3") "0xb" Hr)
    as (_ & Hoff & _).
  split_and!; [done|by vm_compute|exact Hoff].
Defined.

Lemma nonce_stays_bound_witness :
  let inputs :=
    [AuthServer.NonceRequest "n2" "0xb0b" 1 "localhost" "http://localhost:5173"
       "2026-01-01T00:02:00.000Z" "2026-01-01T00:07:00.000Z";
     AuthServer.Connect "s7" (Fixture.auth "0xB0B" "n1/0xb0b" "n1")
       "2026-01-01T00:02:30.000Z"] in
  let sys := (Fixture.run Fixture.issued_sys inputs).1 in
  let r := Fixture.connection "s1" Fixture.alice "2026-01-01T00:03:00.000Z"
             (AuthServer.server sys) in
  AuthServer.nonceChallenges Fixture.issued !! "n1" = Some Fixture.pending ∧
  existsb (AuthRuns.draws "n1") inputs = false ∧
  Fixture.connection "s1" Fixture.alice "2026-01-01T00:03:00.000Z"
    (AuthServer.server sys) = (r.1.1, AuthServer.Authenticated "0xa11ce", r.2) ∧
  "0xa11ce" = AuthServer.NonceChallenge.address Fixture.pending ∧
  AuthServer.nonceChallenges (AuthServer.server sys) !! "n1" = Some Fixture.pending.
Proof.
  intros inputs sys r.
  assert (Hc : AuthServer.nonceChallenges Fixture.issued !! "n1"
               = Some Fixture.pending) by (by vm_compute).
  assert (Hd : existsb (AuthRuns.draws "n1") inputs = false) by (by vm_compute).
  assert (Hr : Fixture.connection "s1" Fixture.alice "2026-01-01T00:03:00.000Z"
                 (AuthServer.server sys)
               = (r.1.1, AuthServer.Authenticated "0xa11ce", r.2))
    by (by vm_compute).
  destruct (nonce_stays_bound Fixture.getAddress Fixture.verifyTypedData
              Fixture.issued_sys inputs "n1" Fixture.pending "s1" Fixture.alice
              "2026-01-01T00:03:00.000Z" r.1.1 "0xa11ce" r.2 Hc Hd eq_refl Hr)
    as (Ha & Hk & _ & _).
  split_and!; [exact Hc|exact Hd|exact Hr|exact Ha|exact Hk].
Defined.

Lemma handshake_address_is_taken_on_trust_witness :
  Events.room_connection JS.toLowerCase "s1" Json.Undefined RoomServer.initial
    = Some (RoomServer.initial, RoomServer.Closed, [SocketDisconnect "s1"]) ∧
  Events.room_connection JS.toLowerCase "s1" (Json.Num 0) RoomServer.initial
    = Some (RoomServer.initial, RoomServer.Closed, [SocketDisconnect "s1"]) ∧
  Events.room_connection JS.toLowerCase "s1" (Json.Num 5) RoomServer.initial = None ∧
  ∃ st' users,
    Events.room_connection JS.toLowerCase "s1" (Json.Str "0xA") RoomServer.initial
    = Some (st', RoomServer.Connected "0xa",
            [ConsoleLog "USER ONLINE:" ["0xa"];
             BroadcastEmit "s1" "presence:online" (PAddress "0xa");
             SocketEmit "s1" "presence:snapshot" (PUsers users);
             SocketEmit "s1" "presence:snapshot" (PUsers users)]) ∧
    Presence.connections "0xa" (RoomServer.addressToSockets st') = {[ "s1" ]}.
Proof.
  destruct (handshake_address_is_taken_on_trust JS.toLowerCase "s1" Json.Undefined
              RoomServer.initial) as [Hclosed _].
  destruct (handshake_address_is_taken_on_trust JS.toLowerCase "s1" (Json.Num 0)
              RoomServer.initial) as [Hzero _].
  destruct (handshake_address_is_taken_on_trust JS.toLowerCase "s1" (Json.Num 5)
              RoomServer.initial) as (_ & Hthrow & _).
  destruct (handshake_address_is_taken_on_trust JS.toLowerCase "s1" (Json.Str "0xA")
              RoomServer.initial) as (_ & _ & Hopen & _).
  destruct (Hopen "0xA" eq_refl) as (st' & online & users & Hc & _ & Hin & _ & Hon & _);
    [done|].
  split_and!.
  - apply Hclosed. reflexivity.
  - apply Hzero. reflexivity.
  - apply Hthrow; [reflexivity|done].
  - exists st', users. split.
    + etrans; [exact Hc|]. rewrite Hon. by vm_compute.
    + etrans; [exact Hin|]. by vm_compute.
Defined.

Lemma leave_chat_leaves_no_small_room_witness :
  let r := RoomServer.leaveChat "s1" "0xa" "room"
             (RoomServer.server Scenario.room_sys) in
  RoomServer.chatRoomMembers (RoomServer.server Scenario.room_sys) !! "room"
    = Some {[ "0xa"; "0xb" ]} ∧
  RoomServer.chatRoomMembers r.1 !! "room" = None ∧
  RoomServer.chatRoomMembers r.1 !! "lobby"
    = RoomServer.chatRoomMembers (RoomServer.server Scenario.room_sys) !! "lobby" ∧
  RoomRuns.inactive_count "room" r.2 = 1.
Proof.
  intros r.
  destruct (leave_chat_leaves_no_small_room "s1" "0xa" "room"
              (RoomServer.server Scenario.room_sys))
    as (_ & Hother & _ & _ & Hcount).
  split_and!; [by vm_compute|by vm_compute|by apply Hother|].
  unfold r. rewrite Hcount. by vm_compute.
Defined.

Lemma join_then_leave_witness :
  RoomServer.chatRoomMembers Fixture.lone_room !! "room" = Some {[ "0xa" ]} ∧
  RoomServer.chatRoomMembers
    (RoomServer.leaveChat "s2" "0xb" "room"
       (RoomServer.join_chat "s2" "0xb" "room" Fixture.lone_room).1).1 !! "room"
  = None ∧
  (RoomServer.leaveChat "s2" "0xb" "room"
     (RoomServer.join_chat "s2" "0xb" "room" Fixture.lone_room).1).1
  ≠ Fixture.lone_room ∧
  (RoomServer.leaveChat "s1" "0xa" "room"
     (RoomServer.join_chat "s1" "0xa" "room" RoomServer.initial).1).1
  = RoomServer.initial.
Proof.
  assert (Hm : RoomServer.chatRoomMembers Fixture.lone_room !! "room"
               = Some {[ "0xa" ]}) by (by vm_compute).
  destruct (join_then_leave "s2" "0xb" "room" Fixture.lone_room)
    as (_ & _ & _ & _ & Hiff & Hlone).
  destruct (join_then_leave "s1" "0xa" "room" RoomServer.initial)
    as (_ & _ & _ & _ & Hiff' & _).
  split_and!; [exact Hm|exact (Hlone "0xa" Hm)| |].
  - intros Hsame. apply Hiff in Hsame as [Hnone|(old & Hold & _ & Hsize)].
    + rewrite Hm in Hnone. discriminate Hnone.
    + rewrite Hm in Hold. injection Hold as <-.
      rewrite size_singleton in Hsize. lia.
  - apply Hiff'. left. reflexivity.
Defined.

Lemma disconnect_sweeps_every_room_witness :
  let st := RoomServer.server Fixture.two_devices in
  let r := RoomServer.disconnect "s2" "0xa" st in
  is_Some (RoomServer.addressToSockets st !! "0xa") ∧
  RoomServer.chatRoomMembers st !! "room" = Some {[ "0xa"; "0xb"; "0xc" ]} ∧
  (∀ chatId members',
     RoomServer.chatRoomMembers r.1 !! chatId = Some members' → "0xa" ∉ members') ∧
  RoomRuns.inactive_count "room" r.2 = 0.
Proof.
  intros st r.
  assert (Hs : is_Some (RoomServer.addressToSockets st !! "0xa"))
    by (by vm_compute; eexists).
  destruct (disconnect_sweeps_every_room "s2" "0xa" st) as [_ Hsweep].
  destruct (Hsweep Hs) as (Hgone & _ & Hcount).
  split_and!; [exact Hs|by vm_compute| |].
  - intros chatId members' Hc. by destruct (Hgone chatId members' Hc).
  - unfold r. rewrite Hcount. by vm_compute.
Defined.
